(** * Fareway database MCP server: tool execution gateway

    A shallow embedding of the TypeScript sources (index.ts, server.ts,
    config/environment.ts, utils/cache.ts, utils/database.ts,
    utils/logger.ts, tools/index.ts, tools/courses.ts,
    tools/accommodations.ts, tools/rates.ts, types/tools.ts) and the
    properties of the gateway proved over it.

    JavaScript values are dynamically typed, so the embedding works over one
    value type [JsVal]; asynchronous handlers become functions in a state and
    exception monad over [World], which holds the process singletons, the
    Redis server, the Supabase record store, the clock and the log. *)

From Stdlib Require Import ZArith List Ascii String Permutation Sorted Lia.
From stdpp Require Import base tactics option list strings gmap pretty sorting.

Set Warnings "-register-all".

Local Open Scope Z_scope.

(** ** JavaScript values and the operators the sources use *)

Module Js.

(** Numbers are restricted to the integers: every number the gateway
    inspects is a count, a limit or an amount in cents. *)
Inductive JsVal : Type :=
| VUndef
| VNull
| VBool (b : bool)
| VNum (n : Z)
| VStr (s : string)
| VArr (items : list JsVal)
| VObj (fields : list (string * JsVal)).

(** A thrown [Error] object: its [name] and [message]. *)
Record JsError : Type := mkError { ename : string; emessage : string }.

Definition TypeError (msg : string) : JsError := mkError "TypeError" msg.
Definition SyntaxError (msg : string) : JsError := mkError "SyntaxError" msg.
Definition Error (msg : string) : JsError := mkError "Error" msg.

(** The outcome of evaluating an expression: a value or a thrown error. *)
Inductive Outcome (A : Type) : Type :=
| Return (a : A)
| Throw (e : JsError).
Arguments Return {A} a.
Arguments Throw {A} e.

(** [if (v)], [!v], [a || b] *)
Definition truthy (v : JsVal) : bool :=
  match v with
  | VUndef | VNull => false
  | VBool b => b
  | VNum n => negb (n =? 0)
  | VStr s => negb (String.eqb s "")
  | VArr _ | VObj _ => true
  end.

Definition or (a b : JsVal) : JsVal := if truthy a then a else b.

(** Object fields keep insertion order; a read finds the first binding. *)
Fixpoint field_of {A : Type} (k : string) (fs : list (string * A)) : option A :=
  match fs with
  | [] => None
  | (k', v) :: fs' => if String.eqb k k' then Some v else field_of k fs'
  end.

(** The name of a value's runtime type as error messages print it. *)
Definition kind (v : JsVal) : string :=
  match v with
  | VUndef => "undefined"
  | VNull => "null"
  | VBool _ => "boolean"
  | VNum _ => "number"
  | VStr _ => "string"
  | VArr _ => "array"
  | VObj _ => "object"
  end.

(** [v.k]: reading a property of [undefined] or [null] throws. *)
Definition prop (v : JsVal) (k : string) : Outcome JsVal :=
  match v with
  | VUndef | VNull =>
      Throw (TypeError ("Cannot read properties of " +:+ kind v +:+
                        " (reading '" +:+ k +:+ "')"))
  | VObj fs => Return (default VUndef (field_of k fs))
  | VArr l =>
      Return (if String.eqb k "length" then VNum (Z.of_nat (length l)) else VUndef)
  | VStr s =>
      Return (if String.eqb k "length" then VNum (Z.of_nat (String.length s)) else VUndef)
  | VBool _ | VNum _ => Return VUndef
  end.

(** [v?.k]: optional chaining yields [undefined] instead of throwing. *)
Definition prop_opt (v : JsVal) (k : string) : JsVal :=
  match prop v k with
  | Return x => x
  | Throw _ => VUndef
  end.

(** [k in v]: throws unless [v] is an object. *)
Definition has_key (k : string) (v : JsVal) : Outcome bool :=
  match v with
  | VObj fs => Return (bool_decide (is_Some (field_of k fs)))
  | VArr _ => Return (String.eqb k "length")
  | _ => Throw (TypeError ("Cannot use 'in' operator to search for '" +:+ k +:+
                           "' in " +:+ kind v))
  end.

(** String conversion inside a template literal. *)
Fixpoint toString (v : JsVal) : string :=
  match v with
  | VUndef => "undefined"
  | VNull => "null"
  | VBool true => "true"
  | VBool false => "false"
  | VNum n => pretty n
  | VStr s => s
  | VArr l =>
      (fix join (l : list JsVal) : string :=
         match l with
         | [] => ""
         | [x] => match x with VUndef | VNull => "" | _ => toString x end
         | x :: l' =>
             match x with VUndef | VNull => "" | _ => toString x end +:+ "," +:+ join l'
         end) l
  | VObj _ => "[object Object]"
  end.

(** Strict equality on the primitives the sources compare. *)
Fixpoint eqb (a b : JsVal) : bool :=
  match a, b with
  | VUndef, VUndef | VNull, VNull => true
  | VBool x, VBool y => Bool.eqb x y
  | VNum x, VNum y => x =? y
  | VStr x, VStr y => String.eqb x y
  | VArr x, VArr y =>
      (fix all2 (x y : list JsVal) : bool :=
         match x, y with
         | [], [] => true
         | a :: x', b :: y' => eqb a b && all2 x' y'
         | _, _ => false
         end) x y
  | VObj x, VObj y =>
      (fix all2 (x y : list (string * JsVal)) : bool :=
         match x, y with
         | [], [] => true
         | (k, a) :: x', (k', b) :: y' => String.eqb k k' && eqb a b && all2 x' y'
         | _, _ => false
         end) x y
  | _, _ => false
  end.

(** [s.startsWith(p)] and [s.substring(n)] *)
Definition startsWith (p s : string) : bool := String.prefix p s.

Fixpoint substring_from (n : nat) (s : string) : string :=
  match n, s with
  | O, _ => s
  | S n', String _ s' => substring_from n' s'
  | S _, EmptyString => EmptyString
  end.

End Js.
Export Js.

(** ** JSON text: [JSON.stringify] as used for cache keys *)

Module JSON.

Definition hex_digit (n : nat) : ascii :=
  match n with
  | 0 => "0" | 1 => "1" | 2 => "2" | 3 => "3" | 4 => "4" | 5 => "5" | 6 => "6"
  | 7 => "7" | 8 => "8" | 9 => "9" | 10 => "a" | 11 => "b" | 12 => "c"
  | 13 => "d" | 14 => "e" | _ => "f"
  end%nat%char.

Definition dquote : string := String (ascii_of_nat 34) "".

(** One character of a quoted JSON string. *)
Definition escape_char (c : ascii) : string :=
  let n := nat_of_ascii c in
  if (n =? 34)%nat then "\" +:+ dquote
  else if (n =? 92)%nat then "\\"
  else if (n =? 8)%nat then "\b"
  else if (n =? 9)%nat then "\t"
  else if (n =? 10)%nat then "\n"
  else if (n =? 12)%nat then "\f"
  else if (n =? 13)%nat then "\r"
  else if (n <? 32)%nat then
    "\u00" +:+ String (hex_digit (n / 16)) (String (hex_digit (n mod 16)) "")
  else String c "".

Fixpoint escape (s : string) : string :=
  match s with
  | EmptyString => ""
  | String c s' => escape_char c +:+ escape s'
  end.

Definition quote (s : string) : string := dquote +:+ escape s +:+ dquote.

(** [JSON.stringify(v)]; [None] stands for the result [undefined].
    Properties holding [undefined] are dropped, array holes print as null. *)
Fixpoint stringify (v : JsVal) : option string :=
  match v with
  | VUndef => None
  | VNull => Some "null"
  | VBool true => Some "true"
  | VBool false => Some "false"
  | VNum n => Some (pretty n)
  | VStr s => Some (quote s)
  | VArr l =>
      Some ("[" +:+
        (fix items (l : list JsVal) : string :=
           match l with
           | [] => ""
           | [x] => default "null" (stringify x)
           | x :: l' => default "null" (stringify x) +:+ "," +:+ items l'
           end) l +:+ "]")
  | VObj fs =>
      Some ("{" +:+
        (fix members (first : bool) (fs : list (string * JsVal)) : string :=
           match fs with
           | [] => ""
           | (k, x) :: fs' =>
               match stringify x with
               | None => members first fs'
               | Some t =>
                   (if first then "" else ",") +:+ quote k +:+ ":" +:+ t +:+
                   members false fs'
               end
           end) true fs +:+ "}")
  end.

(** [JSON.parse(JSON.stringify(v))] for a value other than [undefined]. *)
Fixpoint roundtrip (v : JsVal) : JsVal :=
  match v with
  | VArr l =>
      VArr ((fix items (l : list JsVal) : list JsVal :=
               match l with
               | [] => []
               | VUndef :: l' => VNull :: items l'
               | x :: l' => roundtrip x :: items l'
               end) l)
  | VObj fs =>
      VObj ((fix members (fs : list (string * JsVal)) : list (string * JsVal) :=
               match fs with
               | [] => []
               | (_, VUndef) :: fs' => members fs'
               | (k, x) :: fs' => (k, roundtrip x) :: members fs'
               end) fs)
  | _ => v
  end.

(** The text of a template literal hole [${JSON.stringify(v)}]. *)
Definition stringify_text (v : JsVal) : string := default "undefined" (stringify v).

End JSON.

(** ** The zod validators of types/tools.ts

    A schema is the tree of zod constructors the source writes;
    [parse] walks a raw value along it. *)

Module Zod.

Inductive ZodType : Type :=
| z_string
| z_uuid                                  (* z.string().uuid() *)
| z_number
| z_enum (values : list string)
| z_array (item : ZodType)
| z_optional (t : ZodType)
| z_default (t : ZodType) (d : JsVal)
| z_describe (t : ZodType) (text : string)
| z_object (shape : list (string * ZodType)).

Record ZodIssue : Type := mkIssue { path : list string; message : string }.

Definition is_hex (c : ascii) : bool :=
  let n := nat_of_ascii c in
  ((48 <=? n) && (n <=? 57) || (65 <=? n) && (n <=? 70) || (97 <=? n) && (n <=? 102))%nat.

(** The 8-4-4-4-12 hexadecimal layout. *)
Fixpoint uuid_from (i : nat) (s : string) : bool :=
  match s with
  | EmptyString => (i =? 36)%nat
  | String c s' =>
      (if (i =? 8)%nat || (i =? 13)%nat || (i =? 18)%nat || (i =? 23)%nat
       then Ascii.eqb c "-" else is_hex c)
      && (i <? 36)%nat && uuid_from (S i) s'
  end.

Definition is_uuid (s : string) : bool := uuid_from 0 s.

Definition mismatch (p : list string) (expected : string) (v : JsVal)
  : JsVal + list ZodIssue :=
  match v with
  | VUndef => inr [mkIssue p "Required"]
  | _ => inr [mkIssue p ("Expected " +:+ expected +:+ ", received " +:+ kind v)]
  end.

Definition enum_text (values : list string) : string :=
  foldr (fun v acc => "'" +:+ v +:+ "'" +:+
                      (if String.eqb acc "" then "" else " | " +:+ acc)) "" values.

(** Validation of one value; the issues of an object's fields are collected. *)
Fixpoint check (t : ZodType) (p : list string) (v : JsVal) : JsVal + list ZodIssue :=
  match t with
  | z_string =>
      match v with VStr _ => inl v | _ => mismatch p "string" v end
  | z_uuid =>
      match v with
      | VStr s => if is_uuid s then inl v else inr [mkIssue p "Invalid uuid"]
      | _ => mismatch p "string" v
      end
  | z_number =>
      match v with VNum _ => inl v | _ => mismatch p "number" v end
  | z_enum values =>
      match v with
      | VStr s =>
          if existsb (String.eqb s) values then inl v
          else inr [mkIssue p ("Invalid enum value. Expected " +:+ enum_text values +:+
                               ", received '" +:+ s +:+ "'")]
      | _ => mismatch p (enum_text values) v
      end
  | z_array item =>
      match v with
      | VArr l =>
          match
            (fix each (i : nat) (l : list JsVal) : list JsVal * list ZodIssue :=
               match l with
               | [] => ([], [])
               | x :: l' =>
                   let '(vs, errs) := each (S i) l' in
                   match check item (p ++ [pretty i]) x with
                   | inl x' => (x' :: vs, errs)
                   | inr e => (vs, e ++ errs)
                   end
               end) 0%nat l
          with
          | (vs, []) => inl (VArr vs)
          | (_, errs) => inr errs
          end
      | _ => mismatch p "array" v
      end
  | z_optional t' =>
      match v with VUndef => inl VUndef | _ => check t' p v end
  | z_default t' d =>
      match v with VUndef => check t' p d | _ => check t' p v end
  | z_describe t' _ => check t' p v
  | z_object shape =>
      match v with
      | VObj fs =>
          match
            (fix members (shape : list (string * ZodType))
               : list (string * JsVal) * list ZodIssue :=
               match shape with
               | [] => ([], [])
               | (k, tk) :: shape' =>
                   let '(out, errs) := members shape' in
                   match check tk (p ++ [k]) (default VUndef (field_of k fs)) with
                   | inl VUndef =>
                       (if bool_decide (is_Some (field_of k fs))
                        then (k, VUndef) :: out else out, errs)
                   | inl x => ((k, x) :: out, errs)
                   | inr e => (out, e ++ errs)
                   end
               end) shape
          with
          | (out, []) => inl (VObj out)
          | (_, errs) => inr errs
          end
      | _ => mismatch p "object" v
      end
  end.

Definition issue_json (i : ZodIssue) : JsVal :=
  VObj [("path", VArr (VStr <$> path i)); ("message", VStr (message i))].

(** A [ZodError]; its message is the JSON text of the issue list (zod
    indents that text and adds a code to each issue, which is left out). *)
Definition ZodError (issues : list ZodIssue) : JsError :=
  mkError "ZodError" (JSON.stringify_text (VArr (issue_json <$> issues))).

(** [schema.parse(raw)]: unknown keys are stripped, defaults filled in. *)
Definition parse (t : ZodType) (raw : JsVal) : Outcome JsVal :=
  match check t [] raw with
  | inl v => Return v
  | inr issues => Throw (ZodError issues)
  end.

End Zod.
Export Zod.

(** *** types/tools.ts *)

Definition SearchCoursesSchema : ZodType :=
  z_object
    [("region",
      z_describe (z_optional z_string)
                 ("Region to search (e.g., " +:+ JSON.dquote +:+ "Southwest Ireland" +:+
                  JSON.dquote +:+ ")"));
     ("course_type", z_optional (z_enum ["links"; "parkland"; "resort"; "heathland"]));
     ("min_price_cents", z_describe (z_optional z_number) "Minimum price in cents");
     ("max_price_cents", z_describe (z_optional z_number) "Maximum price in cents");
     ("limit", z_describe (z_default z_number (VNum 20)) "Maximum number of results")].

Definition GetCourseDetailsSchema : ZodType :=
  z_object [("course_id", z_describe z_uuid "UUID of the golf course")].

Definition GetRecommendedCoursesSchema : ZodType :=
  z_object
    [("region", z_describe z_string "Target region");
     ("budget_tier", z_describe (z_enum ["budget"; "standard"; "luxury"]) "Budget category");
     ("limit", z_describe (z_default z_number (VNum 10)) "Maximum number of results")].

Definition SearchAccommodationsSchema : ZodType :=
  z_object
    [("region", z_describe (z_optional z_string) "Region to search");
     ("near_course_id", z_describe (z_optional z_uuid) "Find hotels near this course");
     ("min_price_cents", z_optional z_number);
     ("max_price_cents", z_optional z_number);
     ("amenities", z_describe (z_optional (z_array z_string)) "Required amenities");
     ("limit", z_default z_number (VNum 20))].

Definition GetAccommodationDetailsSchema : ZodType :=
  z_object [("accommodation_id", z_describe z_uuid "UUID of the accommodation")].

Definition GetSupplierRatesSchema : ZodType :=
  z_object
    [("operator_id", z_describe z_uuid "UUID of the tour operator");
     ("supplier_type",
      z_optional (z_enum ["golf_course"; "accommodation"; "transport"; "any"]))].

Definition HasNegotiatedRateSchema : ZodType :=
  z_object
    [("operator_id", z_uuid);
     ("supplier_id", z_describe z_uuid "UUID of course or hotel")].

(** The uniform result envelope. *)
Record ToolResult : Type := mkResult {
  success : bool;
  data : option JsVal;
  error : option string;
  metadata : option (list (string * JsVal))
}.

(** ** The process and its collaborators *)

(** config/environment.ts: the four values LOG_LEVEL may take. *)
Inductive LogLevel : Type :=
| LogError
| LogWarn
| LogInfo
| LogDebug.

(** config/environment.ts: the validated environment. *)
Record Environment : Type := mkEnv {
  NODE_ENV : string;
  LOG_LEVEL : LogLevel;        (* z.enum(['error', 'warn', 'info', 'debug']) *)
  SUPABASE_URL : string;
  MCP_API_KEY : option string;
  REDIS_URL : option string;
  ENABLE_CACHE : bool;
  CACHE_TTL_SECONDS : Z
}.

(** [!s] for an optional string setting: unset or empty. *)
Definition unset (s : option string) : bool :=
  match s with
  | None => true
  | Some t => String.eqb t ""
  end.

(** One line written by the winston logger. *)
Record LogEntry : Type := mkLog {
  level : string;
  text : string;
  meta : list (string * JsVal)
}.

(** *** The Redis server *)

(** A stored string: the JSON text of a value, or text that is not JSON. *)
Inductive RedisText : Type :=
| JsonText (v : JsVal)
| OtherText (s : string).

Record RedisServer : Type := mkRedis {
  reachable : bool;
  entries : gmap string (Z * RedisText)       (* key -> (ttl seconds, text) *)
}.

(** *** The Supabase record store *)

Definition Row : Type := list (string * JsVal).

Inductive FilterOp : Type := Eq_ | Ilike | Gte | Lte.

Record Filter : Type := mkFilter { op : FilterOp; column : string; operand : JsVal }.

(** What the query builder has accumulated when it is awaited. *)
Record Query : Type := mkQuery {
  q_table : string;
  q_columns : list string;
  q_filters : list Filter;
  q_order : option (string * bool);            (* column, ascending *)
  q_limit : option JsVal;
  q_single : bool
}.

Record Supabase : Type := mkSupabase {
  tables : list (string * list Row);
  outage : option string     (* when set, every request fails with this message *)
}.

(** The [{ data, error }] pair a request resolves to. *)
Record PostgrestResult : Type := mkReply {
  reply_data : JsVal;
  reply_error : option string
}.

Inductive IoEvent : Type :=
| RedisGet (key : string)
| RedisSetex (key : string) (ttl : Z) (value : RedisText)
| SupabaseRequest (q : Query).

Record World : Type := mkWorld {
  env : Environment;
  redisClient : bool;          (* cache.ts singleton: created or still null *)
  supabaseClient : bool;       (* database.ts singleton *)
  redis : RedisServer;
  supabase : Supabase;
  clock : nat -> Z;            (* the successive readings of Date.now() *)
  ticks : nat;                 (* how many readings were taken *)
  log : list LogEntry;
  io : list IoEvent            (* requests sent to Redis and Supabase, oldest first *)
}.

Definition with_redisClient (b : bool) (w : World) : World :=
  mkWorld (env w) b (supabaseClient w) (redis w) (supabase w) (clock w) (ticks w)
          (log w) (io w).
Definition with_supabaseClient (b : bool) (w : World) : World :=
  mkWorld (env w) (redisClient w) b (redis w) (supabase w) (clock w) (ticks w)
          (log w) (io w).
Definition with_redis (r : RedisServer) (w : World) : World :=
  mkWorld (env w) (redisClient w) (supabaseClient w) r (supabase w) (clock w) (ticks w)
          (log w) (io w).
Definition with_ticks (n : nat) (w : World) : World :=
  mkWorld (env w) (redisClient w) (supabaseClient w) (redis w) (supabase w) (clock w) n
          (log w) (io w).
Definition with_log (l : list LogEntry) (w : World) : World :=
  mkWorld (env w) (redisClient w) (supabaseClient w) (redis w) (supabase w) (clock w)
          (ticks w) l (io w).
Definition with_io (l : list IoEvent) (w : World) : World :=
  mkWorld (env w) (redisClient w) (supabaseClient w) (redis w) (supabase w) (clock w)
          (ticks w) (log w) l.

(** *** Effectful code: state over [World] with exceptions *)

Definition M (A : Type) : Type := World -> Outcome A * World.

#[global] Instance M_ret : MRet M := fun A a w => (Return a, w).
#[global] Instance M_bind : MBind M := fun A B k m w =>
  match m w with
  | (Return a, w') => k a w'
  | (Throw e, w') => (Throw e, w')
  end.

Definition throw {A : Type} (e : JsError) : M A := fun w => (Throw e, w).

(** A pure expression that may throw. *)
Definition lift {A : Type} (o : Outcome A) : M A := fun w => (o, w).

(** [try { body } catch (error) { handler }] *)
Definition try_catch {A : Type} (body : M A) (handler : JsError -> M A) : M A :=
  fun w =>
    match body w with
    | (Return a, w') => (Return a, w')
    | (Throw e, w') => handler e w'
    end.

Definition Date_now : M Z :=
  fun w => (Return (clock w (ticks w)), with_ticks (S (ticks w)) w).

(** *** utils/logger.ts

    The logger is created with [level: env.LOG_LEVEL]: winston writes a line
    when the priority of its level is no greater than that of the configured
    one, and drops it otherwise. *)

(** winston's npm levels, by priority: a lower number is more urgent. *)
Definition npm_levels : list (string * Z) :=
  [("error", 0); ("warn", 1); ("info", 2); ("http", 3); ("verbose", 4); ("debug", 5);
   ("silly", 6)].

Definition level_name (l : LogLevel) : string :=
  match l with
  | LogError => "error"
  | LogWarn => "warn"
  | LogInfo => "info"
  | LogDebug => "debug"
  end.

Definition priority (l : LogLevel) : Z :=
  default 0 (field_of (level_name l) npm_levels).

(** A line of level [lvl] passes the configured level. *)
Definition written (e : Environment) (lvl : string) : bool :=
  match field_of lvl npm_levels with
  | Some p => p <=? priority (LOG_LEVEL e)
  | None => false
  end.

(** [logger.error], [logger.warn] and [logger.info], by the name of the
    level. *)
Definition logger (lvl msg : string) (m : list (string * JsVal)) : M unit :=
  fun w =>
    if written (env w) lvl
    then (Return tt, with_log (log w ++ [mkLog lvl msg m]) w)
    else (Return tt, w).

Definition error_json (e : JsError) : JsVal :=
  VObj [("name", VStr (ename e)); ("message", VStr (emessage e))].

(** *** utils/cache.ts *)

Definition getRedisClient : M bool :=
  fun w =>
    if negb (ENABLE_CACHE (env w)) || unset (REDIS_URL (env w)) then (Return false, w)
    else if redisClient w then (Return true, w)
    else (Return true, with_redisClient true w).

Definition max_retries : JsError :=
  mkError "MaxRetriesPerRequestError"
          "Reached the max retries per request limit (which is 3).".

(** [redis.get(key)]: the stored text, [None] for a missing key; rejects when
    the server cannot be reached. *)
Definition redis_get (key : string) : M (option RedisText) :=
  fun w =>
    let w' := with_io (io w ++ [RedisGet key]) w in
    if reachable (redis w) then (Return (snd <$> entries (redis w) !! key), w')
    else (Throw max_retries, w').

(** The server's reply to SETEX with a time to live that is not positive. *)
Definition invalid_expire : JsError :=
  mkError "ReplyError" "ERR invalid expire time in 'setex' command".

(** [redis.setex(key, ttl, text)]: rejects when the server cannot be reached,
    and when the server refuses the time to live; nothing is stored then. *)
Definition redis_setex (key : string) (ttl : Z) (t : RedisText) : M unit :=
  fun w =>
    let w' := with_io (io w ++ [RedisSetex key ttl t]) w in
    if reachable (redis w)
    then
      if ttl <=? 0 then (Throw invalid_expire, w')
      else (Return tt,
            with_redis (mkRedis true (<[key := (ttl, t)]> (entries (redis w)))) w')
    else (Throw max_retries, w').

Definition is_empty_text (t : RedisText) : bool :=
  match t with
  | OtherText s => String.eqb s ""
  | JsonText _ => false
  end.

Definition JSON_parse (t : RedisText) : Outcome JsVal :=
  match t with
  | JsonText v => Return (JSON.roundtrip v)
  | OtherText s => Throw (SyntaxError ("Unexpected token in JSON: " +:+ s))
  end.

(** The text [JSON.stringify(value)] hands to Redis; for [undefined], which
    no handler passes, that is no text at all. *)
Definition JSON_text (value : JsVal) : RedisText :=
  match value with
  | VUndef => OtherText ""
  | _ => JsonText value
  end.

Definition getCached (key : string) : M JsVal :=
  client ← getRedisClient;
  if negb client then mret VNull
  else
    try_catch
      (value ← redis_get key;
       match value with
       | None => mret VNull
       | Some t => if is_empty_text t then mret VNull else lift (JSON_parse t)
       end)
      (fun error =>
         logger "warn" "Cache get failed" [("key", VStr key); ("error", error_json error)];;
         mret VNull).

Definition setCached (key : string) (value : JsVal) (ttlSeconds : option Z) : M unit :=
  fun w =>
    let ttl := default (CACHE_TTL_SECONDS (env w)) ttlSeconds in
    (client ← getRedisClient;
     if negb client then mret tt
     else
       try_catch
         (redis_setex key ttl (JSON_text value))
         (fun error =>
            logger "warn" "Cache set failed"
                   [("key", VStr key); ("error", error_json error)])) w.

(** *** The record store's answer to a query *)

Module Postgres.

Definition lower (c : ascii) : ascii :=
  let n := nat_of_ascii c in
  if ((65 <=? n) && (n <=? 90))%nat then ascii_of_nat (n + 32) else c.

Definition is_any (c : ascii) : bool := Ascii.eqb c "%" || Ascii.eqb c "*".
Definition is_one (c : ascii) : bool := Ascii.eqb c "_".
Definition is_escape (c : ascii) : bool := Ascii.eqb c "\".

(** [LIKE]: a percent sign (or the asterisk the REST layer accepts for it)
    matches any run of characters, an underscore any one character, and a
    backslash takes the next pattern character literally. *)
Fixpoint like (p : list ascii) : list ascii -> bool :=
  match p with
  | [] => fun s => match s with [] => true | _ => false end
  | c :: p' =>
      if is_any c then
        fix skip (s : list ascii) : bool :=
          like p' s || match s with [] => false | _ :: s' => skip s' end
      else if is_one c then
        fun s => match s with [] => false | _ :: s' => like p' s' end
      else if is_escape c then
        match p' with
        | [] => fun _ => false
        | d :: p'' =>
            fun s => match s with [] => false | x :: s' => Ascii.eqb d x && like p'' s' end
        end
      else
        fun s => match s with [] => false | x :: s' => Ascii.eqb c x && like p' s' end
  end.

(** [ILIKE]: [LIKE] with the case of letters ignored. *)
Definition ilike (pattern s : string) : bool :=
  like (lower <$> list_ascii_of_string pattern) (lower <$> list_ascii_of_string s).

(** A filter on a row; a NULL (or missing) column satisfies no filter. *)
Definition holds (f : Filter) (r : Row) : bool :=
  match op f, default VNull (field_of (column f) r), operand f with
  | Eq_, VNull, _ => false
  | Eq_, x, v => Js.eqb x v
  | Ilike, VStr s, VStr p => ilike p s
  | Gte, VNum x, VNum v => v <=? x
  | Lte, VNum x, VNum v => x <=? v
  | _, _, _ => false
  end.

(** Ordering is by a numeric column; NULL sorts as larger than any number. *)
Definition order_key (col : string) (r : Row) : option Z :=
  match field_of col r with
  | Some (VNum n) => Some n
  | _ => None
  end.

Definition key_le (a b : option Z) : bool :=
  match a, b with
  | _, None => true
  | None, Some _ => false
  | Some x, Some y => x <=? y
  end.

Definition before (col : string) (ascending : bool) (r1 r2 : Row) : Prop :=
  Is_true (if ascending then key_le (order_key col r1) (order_key col r2)
           else key_le (order_key col r2) (order_key col r1)).

#[global] Instance before_dec col asc : RelDecision (before col asc).
Proof. intros r1 r2. unfold before. apply _. Defined.

Definition ordered (o : option (string * bool)) (rows : list Row) : list Row :=
  match o with
  | None => rows
  | Some (col, asc) => merge_sort (before col asc) rows
  end.

Definition project (cols : list string) (r : Row) : Row :=
  if bool_decide (cols = ["*"]) then r
  else omap (fun c => (fun v => (c, v)) <$> field_of c r) cols.

Definition range_error : string := "Requested range not satisfiable".
Definition single_error : string :=
  "JSON object requested, multiple (or no) rows returned".

(** Filters, then ordering, then the limit, then the column list. *)
Definition run (db : Supabase) (q : Query) : PostgrestResult :=
  match outage db with
  | Some m => mkReply VNull (Some m)
  | None =>
      match field_of (q_table q) (tables db) with
      | None => mkReply VNull (Some ("relation public." +:+ q_table q +:+ " does not exist"))
      | Some rows =>
          let matching := filter (fun r => forallb (fun f => holds f r) (q_filters q)) rows in
          let sorted := ordered (q_order q) matching in
          let limited :=
            match q_limit q with
            | None => Some sorted
            | Some (VNum n) => if 0 <=? n then Some (take (Z.to_nat n) sorted) else None
            | Some _ => None
            end in
          match limited with
          | None => mkReply VNull (Some range_error)
          | Some rs =>
              let out := project (q_columns q) <$> rs in
              if q_single q then
                match out with
                | [r] => mkReply (VObj r) None
                | _ => mkReply VNull (Some single_error)
                end
              else mkReply (VArr (VObj <$> out)) None
          end
      end
  end.

End Postgres.

(** *** utils/database.ts and the supabase-js query builder *)

Definition getSupabaseClient : M unit :=
  fun w =>
    if supabaseClient w then (Return tt, w)
    else
      match logger "info" "Initializing Supabase client"
                   [("url", VStr (SUPABASE_URL (env w)))] w with
      | (_, w') => (Return tt, with_supabaseClient true w')
      end.

Module Supa.

Definition from (table : string) : Query := mkQuery table ["*"] [] None None false.

Definition select (cols : list string) (q : Query) : Query :=
  mkQuery (q_table q) cols (q_filters q) (q_order q) (q_limit q) (q_single q).

Definition add_filter (f : Filter) (q : Query) : Query :=
  mkQuery (q_table q) (q_columns q) (q_filters q ++ [f]) (q_order q) (q_limit q) (q_single q).

Definition eq (col : string) (v : JsVal) : Query -> Query := add_filter (mkFilter Eq_ col v).
Definition ilike (col pattern : string) : Query -> Query :=
  add_filter (mkFilter Ilike col (VStr pattern)).
Definition gte (col : string) (v : JsVal) : Query -> Query := add_filter (mkFilter Gte col v).
Definition lte (col : string) (v : JsVal) : Query -> Query := add_filter (mkFilter Lte col v).

Definition limit (count : JsVal) (q : Query) : Query :=
  mkQuery (q_table q) (q_columns q) (q_filters q) (q_order q) (Some count) (q_single q).

Definition order (col : string) (ascending : bool) (q : Query) : Query :=
  mkQuery (q_table q) (q_columns q) (q_filters q) (Some (col, ascending)) (q_limit q)
          (q_single q).

Definition single (q : Query) : Query :=
  mkQuery (q_table q) (q_columns q) (q_filters q) (q_order q) (q_limit q) true.

(** [await query]: the request goes out and resolves to [{ data, error }]. *)
Definition await (q : Query) : M PostgrestResult :=
  fun w => (Return (Postgres.run (supabase w) q), with_io (io w ++ [SupabaseRequest q]) w).

End Supa.

Notation "q '|>' f" := (f q) (at level 45, left associativity, only parsing).

Definition pg_error_json (message : string) : JsVal := VObj [("message", VStr message)].

(** The four result shapes the handlers build. *)
Definition cache_hit (cached : JsVal) : ToolResult :=
  mkResult true (Some cached) None (Some [("cached", VBool true)]).
Definition failure (message : string) : ToolResult :=
  mkResult false None (Some message) None.
Definition count_of (data : JsVal) : JsVal := Js.or (prop_opt data "length") (VNum 0).

(** ** tools/courses.ts *)

Definition searchCourses (params : JsVal) : M ToolResult :=
  startTime ← Date_now;
  try_catch
    (let cacheKey := "courses:search:" +:+ JSON.stringify_text params in
     cached ← getCached cacheKey;
     if truthy cached then
       logger "info" "Cache hit for searchCourses" [("params", params)];;
       mret (cache_hit cached)
     else
       getSupabaseClient;;
       let query :=
         Supa.from "golf_courses"
         |> Supa.select ["id"; "name"; "region"; "course_type"; "rating";
                         "difficulty_level"; "green_fee_standard_cents"; "description";
                         "location"; "features"; "created_at"] in
       region ← lift (prop params "region");
       let query :=
         if truthy region
         then query |> Supa.ilike "region" ("%" +:+ toString region +:+ "%")
         else query in
       course_type ← lift (prop params "course_type");
       let query :=
         if truthy course_type then query |> Supa.eq "course_type" course_type else query in
       min_price_cents ← lift (prop params "min_price_cents");
       let query :=
         if truthy min_price_cents
         then query |> Supa.gte "green_fee_standard_cents" min_price_cents
         else query in
       max_price_cents ← lift (prop params "max_price_cents");
       let query :=
         if truthy max_price_cents
         then query |> Supa.lte "green_fee_standard_cents" max_price_cents
         else query in
       limit ← lift (prop params "limit");
       let query := query |> Supa.limit (Js.or limit (VNum 20)) in
       let query := query |> Supa.order "rating" false in
       reply ← Supa.await query;
       match reply_error reply with
       | Some message =>
           logger "error" "searchCourses failed"
                  [("error", pg_error_json message); ("params", params)];;
           mret (failure ("Database error: " +:+ message))
       | None =>
           let data := reply_data reply in
           setCached cacheKey data None;;
           now ← Date_now;
           let duration := now - startTime in
           logger "info" "searchCourses completed"
                  [("params", params); ("results_count", count_of data);
                   ("duration_ms", VNum duration)];;
           mret (mkResult true (Some (Js.or data (VArr []))) None
                          (Some [("count", count_of data); ("duration_ms", VNum duration)]))
       end)
    (fun error =>
       logger "error" "searchCourses exception"
              [("error", error_json error); ("params", params)];;
       mret (failure (emessage error))).

Definition getCourseDetails (params : JsVal) : M ToolResult :=
  startTime ← Date_now;
  try_catch
    (course_id ← lift (prop params "course_id");
     let cacheKey := "course:details:" +:+ toString course_id in
     cached ← getCached cacheKey;
     if truthy cached then mret (cache_hit cached)
     else
       getSupabaseClient;;
       reply ← Supa.await (Supa.from "golf_courses"
                           |> Supa.select ["*"]
                           |> Supa.eq "id" course_id
                           |> Supa.single);
       match reply_error reply with
       | Some message =>
           logger "error" "getCourseDetails failed"
                  [("error", pg_error_json message); ("params", params)];;
           mret (failure ("Course not found or database error: " +:+ message))
       | None =>
           let data := reply_data reply in
           setCached cacheKey data None;;
           now ← Date_now;
           let duration := now - startTime in
           logger "info" "getCourseDetails completed"
                  [("course_id", course_id); ("duration_ms", VNum duration)];;
           mret (mkResult true (Some data) None (Some [("duration_ms", VNum duration)]))
       end)
    (fun error =>
       logger "error" "getCourseDetails exception"
              [("error", error_json error); ("params", params)];;
       mret (failure (emessage error))).

(** Budget tier price ranges (in cents). *)
Definition priceRanges : JsVal :=
  VObj [("budget", VObj [("max", VNum 15000)]);
        ("standard", VObj [("min", VNum 15000); ("max", VNum 35000)]);
        ("luxury", VObj [("min", VNum 35000)])].

Definition getRecommendedCourses (params : JsVal) : M ToolResult :=
  startTime ← Date_now;
  try_catch
    (let cacheKey := "courses:recommended:" +:+ JSON.stringify_text params in
     cached ← getCached cacheKey;
     if truthy cached then mret (cache_hit cached)
     else
       budget_tier ← lift (prop params "budget_tier");
       range ← lift (prop priceRanges (toString budget_tier));
       getSupabaseClient;;
       region ← lift (prop params "region");
       limit ← lift (prop params "limit");
       let query :=
         Supa.from "golf_courses"
         |> Supa.select ["id"; "name"; "region"; "course_type"; "rating";
                         "difficulty_level"; "green_fee_standard_cents"; "description";
                         "features"]
         |> Supa.ilike "region" ("%" +:+ toString region +:+ "%")
         |> Supa.order "rating" false
         |> Supa.limit (Js.or limit (VNum 10)) in
       has_min ← lift (has_key "min" range);
       let query :=
         if has_min && negb (Js.eqb (prop_opt range "min") VUndef)
         then query |> Supa.gte "green_fee_standard_cents" (prop_opt range "min")
         else query in
       has_max ← lift (has_key "max" range);
       let query :=
         if has_max && negb (Js.eqb (prop_opt range "max") VUndef)
         then query |> Supa.lte "green_fee_standard_cents" (prop_opt range "max")
         else query in
       reply ← Supa.await query;
       match reply_error reply with
       | Some message =>
           logger "error" "getRecommendedCourses failed"
                  [("error", pg_error_json message); ("params", params)];;
           mret (failure ("Database error: " +:+ message))
       | None =>
           let data := reply_data reply in
           setCached cacheKey data None;;
           now ← Date_now;
           let duration := now - startTime in
           logger "info" "getRecommendedCourses completed"
                  [("params", params); ("results_count", count_of data);
                   ("duration_ms", VNum duration)];;
           mret (mkResult true (Some (Js.or data (VArr []))) None
                          (Some [("count", count_of data); ("budget_tier", budget_tier);
                                 ("duration_ms", VNum duration)]))
       end)
    (fun error =>
       logger "error" "getRecommendedCourses exception"
              [("error", error_json error); ("params", params)];;
       mret (failure (emessage error))).

Definition findCourseByName (courseName : JsVal) : M ToolResult :=
  startTime ← Date_now;
  try_catch
    (getSupabaseClient;;
     reply ← Supa.await (Supa.from "golf_courses"
                         |> Supa.select ["id"; "name"; "region"; "course_type";
                                         "green_fee_standard_cents"]
                         |> Supa.ilike "name" ("%" +:+ toString courseName +:+ "%")
                         |> Supa.limit (VNum 10));
     match reply_error reply with
     | Some message => mret (failure ("Database error: " +:+ message))
     | None =>
         let data := reply_data reply in
         now ← Date_now;
         let duration := now - startTime in
         logger "info" "findCourseByName completed"
                [("search_term", courseName); ("results_count", count_of data);
                 ("duration_ms", VNum duration)];;
         mret (mkResult true (Some (Js.or data (VArr []))) None
                        (Some [("count", count_of data); ("duration_ms", VNum duration)]))
     end)
    (fun error =>
       logger "error" "findCourseByName exception"
              [("error", error_json error); ("courseName", courseName)];;
       mret (failure (emessage error))).

(** ** tools/accommodations.ts *)

Definition searchAccommodations (params : JsVal) : M ToolResult :=
  startTime ← Date_now;
  try_catch
    (let cacheKey := "accommodations:search:" +:+ JSON.stringify_text params in
     cached ← getCached cacheKey;
     if truthy cached then mret (cache_hit cached)
     else
       getSupabaseClient;;
       let query :=
         Supa.from "accommodations"
         |> Supa.select ["id"; "name"; "type"; "region"; "rating"; "standard_rate_cents";
                         "description"; "amenities"; "location"] in
       region ← lift (prop params "region");
       let query :=
         if truthy region
         then query |> Supa.ilike "region" ("%" +:+ toString region +:+ "%")
         else query in
       min_price_cents ← lift (prop params "min_price_cents");
       let query :=
         if truthy min_price_cents
         then query |> Supa.gte "standard_rate_cents" min_price_cents
         else query in
       max_price_cents ← lift (prop params "max_price_cents");
       let query :=
         if truthy max_price_cents
         then query |> Supa.lte "standard_rate_cents" max_price_cents
         else query in
       limit ← lift (prop params "limit");
       let query := query |> Supa.limit (Js.or limit (VNum 20)) in
       let query := query |> Supa.order "rating" false in
       reply ← Supa.await query;
       match reply_error reply with
       | Some message =>
           logger "error" "searchAccommodations failed"
                  [("error", pg_error_json message); ("params", params)];;
           mret (failure ("Database error: " +:+ message))
       | None =>
           let data := reply_data reply in
           setCached cacheKey data None;;
           now ← Date_now;
           let duration := now - startTime in
           logger "info" "searchAccommodations completed"
                  [("params", params); ("results_count", count_of data);
                   ("duration_ms", VNum duration)];;
           mret (mkResult true (Some (Js.or data (VArr []))) None
                          (Some [("count", count_of data); ("duration_ms", VNum duration)]))
       end)
    (fun error =>
       logger "error" "searchAccommodations exception"
              [("error", error_json error); ("params", params)];;
       mret (failure (emessage error))).

Definition getAccommodationDetails (params : JsVal) : M ToolResult :=
  startTime ← Date_now;
  try_catch
    (accommodation_id ← lift (prop params "accommodation_id");
     let cacheKey := "accommodation:details:" +:+ toString accommodation_id in
     cached ← getCached cacheKey;
     if truthy cached then mret (cache_hit cached)
     else
       getSupabaseClient;;
       reply ← Supa.await (Supa.from "accommodations"
                           |> Supa.select ["*"]
                           |> Supa.eq "id" accommodation_id
                           |> Supa.single);
       match reply_error reply with
       | Some message =>
           logger "error" "getAccommodationDetails failed"
                  [("error", pg_error_json message); ("params", params)];;
           mret (failure ("Accommodation not found or database error: " +:+ message))
       | None =>
           let data := reply_data reply in
           setCached cacheKey data None;;
           now ← Date_now;
           let duration := now - startTime in
           mret (mkResult true (Some data) None (Some [("duration_ms", VNum duration)]))
       end)
    (fun error =>
       logger "error" "getAccommodationDetails exception"
              [("error", error_json error); ("params", params)];;
       mret (failure (emessage error))).

Definition getGolfResorts (region : JsVal) : M ToolResult :=
  startTime ← Date_now;
  try_catch
    (let cacheKey := "resorts:" +:+ toString (Js.or region (VStr "all")) in
     cached ← getCached cacheKey;
     if truthy cached then mret (cache_hit cached)
     else
       getSupabaseClient;;
       let query :=
         Supa.from "accommodations"
         |> Supa.select ["*"]
         |> Supa.eq "is_golf_resort" (VBool true) in
       let query :=
         if truthy region
         then query |> Supa.ilike "region" ("%" +:+ toString region +:+ "%")
         else query in
       reply ← Supa.await query;
       match reply_error reply with
       | Some message => mret (failure ("Database error: " +:+ message))
       | None =>
           let data := reply_data reply in
           setCached cacheKey data None;;
           now ← Date_now;
           let duration := now - startTime in
           mret (mkResult true (Some (Js.or data (VArr []))) None
                          (Some [("count", count_of data); ("duration_ms", VNum duration)]))
       end)
    (fun error =>
       logger "error" "getGolfResorts exception" [("error", error_json error)];;
       mret (failure (emessage error))).

(** ** tools/rates.ts *)

Definition getSupplierRates (params : JsVal) : M ToolResult :=
  startTime ← Date_now;
  try_catch
    (operator_id ← lift (prop params "operator_id");
     supplier_type ← lift (prop params "supplier_type");
     let cacheKey :=
       "rates:" +:+ toString operator_id +:+ ":" +:+
       toString (Js.or supplier_type (VStr "all")) in
     cached ← getCached cacheKey;
     if truthy cached then mret (cache_hit cached)
     else
       getSupabaseClient;;
       let query :=
         Supa.from "operator_supplier_rates"
         |> Supa.select ["id"; "operator_id"; "supplier_id"; "supplier_type"; "rate_cents";
                         "discount_percentage"; "valid_from"; "valid_until"; "notes"]
         |> Supa.eq "operator_id" operator_id in
       let query :=
         if truthy supplier_type && negb (Js.eqb supplier_type (VStr "any"))
         then query |> Supa.eq "supplier_type" supplier_type
         else query in
       reply ← Supa.await query;
       match reply_error reply with
       | Some message =>
           logger "error" "getSupplierRates failed"
                  [("error", pg_error_json message); ("params", params)];;
           mret (failure ("Database error: " +:+ message))
       | None =>
           let data := reply_data reply in
           setCached cacheKey data (Some 600);;
           now ← Date_now;
           let duration := now - startTime in
           logger "info" "getSupplierRates completed"
                  [("operator_id", operator_id); ("rates_count", count_of data);
                   ("duration_ms", VNum duration)];;
           mret (mkResult true (Some (Js.or data (VArr []))) None
                          (Some [("count", count_of data); ("duration_ms", VNum duration)]))
       end)
    (fun error =>
       logger "error" "getSupplierRates exception"
              [("error", error_json error); ("params", params)];;
       mret (failure (emessage error))).

Definition hasNegotiatedRate (params : JsVal) : M ToolResult :=
  try_catch
    (getSupabaseClient;;
     operator_id ← lift (prop params "operator_id");
     supplier_id ← lift (prop params "supplier_id");
     reply ← Supa.await (Supa.from "operator_supplier_rates"
                         |> Supa.select ["id"; "rate_cents"; "discount_percentage"]
                         |> Supa.eq "operator_id" operator_id
                         |> Supa.eq "supplier_id" supplier_id
                         |> Supa.single);
     let data := reply_data reply in
     if bool_decide (is_Some (reply_error reply)) || negb (truthy data) then
       mret (mkResult true (Some (VObj [("has_rate", VBool false)])) None None)
     else
       mret (mkResult true
               (Some (VObj [("has_rate", VBool true);
                            ("rate_cents", prop_opt data "rate_cents");
                            ("discount_percentage", prop_opt data "discount_percentage")]))
               None None))
    (fun error =>
       logger "error" "hasNegotiatedRate exception"
              [("error", error_json error); ("params", params)];;
       mret (failure (emessage error))).

Definition getOperatorSuppliers (operatorId : JsVal) : M ToolResult :=
  try_catch
    (let cacheKey := "suppliers:" +:+ toString operatorId in
     cached ← getCached cacheKey;
     if truthy cached then mret (cache_hit cached)
     else
       getSupabaseClient;;
       reply ← Supa.await (Supa.from "operator_supplier_rates"
                           |> Supa.select ["supplier_id"; "supplier_type"; "rate_cents";
                                           "discount_percentage"]
                           |> Supa.eq "operator_id" operatorId);
       match reply_error reply with
       | Some message => mret (failure ("Database error: " +:+ message))
       | None =>
           let data := reply_data reply in
           setCached cacheKey data (Some 600);;
           mret (mkResult true (Some (Js.or data (VArr []))) None
                          (Some [("count", count_of data)]))
       end)
    (fun error =>
       logger "error" "getOperatorSuppliers exception"
              [("error", error_json error); ("operatorId", operatorId)];;
       mret (failure (emessage error))).

(** ** tools/index.ts: the tool registry *)

(** An [inputSchema] is a zod validator or, for three of the tools, a plain
    object literal. *)
Inductive InputSchema : Type :=
| ZodSchema (t : ZodType)
| PlainObject (o : JsVal).

Record ToolDefinition : Type := mkTool {
  name : string;
  description : string;
  inputSchema : InputSchema;
  execute : JsVal -> M ToolResult
}.

Definition tools : list ToolDefinition :=
  [ mkTool "search_courses"
      "Search for golf courses by region, type, and price range. Returns a list of courses with basic information."
      (ZodSchema SearchCoursesSchema)
      searchCourses;
    mkTool "get_course_details"
      "Get comprehensive details about a specific golf course including pricing, features, and contact information."
      (ZodSchema GetCourseDetailsSchema)
      getCourseDetails;
    mkTool "get_recommended_courses"
      "Get AI-recommended courses for a region based on budget tier (budget/standard/luxury). Returns top-rated courses in price range."
      (ZodSchema GetRecommendedCoursesSchema)
      getRecommendedCourses;
    mkTool "find_course_by_name"
      "Find courses by name using fuzzy search. Useful when user mentions specific course names."
      (PlainObject (VObj [("courseName", VObj [("type", VStr "string")])]))
      (fun params => courseName ← lift (prop params "courseName"); findCourseByName courseName);
    mkTool "search_accommodations"
      "Search for hotels and accommodations by region, amenities, and price range."
      (ZodSchema SearchAccommodationsSchema)
      searchAccommodations;
    mkTool "get_accommodation_details"
      "Get detailed information about a specific accommodation including rooms, amenities, and rates."
      (ZodSchema GetAccommodationDetailsSchema)
      getAccommodationDetails;
    mkTool "get_golf_resorts"
      "Find golf resorts (accommodations with on-site golf courses) perfect for stay-and-play packages."
      (PlainObject (VObj [("region", VObj [("type", VStr "string"); ("optional", VBool true)])]))
      (fun params => getGolfResorts (prop_opt params "region"));
    mkTool "get_supplier_rates"
      "Get tour operator's negotiated rates with suppliers (courses, hotels, etc). Always check this for cost savings!"
      (ZodSchema GetSupplierRatesSchema)
      getSupplierRates;
    mkTool "has_negotiated_rate"
      "Quick check if operator has a special negotiated rate with a specific supplier."
      (ZodSchema HasNegotiatedRateSchema)
      hasNegotiatedRate;
    mkTool "get_operator_suppliers"
      "List all of an operator's supplier relationships and negotiated rates."
      (PlainObject (VObj [("operatorId", VObj [("type", VStr "string")])]))
      (fun params => operatorId ← lift (prop params "operatorId");
                     getOperatorSuppliers operatorId) ].

(** Get tool by name: [tools.find(t => t.name === name)] *)
Definition getTool (name' : string) : option ToolDefinition :=
  find (fun t => String.eqb (name t) name') tools.

(** One catalogue entry: [{ name, description, inputSchema }] *)
Record ToolListing : Type := mkListing {
  l_name : string;
  l_description : string;
  l_inputSchema : InputSchema
}.

(** List all available tools *)
Definition listTools : list ToolListing :=
  map (fun t => mkListing (name t) (description t) (inputSchema t)) tools.

(** ** utils/logger.ts *)

Definition logToolExecution (tool : string) (duration : Z) (ok : bool)
    (metadata' : list (string * JsVal)) : M unit :=
  logger "info" "Tool execution"
         ([("tool", VStr tool); ("duration_ms", VNum duration); ("success", VBool ok)]
          ++ metadata').

Definition logError (e : JsError) (context : list (string * JsVal)) : M unit :=
  logger "error" "Error occurred" (("error", error_json e) :: context).

(** ** server.ts *)

(** What the handlers read of an Express request. *)
Record Request : Type := mkRequest {
  authorization : option string;       (* req.headers.authorization *)
  toolName : string;                   (* req.params.toolName *)
  body : JsVal                         (* req.body *)
}.

Record HttpResponse : Type := mkResponse { status : Z; json : JsVal }.

(** A middleware either answers the request or calls [next()]. *)
Inductive Middleware : Type :=
| Responded (r : HttpResponse)
| Next.

(** Auth middleware for API routes (optional if MCP_API_KEY is set) *)
Definition authMiddleware (e : Environment) (req : Request) : Middleware :=
  if unset (MCP_API_KEY e) then Next
  else
    match authorization req with
    | None =>
        Responded (mkResponse 401
          (VObj [("error", VStr "Missing or invalid authorization header")]))
    | Some authHeader =>
        if negb (startsWith "Bearer " authHeader) then
          Responded (mkResponse 401
            (VObj [("error", VStr "Missing or invalid authorization header")]))
        else
          let token := substring_from 7 authHeader in
          if negb (bool_decide (Some token = MCP_API_KEY e)) then
            Responded (mkResponse 403 (VObj [("error", VStr "Invalid API key")]))
          else Next
    end.

(** [tool.inputSchema.parse(args)]: a plain object has no [parse] method. *)
Definition inputSchema_parse (s : InputSchema) (args : JsVal) : Outcome JsVal :=
  match s with
  | ZodSchema t => Zod.parse t args
  | PlainObject _ => Throw (TypeError "tool.inputSchema.parse is not a function")
  end.

(** The JSON a [ToolResult] serialises to: absent members are left out. *)
Definition ToolResult_json (r : ToolResult) : JsVal :=
  VObj ([("success", VBool (success r))]
        ++ from_option (fun d => [("data", d)]) [] (data r)
        ++ from_option (fun m => [("error", VStr m)]) [] (error r)
        ++ from_option (fun m => [("metadata", VObj m)]) [] (metadata r)).

Definition failure_json (message : string) : JsVal :=
  VObj [("success", VBool false); ("error", VStr message)].

(** The reply to a session-protocol tool call: one text item holding the JSON
    text of [payload], and the [isError] flag. *)
Record McpReply : Type := mkReply' { payload : JsVal; isError : bool }.

Definition keys_of (v : JsVal) : JsVal :=
  match v with
  | VObj fs => VArr (VStr ∘ fst <$> fs)
  | _ => VArr []
  end.

(** [mcpServer.setRequestHandler(CallToolRequestSchema, ...)] *)
Definition callTool (name' : string) (args : JsVal) : M McpReply :=
  startTime ← Date_now;
  try_catch
    (match getTool name' with
     | None => throw (Error ("Unknown tool: " +:+ name'))
     | Some tool =>
         validatedArgs ← lift (inputSchema_parse (inputSchema tool) args);
         result ← execute tool validatedArgs;
         now ← Date_now;
         let duration := now - startTime in
         logToolExecution name' duration (success result)
                          [("args_keys", keys_of (Js.or args (VObj [])))];;
         mret (mkReply' (ToolResult_json result) false)
     end)
    (fun error =>
       now ← Date_now;
       let duration := now - startTime in
       logToolExecution name' duration false [];;
       logError error [("tool", VStr name'); ("args", args)];;
       mret (mkReply' (failure_json (emessage error)) true)).

(** [app.post('/api/tools/:toolName', authMiddleware, async (req, res) => ...)]:
    the handler behind the middleware. *)
Definition invokeTool (req : Request) : M HttpResponse :=
  startTime ← Date_now;
  try_catch
    (match getTool (toolName req) with
     | None =>
         mret (mkResponse 404
                 (failure_json ("Tool '" +:+ toolName req +:+ "' not found")))
     | Some tool =>
         validatedArgs ← lift (inputSchema_parse (inputSchema tool) (body req));
         result ← execute tool validatedArgs;
         now ← Date_now;
         let duration := now - startTime in
         logToolExecution (toolName req) duration (success result) [];;
         mret (mkResponse 200 (ToolResult_json result))
     end)
    (fun error =>
       now ← Date_now;
       let duration := now - startTime in
       logToolExecution (toolName req) duration false [];;
       logError error [("tool", VStr (toolName req)); ("body", body req)];;
       mret (mkResponse 500 (failure_json (emessage error)))).

(** The route: the middleware runs first and the handler only after [next()]. *)
Definition post_api_tools (req : Request) : M HttpResponse :=
  fun w =>
    match authMiddleware (env w) req with
    | Responded r => (Return r, w)
    | Next => invokeTool req w
    end.

(** * Vocabulary of the statements *)

(** What a handler's answer can depend on besides the cache: the record
    store and the clock. *)
Definition backing (w : World) : Supabase * (nat -> Z) * nat :=
  (supabase w, clock w, ticks w).

(** What a call of the logger adds to the log: the line, when its level
    passes the configured one. *)
Definition logged (e : Environment) (l : LogEntry) : list LogEntry :=
  if written e (level l) then [l] else [].

(** The queries sent to the record store so far. *)
Definition sent (w : World) : list Query :=
  omap (fun e => match e with SupabaseRequest q => Some q | _ => None end) (io w).

(** The read-through lookup finds nothing, whatever the key. *)
Definition misses (w : World) : Prop :=
  forall key, (getCached key w).1 = Return VNull.

(** The cache is switched off in the environment. *)
Definition cache_disabled (w : World) : Prop :=
  ENABLE_CACHE (env w) = false \/ unset (REDIS_URL (env w)) = true.

(** The cache is configured but the server cannot be reached. *)
Definition cache_unreachable (w : World) : Prop :=
  ENABLE_CACHE (env w) = true /\ unset (REDIS_URL (env w)) = false /\
  reachable (redis w) = false.

(** [needle] occurs in [hay]. *)
Definition contains (needle hay : string) : Prop :=
  exists a b, hay = a +:+ needle +:+ b.

(** Weakest preconditions of a computation started in [w]. *)
Definition wp {A : Type} (m : M A) (w : World) (Q : Outcome A -> World -> Prop) : Prop :=
  Q (m w).1 (m w).2.

(** What the three opaque steps return and leave behind. *)
Definition getCached_val (key : string) (w : World) : JsVal :=
  match (getCached key w).1 with
  | Return v => v
  | Throw _ => VNull
  end.
Definition getCached_post (key : string) (w : World) : World := (getCached key w).2.
Definition setCached_post (key : string) (v : JsVal) (ttl : option Z) (w : World) : World :=
  (setCached key v ttl w).2.
Definition getSupabaseClient_post (w : World) : World := (getSupabaseClient w).2.

(** If the handler's run sent query [q] and the store answered it with an
    error, the result is a failure quoting the store's message. *)
Definition reports_store_error (w : World) (o : Outcome ToolResult) (w' : World) : Prop :=
  forall r q m,
    o = Return r ->
    sent w' = sent w ++ [q] ->
    reply_error (Postgres.run (supabase w) q) = Some m ->
    success r = false /\ exists e, error r = Some e /\ contains m e.

(** [hasNegotiatedRate] answers a store error with "no rate". *)
Definition no_rate : ToolResult :=
  mkResult true (Some (VObj [("has_rate", VBool false)])) None None.

(** The time between a handler's first and second reading of the clock. *)
Definition elapsed (w : World) : Z := clock w (S (ticks w)) - clock w (ticks w).

(** [metadata.duration_ms] of a result, when it is there. *)
Definition duration_ms (r : ToolResult) : option JsVal :=
  match metadata r with
  | Some md => field_of "duration_ms" md
  | None => None
  end.

(** The two handlers that never read the clock. *)
Definition timed (tool : string) : bool :=
  negb (String.eqb tool "has_negotiated_rate" || String.eqb tool "get_operator_suppliers").

(** The three shapes a handler's result takes, and what each says about time. *)
Definition timing_shape (is_timed : bool) (w : World) (r : ToolResult) : Prop :=
  (exists v, r = cache_hit v) \/
  (success r = false /\ metadata r = None) \/
  (success r = true /\
   duration_ms r = if is_timed then Some (VNum (elapsed w)) else None).

(** The arguments passed the validator the tool is registered with. *)
Definition validated_for (t : ToolDefinition) (args : JsVal) : Prop :=
  exists z raw, inputSchema t = ZodSchema z /\ Zod.parse z raw = Return args.

(** How the result of a tool's handler came about, and what it then says
    about time. *)
Inductive Timing (t : ToolDefinition) (args : JsVal) (w w' : World) (r : ToolResult)
  : Prop :=
| timing_hit (key : string) (v : JsVal) :
    (* served from the cache: the lookup found [v], no query was sent *)
    (getCached key w).1 = Return v -> truthy v = true ->
    sent w' = sent w ->
    r = cache_hit v ->
    duration_ms r = None ->
    Timing t args w w' r
| timing_store_error (q : Query) (m : string) :
    (* failed: the store replied an error to the query sent *)
    sent w' = sent w ++ [q] ->
    reply_error (Postgres.run (supabase w) q) = Some m ->
    success r = false -> metadata r = None ->
    Timing t args w w' r
| timing_thrown :
    (* failed: the handler threw before it asked the store, which arguments
       that passed the tool's validator never cause *)
    sent w' = sent w ->
    ~ validated_for t args ->
    success r = false -> metadata r = None ->
    Timing t args w w' r
| timing_computed (q : Query) :
    (* a success computed from the store's answer to the query sent *)
    sent w' = sent w ++ [q] ->
    success r = true ->
    (forall md, metadata r = Some md -> field_of "cached" md = None) ->
    duration_ms r = (if timed (name t) then Some (VNum (elapsed w)) else None) ->
    Timing t args w w' r.

(** A result in the shape of a cache hit holds what the cache held. *)
Definition hit_source (w : World) (o : Outcome ToolResult) (w' : World) : Prop :=
  forall r v, o = Return r -> r = cache_hit v ->
    exists key, (getCached key w).1 = Return v.

Definition timing_post (is_timed : bool) (w : World)
    (o : Outcome ToolResult) (w' : World) : Prop :=
  forall r, o = Return r -> timing_shape is_timed w r.

(** Two worlds with the same record store and the same clock. *)
Definition agree (w1 w2 : World) : Prop := backing w1 = backing w2.

(** ... in both of which the cache finds nothing. *)
Definition cold (w1 w2 : World) : Prop := agree w1 w2 /\ misses w1 /\ misses w2.

(** Started in related worlds, [m] gives the same outcome in both. *)
Definition sim {A : Type} (P : World -> World -> Prop) (m : M A) : Prop :=
  forall w1 w2, P w1 w2 -> (m w1).1 = (m w2).1 /\ agree (m w1).2 (m w2).2.

(** The computation returns normally. *)
Definition returns {A : Type} (o : Outcome A) (w' : World) : Prop :=
  exists a, o = Return a.

(** The three tools registered with a plain object for a schema. *)
Definition plain_schema_tools : list string :=
  ["find_course_by_name"; "get_golf_resorts"; "get_operator_suppliers"].

Definition not_a_function : string := "tool.inputSchema.parse is not a function".

(** The middleware answers with the given status and does not call next. *)
Definition rejected (st : Z) (e : Environment) (req : Request) : Prop :=
  exists b, authMiddleware e req = Responded (mkResponse st b).

(** The middleware calls next, and the route then answers what the handler
    answers and leaves what the handler leaves. *)
Definition admitted (e : Environment) (req : Request) : Prop :=
  authMiddleware e req = Next /\
  forall w, env w = e -> post_api_tools req w = invokeTool req w.

(** The registered names, in the order of the source. *)
Definition registered_names : list string :=
  ["search_courses"; "get_course_details"; "get_recommended_courses";
   "find_course_by_name"; "search_accommodations"; "get_accommodation_details";
   "get_golf_resorts"; "get_supplier_rates"; "has_negotiated_rate";
   "get_operator_suppliers"].

(** The three budget tiers. *)
Definition budget_tiers : list string := ["budget"; "standard"; "luxury"].

(** How a query treats the [limit] argument: absent or 0 gives the default. *)
Definition limit_rule (dflt : Z) (fs : list (string * JsVal)) (q : Query) : Prop :=
  (field_of "limit" fs = None \/ field_of "limit" fs = Some (VNum 0) ->
   q_limit q = Some (VNum dflt)) /\
  (forall n, n <> 0 -> field_of "limit" fs = Some (VNum n) -> q_limit q = Some (VNum n)).

(** How a query treats the price arguments: a bound of 0 adds no filter. *)
Definition price_rule (price_column : string) (fs : list (string * JsVal)) (q : Query)
  : Prop :=
  (field_of "min_price_cents" fs = Some (VNum 0) ->
   Forall (fun f => op f <> Gte) (q_filters q)) /\
  (field_of "max_price_cents" fs = Some (VNum 0) ->
   Forall (fun f => op f <> Lte) (q_filters q)) /\
  (forall n, n <> 0 -> field_of "min_price_cents" fs = Some (VNum n) ->
             In (mkFilter Gte price_column (VNum n)) (q_filters q)) /\
  (forall n, n <> 0 -> field_of "max_price_cents" fs = Some (VNum n) ->
             In (mkFilter Lte price_column (VNum n)) (q_filters q)).

(** The handler sends exactly one query, and it satisfies [P]. *)
Definition sends_one (P : Query -> Prop) (w : World)
    (o : Outcome ToolResult) (w' : World) : Prop :=
  exists q, sent w' = sent w ++ [q] /\ P q.

(** *** The recommendation rule in the words of the specification *)

Module Spec.

Definition lower_string (s : string) : list ascii :=
  Postgres.lower <$> list_ascii_of_string s.

Fixpoint is_prefix (p s : list ascii) : bool :=
  match p, s with
  | [], _ => true
  | c :: p', x :: s' => Ascii.eqb c x && is_prefix p' s'
  | _ :: _, [] => false
  end.

(** [p] occurs in [s] as a contiguous run of characters. *)
Fixpoint occurs (p s : list ascii) : bool :=
  is_prefix p s ||
  match s with
  | [] => false
  | _ :: s' => occurs p s'
  end.

(** The course's region matches the requested one case-insensitively as a
    substring. *)
Definition region_matches (requested region : string) : bool :=
  occurs (lower_string requested) (lower_string region).

(** budget: price <= 15000; standard: 15000 <= price <= 35000;
    luxury: price >= 35000. *)
Definition in_tier (tier : string) (price : Z) : bool :=
  if String.eqb tier "budget" then price <=? 15000
  else if String.eqb tier "standard" then (15000 <=? price) && (price <=? 35000)
  else if String.eqb tier "luxury" then 35000 <=? price
  else false.

Definition recommended (requested tier : string) (course : Row) : bool :=
  match field_of "region" course, field_of "green_fee_standard_cents" course with
  | Some (VStr region), Some (VNum price) =>
      region_matches requested region && in_tier tier price
  | _, _ => false
  end.

End Spec.

(** A character a LIKE pattern gives no special meaning to. *)
Definition ordinary (c : ascii) : bool :=
  negb (Postgres.is_any c || Postgres.is_one c || Postgres.is_escape c).

(** A region made of such characters only. *)
Definition literal (s : string) : bool := forallb ordinary (list_ascii_of_string s).

(** The limit a request asks for: 10 when it gives none or gives 0. *)
Definition requested_limit (fs : list (string * JsVal)) (lim : Z) : Prop :=
  (field_of "limit" fs = None /\ lim = 10) \/
  (field_of "limit" fs = Some (VNum 0) /\ lim = 10) \/
  (0 < lim /\ field_of "limit" fs = Some (VNum lim)).

(** The columns the recommendation query selects. *)
Definition recommended_columns : list string :=
  ["id"; "name"; "region"; "course_type"; "rating"; "difficulty_level";
   "green_fee_standard_cents"; "description"; "features"].

(** The rows the store returns for a recommendation request. *)
Definition recommended_rows (region tier : string) (lim : Z) (rows : list Row) : JsVal :=
  VArr (VObj <$> (Postgres.project recommended_columns <$>
          take (Z.to_nat lim)
               (merge_sort (Postgres.before "rating" false)
                  (filter (fun c => Spec.recommended region tier c) rows)))).

(** The recommendation lookup answers with the courses the rule selects,
    in descending order of rating, cut off after [lim] of them. *)
Definition selects (fs : list (string * JsVal)) (w : World)
    (region tier : string) (rows : list Row) (lim : Z) : Prop :=
  exists r w' sorted,
    getRecommendedCourses (VObj fs) w = (Return r, w') /\
    success r = true /\
    Permutation sorted (filter (fun c => Spec.recommended region tier c) rows) /\
    Sorted (Postgres.before "rating" false) sorted /\
    data r = Some (VArr (VObj <$> (Postgres.project recommended_columns <$>
                           take (Z.to_nat lim) sorted))).

(** ** A small deployment, used in the examples *)

Definition demo_key : string := "0123456789abcdef0123456789abcdef".

Definition demo_env : Environment :=
  mkEnv "production" LogInfo "https://demo.supabase.co" (Some demo_key)
        (Some "redis://cache:6379") true 300.

Definition demo_course (id region : string) (rating price : Z) : Row :=
  [("id", VStr id); ("name", VStr id); ("region", VStr region); ("rating", VNum rating);
   ("green_fee_standard_cents", VNum price)].

(** Ratings are in tenths of a star. *)
Definition demo_courses : list Row :=
  [demo_course "a" "Southwest Ireland" 45 15000;
   demo_course "b" "Dublin" 48 20000;
   demo_course "c" "West IRELAND" 50 9000;
   demo_course "d" "Scotland" 40 35000].

Definition demo_clock (n : nat) : Z := 1000 + 5 * Z.of_nat n.

(** The store answers and the cache is live and empty. *)
Definition demo_world : World :=
  mkWorld demo_env false false (mkRedis true ∅)
          (mkSupabase [("golf_courses", demo_courses)] None) demo_clock 0 [] [].

Definition demo_search : JsVal := VObj [("region", VStr "ireland"); ("limit", VNum 20)].

Definition demo_failing_store : Supabase :=
  mkSupabase [("golf_courses", demo_courses)] (Some "connection refused").

(** The store fails; the cache is switched off. *)
Definition demo_outage : World :=
  mkWorld (mkEnv "production" LogInfo "https://demo.supabase.co" (Some demo_key)
                 (Some "redis://cache:6379") false 300)
          false false (mkRedis true ∅) demo_failing_store demo_clock 0 [] [].

(** The store answers, the cache is live and empty, and only errors are
    logged. *)
Definition demo_silent : World :=
  mkWorld (mkEnv "production" LogError "https://demo.supabase.co" (Some demo_key)
                 (Some "redis://cache:6379") true 300)
          false false (mkRedis true ∅)
          (mkSupabase [("golf_courses", demo_courses)] None) demo_clock 0 [] [].

(** The store fails; the cache is live and holds nothing. *)
Definition demo_cold : World :=
  mkWorld demo_env false false (mkRedis true ∅) demo_failing_store demo_clock 0 [] [].

(** The store answers; the cache is switched on but its server cannot be
    reached. *)
Definition demo_unreachable : World :=
  mkWorld demo_env false false (mkRedis false ∅)
          (mkSupabase [("golf_courses", demo_courses)] None) demo_clock 0 [] [].

(** The store fails; the cache is live and holds an earlier answer to
    [demo_search]. *)
Definition demo_cached : World :=
  mkWorld demo_env false false
          (mkRedis true
             {[ "courses:search:" +:+ JSON.stringify_text demo_search :=
                  (300, JsonText (VArr [VObj (demo_course "c" "West IRELAND" 50 9000)])) ]})
          demo_failing_store demo_clock 0 [] [].

Definition search_courses_tool : ToolDefinition :=
  mkTool "search_courses"
    "Search for golf courses by region, type, and price range. Returns a list of courses with basic information."
    (ZodSchema SearchCoursesSchema)
    searchCourses.

Definition has_negotiated_rate_tool : ToolDefinition :=
  mkTool "has_negotiated_rate"
    "Quick check if operator has a special negotiated rate with a specific supplier."
    (ZodSchema HasNegotiatedRateSchema)
    hasNegotiatedRate.

Definition demo_rate_args : JsVal :=
  VObj [("operator_id", VStr "3e9dbbd1-5b80-4619-a80c-3ecd4a7be8f1");
        ("supplier_id", VStr "7c9e6679-7425-40de-944b-e07fc1f90ae7")].

(** Three recommendation requests: an ordinary one, one with a limit of 0
    and one whose region is a single underscore. *)
Definition demo_recommend : list (string * JsVal) :=
  [("region", VStr "ireland"); ("budget_tier", VStr "budget"); ("limit", VNum 10)].
Definition demo_recommend_zero : list (string * JsVal) :=
  [("region", VStr "ireland"); ("budget_tier", VStr "budget"); ("limit", VNum 0)].
Definition demo_recommend_any : list (string * JsVal) :=
  [("region", VStr "_"); ("budget_tier", VStr "standard"); ("limit", VNum 10)].

Definition demo_request (header : option string) : Request :=
  mkRequest header "search_courses" demo_search.

(** * How a handler reaches its result *)

(** The ways a run that started in [w] and ended in [w'] produced [r]:
    from the cache, from a query the store failed, from the rows or the one
    row the store answered, from an answer the handler digests itself, or
    from an exception caught before any query went out. Only an answer of
    rows or of a row is written to the cache. *)
Inductive Served (w w' : World) (r : ToolResult) : Prop :=
| served_cached (v : JsVal) :
    r = cache_hit v -> truthy v = true -> sent w' = sent w -> redis w' = redis w ->
    Served w w' r
| served_store_error (q : Query) (m pfx : string) :
    sent w' = sent w ++ [q] ->
    reply_error (Postgres.run (supabase w) q) = Some m ->
    r = failure (pfx +:+ m) -> redis w' = redis w -> Served w w' r
| served_rows (q : Query) (md : list (string * JsVal)) :
    sent w' = sent w ++ [q] ->
    q_single q = false ->
    reply_error (Postgres.run (supabase w) q) = None ->
    r = mkResult true (Some (Js.or (reply_data (Postgres.run (supabase w) q)) (VArr [])))
                 None (Some md) ->
    field_of "count" md = Some (count_of (reply_data (Postgres.run (supabase w) q))) ->
    field_of "cached" md = None ->
    Served w w' r
| served_row (q : Query) (md : list (string * JsVal)) :
    sent w' = sent w ++ [q] ->
    q_single q = true ->
    reply_error (Postgres.run (supabase w) q) = None ->
    r = mkResult true (Some (reply_data (Postgres.run (supabase w) q))) None (Some md) ->
    field_of "count" md = None ->
    field_of "cached" md = None ->
    Served w w' r
| served_digest (q : Query) (d : JsVal) :
    sent w' = sent w ++ [q] ->
    r = mkResult true (Some d) None None -> redis w' = redis w -> Served w w' r
| served_exception (e : JsError) :
    r = failure (emessage e) -> sent w' = sent w -> redis w' = redis w -> Served w w' r.

Definition served_post (w : World) (o : Outcome ToolResult) (w' : World) : Prop :=
  forall r, o = Return r -> Served w w' r.


(** ** Runs of the small deployment, used in the examples *)

(** The failure of [demo_search] against the failing store, and the world
    it leaves. *)
Definition demo_failure : ToolResult := failure "Database error: connection refused".
Definition demo_outage_after : World :=
  (execute search_courses_tool demo_search demo_outage).2.

(** The answer to [demo_search] with the store up, and the world it leaves. *)
Definition demo_answer : ToolResult :=
  mkResult true
    (Some (VArr [VObj (demo_course "c" "West IRELAND" 50 9000);
                 VObj (demo_course "a" "Southwest Ireland" 45 15000)]))
    None (Some [("count", VNum 2); ("duration_ms", VNum 5)]).
Definition demo_world_after : World :=
  (execute search_courses_tool demo_search demo_world).2.

(** The same search with a field that the schema does not declare. *)
Definition demo_noted : list (string * JsVal) :=
  [("region", VStr "ireland"); ("limit", VNum 20); ("note", VStr "tee off early")].

(** A search with a ceiling on the green fee, its answer and the world it
    leaves. *)
Definition demo_priced : list (string * JsVal) :=
  [("region", VStr "ireland"); ("max_price_cents", VNum 10000); ("limit", VNum 20)].
Definition demo_priced_answer : ToolResult :=
  mkResult true
    (Some (VArr [VObj (demo_course "c" "West IRELAND" 50 9000)]))
    None (Some [("count", VNum 1); ("duration_ms", VNum 5)]).
Definition demo_priced_after : World :=
  (searchCourses (VObj demo_priced) demo_world).2.

(** The cache is live and holds, under one key, text that is not JSON. *)
Definition demo_garbled : World :=
  mkWorld demo_env false false
          (mkRedis true {[ "course:details:c" := (300, OtherText "<html>") ]})
          (mkSupabase [("golf_courses", demo_courses)] None) demo_clock 0 [] [].

(** A store with hotels and an operator's rates. *)
Definition demo_operator : string := "3e9dbbd1-5b80-4619-a80c-3ecd4a7be8f1".
Definition demo_supplier : string := "7c9e6679-7425-40de-944b-e07fc1f90ae7".

Definition demo_rate (id op sup ty : string) (cents pct : Z) : Row :=
  [("id", VStr id); ("operator_id", VStr op); ("supplier_id", VStr sup);
   ("supplier_type", VStr ty); ("rate_cents", VNum cents);
   ("discount_percentage", VNum pct)].

Definition demo_rates : list Row :=
  [demo_rate "r1" demo_operator demo_supplier "golf_course" 12000 20;
   demo_rate "r2" demo_operator "hotel-1" "accommodation" 18000 10;
   demo_rate "r3" "another-operator" demo_supplier "golf_course" 14000 5].

Definition demo_hotel (id region : string) (resort : bool) : Row :=
  [("id", VStr id); ("name", VStr id); ("region", VStr region);
   ("is_golf_resort", VBool resort)].

Definition demo_hotels : list Row :=
  [demo_hotel "h1" "Southwest Ireland" true;
   demo_hotel "h2" "Dublin" false;
   demo_hotel "h3" "Scotland" true].

Definition demo_trade : World :=
  mkWorld demo_env false false (mkRedis true ∅)
          (mkSupabase [("golf_courses", demo_courses); ("accommodations", demo_hotels);
                       ("operator_supplier_rates", demo_rates)] None)
          demo_clock 0 [] [].

(** * Validated arguments *)

(** The walk of [check] along the shape of an object schema, by itself:
    the fields it keeps and the issues it finds. *)
Definition checked_fields (p : list string) (fs : list (string * JsVal))
  : list (string * ZodType) -> list (string * JsVal) * list ZodIssue :=
  fix members (shape : list (string * ZodType)) : list (string * JsVal) * list ZodIssue :=
    match shape with
    | [] => ([], [])
    | (k, tk) :: shape' =>
        let '(out, errs) := members shape' in
        match check tk (p ++ [k]) (default VUndef (field_of k fs)) with
        | inl VUndef =>
            (if bool_decide (is_Some (field_of k fs)) then (k, VUndef) :: out else out, errs)
        | inl x => ((k, x) :: out, errs)
        | inr e => (out, e ++ errs)
        end
    end.

(** What validation leaves of one field: nothing when the field is absent
    and stays undefined. *)
Definition checked_field (p : list string) (fs : list (string * JsVal))
    (k : string) (tk : ZodType) : option (string * JsVal) :=
  match check tk (p ++ [k]) (default VUndef (field_of k fs)) with
  | inl VUndef => if bool_decide (is_Some (field_of k fs)) then Some (k, VUndef) else None
  | inl x => Some (k, x)
  | inr _ => None
  end.

(** The field passes its validator. *)
Definition field_accepted (p : list string) (fs : list (string * JsVal))
    (kt : string * ZodType) : Prop :=
  exists x, check kt.2 (p ++ [kt.1]) (default VUndef (field_of kt.1 fs)) = inl x.

(** Two argument objects agree on the fields [shape] declares. *)
Definition agree_on (shape : list (string * ZodType)) (fs fs' : list (string * JsVal))
  : Prop :=
  forall k, In k (shape.*1) -> field_of k fs = field_of k fs'.

(** The shape a registered schema declares. *)
Definition declared_shape (s : InputSchema) : option (list (string * ZodType)) :=
  match s with
  | ZodSchema (z_object shape) => Some shape
  | _ => None
  end.

(** The three schemas that declare a limit, each with its default. *)
Definition limited_schemas : list (ZodType * Z) :=
  [(SearchCoursesSchema, 20); (SearchAccommodationsSchema, 20);
   (GetRecommendedCoursesSchema, 10)].

(** A failed result reports an error the store replied to the query sent. *)
Definition store_error_only (w : World) (o : Outcome ToolResult) (w' : World) : Prop :=
  forall r, o = Return r -> success r = false ->
    exists q m pfx,
      sent w' = sent w ++ [q] /\
      reply_error (Postgres.run (supabase w) q) = Some m /\
      r = failure (pfx +:+ m).

(** * The cache at work *)

(** The cache is switched on and the server answers. *)
Definition cache_live (w : World) : Prop :=
  ENABLE_CACHE (env w) = true /\ unset (REDIS_URL (env w)) = false /\
  reachable (redis w) = true.

(** What a lookup makes of the text stored under a key. *)
Definition text_value (t : option RedisText) : JsVal :=
  match t with
  | Some (JsonText v) => JSON.roundtrip v
  | _ => VNull
  end.

(** After the run, a lookup of [key] finds the data [d] of the result. *)
Definition warmed (key : string) (r : ToolResult) (w' : World) : Prop :=
  cache_live w' /\
  exists d, data r = Some d /\ truthy (JSON.roundtrip d) = true /\
            forall n, getCached_val key (with_ticks n w') = JSON.roundtrip d.

Definition warms (key : string) (o : Outcome ToolResult) (w' : World) : Prop :=
  forall r, o = Return r -> success r = true -> warmed key r w'.

(** The run answers from the cache with [v] and sends the store nothing. *)
Definition hits (v : JsVal) (w : World) (o : Outcome ToolResult) (w' : World) : Prop :=
  o = Return (cache_hit v) /\ sent w' = sent w.

(** The tools whose handlers never consult the cache. *)
Definition uncached_tools : list string := ["find_course_by_name"; "has_negotiated_rate"].

(** * What the handlers answer, by the contents of the store *)

(** The rows of a table that pass all of a query's filters. *)
Definition passing (filters : list Filter) (rows : list Row) : list Row :=
  filter (fun r => forallb (fun f => Postgres.holds f r) filters) rows.

(** The row's column [col] holds the string [s]. *)
Definition column_is (col s : string) (r : Row) : bool :=
  match field_of col r with
  | Some (VStr x) => String.eqb x s
  | _ => false
  end.

(** The row's column [col] holds a string that contains [s], case ignored. *)
Definition column_contains (col s : string) (r : Row) : bool :=
  match field_of col r with
  | Some (VStr x) => Spec.region_matches s x
  | _ => false
  end.

(** How the two search handlers turn a request into a query. *)
Definition search_query (cols : list string) (price_column : string)
    (fs : list (string * JsVal)) (q : Query) : Prop :=
  q_columns q = cols /\ q_order q = Some ("rating", false) /\ q_single q = false /\
  limit_rule 20 fs q /\ price_rule price_column fs q /\
  (forall region, region <> "" -> field_of "region" fs = Some (VStr region) ->
     In (mkFilter Ilike "region" (VStr ("%" +:+ region +:+ "%"))) (q_filters q)).

(** The course search also filters on the type of course. *)
Definition type_rule (fs : list (string * JsVal)) (q : Query) : Prop :=
  forall ty, ty <> "" -> field_of "course_type" fs = Some (VStr ty) ->
    In (mkFilter Eq_ "course_type" (VStr ty)) (q_filters q).

(** A successful result is the store's answer to a query that satisfies [P]. *)
Definition answers_with (P : Query -> Prop) (w : World)
    (o : Outcome ToolResult) (w' : World) : Prop :=
  forall r, o = Return r -> success r = true ->
    exists q, P q /\ reply_error (Postgres.run (supabase w) q) = None /\
              data r = Some (Js.or (reply_data (Postgres.run (supabase w) q)) (VArr [])).

(** The rows of a search result keep to the request: the price bounds, the
    region, the order by rating and the limit. *)
Definition respects (price_column : string) (fs : list (string * JsVal))
    (rows : list Row) : Prop :=
  (forall n, n <> 0 -> field_of "min_price_cents" fs = Some (VNum n) ->
     List.Forall (fun c => exists p, field_of price_column c = Some (VNum p) /\ n <= p) rows) /\
  (forall n, n <> 0 -> field_of "max_price_cents" fs = Some (VNum n) ->
     List.Forall (fun c => exists p, field_of price_column c = Some (VNum p) /\ p <= n) rows) /\
  (forall region, region <> "" -> literal region = true ->
     field_of "region" fs = Some (VStr region) ->
     List.Forall (fun c => column_contains "region" region c = true) rows) /\
  Sorted (Postgres.before "rating" false) rows /\
  (forall n, 0 < n -> field_of "limit" fs = Some (VNum n) -> Z.of_nat (length rows) <= n) /\
  (field_of "limit" fs = None \/ field_of "limit" fs = Some (VNum 0) ->
   Z.of_nat (length rows) <= 20).

(** The columns the two searches select. *)
Definition course_columns : list string :=
  ["id"; "name"; "region"; "course_type"; "rating"; "difficulty_level";
   "green_fee_standard_cents"; "description"; "location"; "features"; "created_at"].

Definition accommodation_columns : list string :=
  ["id"; "name"; "type"; "region"; "rating"; "standard_rate_cents"; "description";
   "amenities"; "location"].

(** A details lookup finds a row when exactly one row of the table has the
    id, and fails with [prefix] and the store's message otherwise. *)
Definition finds_the_one (prefix id : string) (rows : list Row) (r : ToolResult) : Prop :=
  match filter (fun c => column_is "id" id c) rows with
  | [row] => success r = true /\ data r = Some (VObj row)
  | _ => r = failure (prefix +:+ Postgres.single_error)
  end.

(** What has_negotiated_rate reports when exactly one rate row matches. *)
Definition rate_found (row : Row) : JsVal :=
  VObj [("has_rate", VBool true);
        ("rate_cents", default VUndef (field_of "rate_cents" row));
        ("discount_percentage", default VUndef (field_of "discount_percentage" row))].

(** The rate rows of an operator, of one type of supplier when [ty] names
    one: no type, the empty string and "any" all stand for every type. *)
Definition rate_wanted (op : string) (ty : option string) (row : Row) : bool :=
  column_is "operator_id" op row &&
  match ty with
  | Some t =>
      if String.eqb t "" || String.eqb t "any" then true
      else column_is "supplier_type" t row
  | None => true
  end.

Definition rate_columns : list string :=
  ["id"; "operator_id"; "supplier_id"; "supplier_type"; "rate_cents";
   "discount_percentage"; "valid_from"; "valid_until"; "notes"].

Definition supplier_columns : list string :=
  ["supplier_id"; "supplier_type"; "rate_cents"; "discount_percentage"].

(** The row's column [col] holds [true]. *)
Definition column_true (col : string) (r : Row) : bool :=
  match field_of col r with
  | Some (VBool b) => b
  | _ => false
  end.

(** The golf resorts of a region; no region, or the empty one, stands for
    all regions. *)
Definition resort_wanted (region : option string) (row : Row) : bool :=
  column_true "is_golf_resort" row &&
  match region with
  | Some s => if String.eqb s "" then true else column_contains "region" s row
  | None => true
  end.

(** The argument a region option stands for. *)
Definition region_arg (region : option string) : JsVal :=
  match region with
  | Some s => VStr s
  | None => VUndef
  end.

Definition name_columns : list string :=
  ["id"; "name"; "region"; "course_type"; "green_fee_standard_cents"].

(** The keys the cache was asked about so far, reads and writes alike. *)
Definition asked_of_cache (w : World) : list string :=
  omap (fun e => match e with
                 | RedisGet k => Some k
                 | RedisSetex k _ _ => Some k
                 | SupabaseRequest _ => None
                 end) (io w).

(** * The execution log *)

(** The lines [logToolExecution] has written to a log. *)
Definition execution_lines (l : list LogEntry) : list LogEntry :=
  filter (fun e => String.eqb (text e) "Tool execution") l.

(** A handler's own run keeps the environment and the clock and writes no
    execution line. *)
Definition quiet (w : World) (o : Outcome ToolResult) (w' : World) : Prop :=
  env w' = env w /\ clock w' = clock w /\
  execution_lines (log w') = execution_lines (log w).

(** The line a transport writes for a call: the tool, the time between the
    first and the last reading of the clock during the call, and whether
    the call succeeded. *)
Definition execution_line (tool : string) (w w' : World) (ok : bool) (e : LogEntry)
  : Prop :=
  level e = "info" /\ text e = "Tool execution" /\
  field_of "tool" (meta e) = Some (VStr tool) /\
  field_of "duration_ms" (meta e) =
    Some (VNum (clock w (Nat.pred (ticks w')) - clock w (ticks w))) /\
  field_of "success" (meta e) = Some (VBool ok).

(** The run added exactly one execution line to the log, for [tool], with
    the success flag [ok]. *)
Definition logged_once (tool : string) (w w' : World) (ok : bool) : Prop :=
  exists e, execution_lines (log w') = execution_lines (log w) ++ [e] /\
            execution_line tool w w' ok e.

(** What a call leaves in the log: one execution line when info lines pass
    the configured level, none when they do not. *)
Definition execution_logged (tool : string) (w w' : World) (ok : bool) : Prop :=
  if written (env w) "info" then logged_once tool w w' ok
  else execution_lines (log w') = execution_lines (log w).

(** ** utils/database.ts: the connection test *)

(** The query of the test: [from('golf_courses').select('id').limit(1)] *)
Definition probe : Query :=
  Supa.from "golf_courses" |> Supa.select ["id"] |> Supa.limit (VNum 1).

Definition testDatabaseConnection : M bool :=
  try_catch
    (getSupabaseClient;;
     reply ← Supa.await probe;
     match reply_error reply with
     | Some message =>
         logger "error" "Database connection test failed"
                [("error", pg_error_json message)];;
         mret false
     | None =>
         logger "info" "Database connection successful" [];;
         mret true
     end)
    (fun error =>
       logger "error" "Database connection test error" [("error", error_json error)];;
       mret false).

(** ** server.ts: the health check

    [process.uptime()] and the ISO rendering of [new Date()] are taken as
    given; the date is one more reading of the clock. *)
Definition health (uptime : JsVal) (toISOString : Z -> string) : M HttpResponse :=
  dbConnected ← testDatabaseConnection;
  now ← Date_now;
  mret (mkResponse 200
          (VObj [("status", VStr (if (dbConnected : bool) then "healthy" else "degraded"));
                 ("version", VStr "1.0.0");
                 ("uptime_seconds", uptime);
                 ("database", VStr (if (dbConnected : bool) then "connected" else "disconnected"));
                 ("timestamp", VStr (toISOString now))])).

(** ** index.ts: starting the server *)

(** How [start] ends: the server listens on a port, or the process exits. *)
Inductive Startup : Type :=
| Listening (port : Z)
| Exited (code : Z).

Definition start (port : Z) : M Startup :=
  fun w =>
    try_catch
      (logger "info" "🚀 Starting Fareway Database MCP Server"
              [("environment", VStr (NODE_ENV (env w))); ("port", VNum port)];;
       dbConnected ← testDatabaseConnection;
       if negb (dbConnected : bool) then
         logger "error" "❌ Database connection failed - exiting" [];;
         mret (Exited 1)
       else
         logger "info" ("✅ Server running on port " +:+ pretty port)
                [("health_check", VStr ("http://localhost:" +:+ pretty port +:+ "/health"));
                 ("mcp_endpoint", VStr ("http://localhost:" +:+ pretty port +:+ "/sse"));
                 ("api_endpoint", VStr ("http://localhost:" +:+ pretty port +:+ "/api/tools"))];;
         mret (Listening port))
      (fun error =>
         logger "error" "Failed to start server" [("error", error_json error)];;
         mret (Exited 1)) w.

(** The store answers the connection test without an error. *)
Definition store_answers (w : World) : bool :=
  bool_decide (reply_error (Postgres.run (supabase w) probe) = None).

(** ** server.ts: the catalogue of the session protocol *)

(** [schema.shape]: a zod object has one, and [describe] keeps it. *)
Fixpoint zod_shape (t : ZodType) : option (list (string * ZodType)) :=
  match t with
  | z_object shape => Some shape
  | z_describe t' _ => zod_shape t'
  | _ => None
  end.

(** The [properties] of a catalogue entry: the shape of a zod object, or
    whatever else the expression yields. *)
Inductive Properties : Type :=
| ZodShape (shape : list (string * ZodType))
| PlainValue (v : JsVal).

(** [Object.keys(v)] for a value that is not null or undefined. *)
Definition Object_keys (v : JsVal) : list string :=
  match v with
  | VObj fs => fs.*1
  | VArr l => pretty <$> seq 0 (length l)
  | VStr s => pretty <$> seq 0 (String.length s)
  | _ => []
  end.

Definition property_names (p : Properties) : list string :=
  match p with
  | ZodShape shape => shape.*1
  | PlainValue v => Object_keys v
  end.

(** [t.inputSchema.shape || {}] *)
Definition shape_or_empty (s : InputSchema) : Outcome Properties :=
  match s with
  | ZodSchema z =>
      Return (match zod_shape z with
              | Some shape => ZodShape shape
              | None => PlainValue (VObj [])
              end)
  | PlainObject o =>
      match prop o "shape" with
      | Return shape => Return (PlainValue (Js.or shape (VObj [])))
      | Throw e => Throw e
      end
  end.

(** One entry of the [tools] list the handler returns; the [inputSchema] of
    an entry has the type "object", these properties and these required
    names. *)
Record McpTool : Type := mkMcpTool {
  m_name : string;
  m_description : string;
  m_properties : Properties;
  m_required : list string
}.

Definition describe_tool (t : ToolListing) : Outcome McpTool :=
  match shape_or_empty (l_inputSchema t) with
  | Return properties =>
      Return (mkMcpTool (l_name t) (l_description t) properties (property_names properties))
  | Throw e => Throw e
  end.

(** [listTools().map(t => ...)]: the first entry that throws ends the map. *)
Fixpoint describe_tools (l : list ToolListing) : Outcome (list McpTool) :=
  match l with
  | [] => Return []
  | t :: l' =>
      match describe_tool t with
      | Return e =>
          match describe_tools l' with
          | Return es => Return (e :: es)
          | Throw err => Throw err
          end
      | Throw err => Throw err
      end
  end.

(** [mcpServer.setRequestHandler(ListToolsRequestSchema, ...)] *)
Definition listToolsHandler : Outcome (list McpTool) := describe_tools listTools.

(** The validator accepts an object that does not have the field. *)
Definition may_be_absent (tk : ZodType) : Prop :=
  exists x, check tk [] VUndef = inl x.

(** ** server.ts: the last error handler *)

Definition errorHandler (err : JsError) (path method : string) : M HttpResponse :=
  fun w =>
    (logError err [("path", VStr path); ("method", VStr method)];;
     mret (mkResponse 500
             (VObj [("error", VStr "Internal server error");
                    ("message", if String.eqb (NODE_ENV (env w)) "development"
                                then VStr (emessage err) else VUndef)]))) w.

Definition internal_error_text : string :=
  "{" +:+ JSON.quote "error" +:+ ":" +:+ JSON.quote "Internal server error" +:+ "}".

(** * Cache keys *)

(** The prefix of the cache keys of each tool that uses the cache. *)
Definition key_prefixes : list (string * string) :=
  [("search_courses", "courses:search:");
   ("get_course_details", "course:details:");
   ("get_recommended_courses", "courses:recommended:");
   ("search_accommodations", "accommodations:search:");
   ("get_accommodation_details", "accommodation:details:");
   ("get_golf_resorts", "resorts:");
   ("get_supplier_rates", "rates:");
   ("get_operator_suppliers", "suppliers:")].

(** The key starts with the prefix; a tool without one has no keys. *)
Definition has_prefix (p : option string) (k : string) : Prop :=
  match p with
  | Some p' => String.prefix p' k = true
  | None => False
  end.

(** What the run asked the cache about, every key with the prefix [p]. *)
Definition keeps_to (p : option string) (w : World) (o : Outcome ToolResult) (w' : World)
  : Prop :=
  exists ks, asked_of_cache w' = asked_of_cache w ++ ks /\ List.Forall (has_prefix p) ks.

(** The run from [w] to [w'] asked the cache about [k]. *)
Definition newly_asked (w w' : World) (k : string) : Prop :=
  exists ks, asked_of_cache w' = asked_of_cache w ++ ks /\ In k ks.

(** * How long entries are kept *)

(** The writes to the cache so far: each key with its time to live. *)
Definition stored (w : World) : list (string * Z) :=
  omap (fun e => match e with
                 | RedisSetex k ttl _ => Some (k, ttl)
                 | _ => None
                 end) (io w).

(** The two tools that keep their entries for ten minutes. *)
Definition ten_minute_tools : list string := ["get_supplier_rates"; "get_operator_suppliers"].

(** The time a tool's entries are kept: 600 seconds for the two, the
    configured CACHE_TTL_SECONDS for the others. *)
Definition kept_for (tool : string) (w : World) : Z :=
  if existsb (String.eqb tool) ten_minute_tools then 600 else CACHE_TTL_SECONDS (env w).

(** Every write of the run has the time to live [ttl]. *)
Definition stores_for (ttl : Z) (w : World) (o : Outcome ToolResult) (w' : World) : Prop :=
  exists es, stored w' = stored w ++ es /\ List.Forall (fun e => e.2 = ttl) es.
(** * Reasoning about effectful code *)

Section Primitives.

Context {A B : Type}.

Lemma bind_unfold (m : M A) (k : A -> M B) (w : World) :
  (m ≫= k) w =
  match m w with
  | (Return a, w') => k a w'
  | (Throw e, w') => (Throw e, w')
  end.
Proof. reflexivity. Qed.

Lemma wp_bind (m : M A) (k : A -> M B) w Q :
  wp m w (fun o w' => match o with
                      | Return a => wp (k a) w' Q
                      | Throw e => Q (Throw e) w'
                      end) ->
  wp (m ≫= k) w Q.
Proof.
  unfold wp. rewrite bind_unfold. destruct (m w) as [[a | e] w']; simpl; auto.
Qed.

Lemma wp_try (body : M A) (c : JsError -> M A) w Q :
  wp body w (fun o w' => match o with
                         | Return a => Q (Return a) w'
                         | Throw e => wp (c e) w' Q
                         end) ->
  wp (try_catch body c) w Q.
Proof.
  unfold wp, try_catch. destruct (body w) as [[a | e] w']; simpl; auto.
Qed.

Lemma wp_ret (a : A) w Q : Q (Return a) w -> wp (mret a) w Q.
Proof. auto. Qed.

Lemma wp_lift (o : Outcome A) w Q : Q o w -> wp (lift o) w Q.
Proof. auto. Qed.

Lemma wp_throw (e : JsError) w (Q : Outcome A -> World -> Prop) :
  Q (Throw e) w -> wp (throw e) w Q.
Proof. auto. Qed.

End Primitives.

Lemma wp_Date_now w Q :
  Q (Return (clock w (ticks w))) (with_ticks (S (ticks w)) w) -> wp Date_now w Q.
Proof. auto. Qed.

Lemma with_log_same w : with_log (log w) w = w.
Proof. destruct w. reflexivity. Qed.

Lemma logger_eq lvl msg m w :
  logger lvl msg m w =
  (Return tt, with_log (log w ++ logged (env w) (mkLog lvl msg m)) w).
Proof.
  unfold logger, logged. simpl. destruct (written (env w) lvl); [reflexivity |].
  rewrite app_nil_r, with_log_same. reflexivity.
Qed.

Lemma wp_logger lvl msg m w Q :
  Q (Return tt) (with_log (log w ++ logged (env w) (mkLog lvl msg m)) w) ->
  wp (logger lvl msg m) w Q.
Proof. unfold wp. rewrite logger_eq. auto. Qed.

Lemma logger_bind {A : Type} lvl msg m (k : unit -> M A) w :
  (logger lvl msg m ≫= k) w =
  k tt (with_log (log w ++ logged (env w) (mkLog lvl msg m)) w).
Proof. rewrite bind_unfold, logger_eq. reflexivity. Qed.

Lemma Date_now_bind {A : Type} (k : Z -> M A) w :
  (Date_now ≫= k) w = k (clock w (ticks w)) (with_ticks (S (ticks w)) w).
Proof. reflexivity. Qed.

(** Runs through readings of the clock and calls of the logger. *)
Ltac log_run :=
  unfold logToolExecution, logError, Date_now;
  cbv beta iota;
  repeat (first [rewrite logger_bind | rewrite logger_eq | rewrite bind_unfold];
          cbv beta iota);
  simpl.

Lemma written_error e : written e "error" = true.
Proof. destruct e as [? [] ? ? ? ? ?]; reflexivity. Qed.

Lemma written_warn e : written e "warn" = true <-> LOG_LEVEL e <> LogError.
Proof. destruct e as [? [] ? ? ? ? ?]; vm_compute; intuition congruence. Qed.

Lemma written_info e :
  written e "info" = true <-> LOG_LEVEL e = LogInfo \/ LOG_LEVEL e = LogDebug.
Proof.
  destruct e as [? [] ? ? ? ? ?]; vm_compute; intuition congruence.
Qed.

Lemma wp_await q w Q :
  Q (Return (Postgres.run (supabase w) q)) (with_io (io w ++ [SupabaseRequest q]) w) ->
  wp (Supa.await q) w Q.
Proof. auto. Qed.

(** The same two rules with the log line and the query named, which keeps
    goals small. *)
Lemma wp_logger_any lvl msg m w Q :
  (forall l, Q (Return tt) (with_log l w)) -> wp (logger lvl msg m) w Q.
Proof. intros H. apply wp_logger, H. Qed.

Lemma wp_await_as q w Q :
  (forall q0, q0 = q ->
     Q (Return (Postgres.run (supabase w) q0)) (with_io (io w ++ [SupabaseRequest q0]) w)) ->
  wp (Supa.await q) w Q.
Proof. intros H. apply wp_await, H. reflexivity. Qed.

(** The cache never throws into its caller. *)
Lemma getCached_returns key w : exists v w', getCached key w = (Return v, w').
Proof.
  unfold getCached. rewrite bind_unfold. unfold getRedisClient.
  destruct (negb (ENABLE_CACHE (env w)) || unset (REDIS_URL (env w))); [simpl; eauto |].
  assert (forall w0, exists v w',
            try_catch
              (value ← redis_get key;
               match value with
               | Some t => if is_empty_text t then mret VNull else lift (JSON_parse t)
               | None => mret VNull
               end)
              (fun error =>
                 logger "warn" "Cache get failed"
                        [("key", VStr key); ("error", error_json error)];;
                 mret VNull) w0 = (Return v, w')) as Hbody.
  { intros w0. unfold try_catch. rewrite bind_unfold.
    unfold redis_get. destruct (reachable (redis w0));
      [| cbv beta iota zeta; rewrite bind_unfold, logger_eq; simpl; eauto].
    destruct (snd <$> entries (redis w0) !! key) as [t |]; [| simpl; eauto].
    destruct (is_empty_text t); [simpl; eauto |].
    destruct t as [v | s]; simpl; [eauto |].
    rewrite bind_unfold, logger_eq. simpl. eauto. }
  destruct (redisClient w); simpl; apply Hbody.
Qed.

Lemma getCached_eq key w :
  getCached key w = (Return (getCached_val key w), getCached_post key w).
Proof.
  destruct (getCached_returns key w) as (v & w' & H).
  unfold getCached_val, getCached_post. rewrite H. reflexivity.
Qed.

Lemma setCached_eq key v ttl w :
  setCached key v ttl w = (Return tt, setCached_post key v ttl w).
Proof.
  unfold setCached_post, setCached. rewrite bind_unfold. unfold getRedisClient.
  destruct (negb (ENABLE_CACHE (env w)) || unset (REDIS_URL (env w))); [reflexivity |].
  destruct (redisClient w); simpl; unfold try_catch, redis_setex; simpl;
    destruct (reachable (redis w)); try destruct (_ <=? 0);
    rewrite ?logger_eq; reflexivity.
Qed.

Lemma getSupabaseClient_eq w :
  getSupabaseClient w = (Return tt, getSupabaseClient_post w).
Proof.
  unfold getSupabaseClient_post, getSupabaseClient.
  destruct (supabaseClient w); rewrite ?logger_eq; reflexivity.
Qed.

Lemma wp_getCached key w Q :
  Q (Return (getCached_val key w)) (getCached_post key w) -> wp (getCached key) w Q.
Proof. unfold wp. rewrite getCached_eq. auto. Qed.

Lemma wp_setCached key v ttl w Q :
  Q (Return tt) (setCached_post key v ttl w) -> wp (setCached key v ttl) w Q.
Proof. unfold wp. rewrite setCached_eq. auto. Qed.

Lemma wp_getSupabaseClient w Q :
  Q (Return tt) (getSupabaseClient_post w) -> wp getSupabaseClient w Q.
Proof. unfold wp. rewrite getSupabaseClient_eq. auto. Qed.

(** *** What each step leaves unchanged *)

Lemma getCached_post_cases key w :
  let w' := getCached_post key w in
  supabase w' = supabase w /\ clock w' = clock w /\ ticks w' = ticks w /\
  env w' = env w /\ redis w' = redis w /\ sent w' = sent w /\
  supabaseClient w' = supabaseClient w.
Proof.
  unfold getCached_post, getCached. rewrite bind_unfold. unfold getRedisClient.
  destruct (negb (ENABLE_CACHE (env w)) || unset (REDIS_URL (env w))); [simpl; tauto |].
  assert (forall w0,
            let w' := (try_catch
              (value ← redis_get key;
               match value with
               | Some t => if is_empty_text t then mret VNull else lift (JSON_parse t)
               | None => mret VNull
               end)
              (fun error =>
                 logger "warn" "Cache get failed"
                        [("key", VStr key); ("error", error_json error)];;
                 mret VNull) w0).2 in
            supabase w' = supabase w0 /\ clock w' = clock w0 /\ ticks w' = ticks w0 /\
            env w' = env w0 /\ redis w' = redis w0 /\ sent w' = sent w0 /\
            supabaseClient w' = supabaseClient w0) as Hbody.
  { intros w0. unfold try_catch. rewrite bind_unfold. unfold redis_get.
    assert (sent (with_io (io w0 ++ [RedisGet key]) w0) = sent w0) as Hsent.
    { unfold sent. simpl. rewrite omap_app. simpl. apply app_nil_r. }
    destruct (reachable (redis w0));
      [| cbv beta iota zeta; rewrite bind_unfold, logger_eq; simpl;
         rewrite <- Hsent; tauto].
    destruct (snd <$> entries (redis w0) !! key) as [t |];
      [| simpl; rewrite <- Hsent; tauto].
    destruct (is_empty_text t); [simpl; rewrite <- Hsent; tauto |].
    destruct t as [v | s]; simpl; rewrite ?bind_unfold, ?logger_eq; simpl;
      rewrite <- Hsent; tauto. }
  destruct (redisClient w);
    [exact (Hbody w) | exact (Hbody (with_redisClient true w))].
Qed.

Lemma setCached_post_cases key v ttl w :
  let w' := setCached_post key v ttl w in
  supabase w' = supabase w /\ clock w' = clock w /\ ticks w' = ticks w /\
  env w' = env w /\ sent w' = sent w /\ supabaseClient w' = supabaseClient w.
Proof.
  assert (forall t, sent (with_io (io w ++ [RedisSetex key t (JSON_text v)]) w) = sent w)
    as Hsent.
  { intros t. unfold sent. simpl. rewrite omap_app. simpl. apply app_nil_r. }
  unfold setCached_post, setCached. rewrite bind_unfold. unfold getRedisClient.
  destruct (negb (ENABLE_CACHE (env w)) || unset (REDIS_URL (env w))); [simpl; tauto |].
  destruct (redisClient w); simpl; unfold try_catch, redis_setex; simpl;
    destruct (reachable (redis w)); try destruct (_ <=? 0);
    rewrite ?logger_eq; simpl;
    rewrite <- (Hsent (default (CACHE_TTL_SECONDS (env w)) ttl)); tauto.
Qed.

Lemma getSupabaseClient_post_cases w :
  let w' := getSupabaseClient_post w in
  supabase w' = supabase w /\ clock w' = clock w /\ ticks w' = ticks w /\
  env w' = env w /\ redis w' = redis w /\ sent w' = sent w.
Proof.
  unfold getSupabaseClient_post, getSupabaseClient.
  destruct (supabaseClient w); rewrite ?logger_eq; simpl; tauto.
Qed.

Lemma supabase_getCached k w : supabase (getCached_post k w) = supabase w.
Proof. apply getCached_post_cases. Qed.
Lemma clock_getCached k w : clock (getCached_post k w) = clock w.
Proof. apply getCached_post_cases. Qed.
Lemma ticks_getCached k w : ticks (getCached_post k w) = ticks w.
Proof. apply getCached_post_cases. Qed.
Lemma sent_getCached k w : sent (getCached_post k w) = sent w.
Proof. apply getCached_post_cases. Qed.

Lemma supabase_setCached k v t w : supabase (setCached_post k v t w) = supabase w.
Proof. apply setCached_post_cases. Qed.
Lemma clock_setCached k v t w : clock (setCached_post k v t w) = clock w.
Proof. apply setCached_post_cases. Qed.
Lemma ticks_setCached k v t w : ticks (setCached_post k v t w) = ticks w.
Proof. apply setCached_post_cases. Qed.
Lemma sent_setCached k v t w : sent (setCached_post k v t w) = sent w.
Proof. apply setCached_post_cases. Qed.

Lemma supabase_getSupabaseClient w : supabase (getSupabaseClient_post w) = supabase w.
Proof. apply getSupabaseClient_post_cases. Qed.
Lemma clock_getSupabaseClient w : clock (getSupabaseClient_post w) = clock w.
Proof. apply getSupabaseClient_post_cases. Qed.
Lemma ticks_getSupabaseClient w : ticks (getSupabaseClient_post w) = ticks w.
Proof. apply getSupabaseClient_post_cases. Qed.
Lemma sent_getSupabaseClient w : sent (getSupabaseClient_post w) = sent w.
Proof. apply getSupabaseClient_post_cases. Qed.

Lemma sent_with_ticks n w : sent (with_ticks n w) = sent w.
Proof. reflexivity. Qed.
Lemma sent_with_log l w : sent (with_log l w) = sent w.
Proof. reflexivity. Qed.
Lemma sent_request q w : sent (with_io (io w ++ [SupabaseRequest q]) w) = sent w ++ [q].
Proof. unfold sent. simpl. rewrite omap_app. reflexivity. Qed.
Lemma supabase_with_ticks n w : supabase (with_ticks n w) = supabase w.
Proof. reflexivity. Qed.
Lemma supabase_with_log l w : supabase (with_log l w) = supabase w.
Proof. reflexivity. Qed.
Lemma supabase_with_io l w : supabase (with_io l w) = supabase w.
Proof. reflexivity. Qed.
Lemma clock_with_ticks n w : clock (with_ticks n w) = clock w.
Proof. reflexivity. Qed.
Lemma clock_with_log l w : clock (with_log l w) = clock w.
Proof. reflexivity. Qed.
Lemma clock_with_io l w : clock (with_io l w) = clock w.
Proof. reflexivity. Qed.
Lemma ticks_with_ticks n w : ticks (with_ticks n w) = n.
Proof. reflexivity. Qed.
Lemma ticks_with_log l w : ticks (with_log l w) = ticks w.
Proof. reflexivity. Qed.
Lemma ticks_with_io l w : ticks (with_io l w) = ticks w.
Proof. reflexivity. Qed.

Create Rewrite HintDb world.
#[export] Hint Rewrite
  supabase_getCached clock_getCached ticks_getCached sent_getCached
  supabase_setCached clock_setCached ticks_setCached sent_setCached
  supabase_getSupabaseClient clock_getSupabaseClient ticks_getSupabaseClient
  sent_getSupabaseClient
  sent_with_ticks sent_with_log sent_request
  supabase_with_ticks supabase_with_log supabase_with_io
  clock_with_ticks clock_with_log clock_with_io
  ticks_with_ticks ticks_with_log ticks_with_io : world.

(** One step of symbolic execution of a monadic program. *)
Ltac wp_step :=
  lazymatch goal with
  | |- wp (_ ≫= _) _ _ => apply wp_bind
  | |- wp (try_catch _ _) _ _ => apply wp_try
  | |- wp (mret _) _ _ => apply wp_ret
  | |- wp (lift _) _ _ => apply wp_lift
  | |- wp (throw _) _ _ => apply wp_throw
  | |- wp Date_now _ _ => apply wp_Date_now
  | |- wp (logger _ _ _) _ _ => apply wp_logger_any; intros ?l
  | |- wp (logToolExecution _ _ _ _) _ _ =>
      unfold logToolExecution; apply wp_logger_any; intros ?l
  | |- wp (logError _ _) _ _ => unfold logError; apply wp_logger_any; intros ?l
  | |- wp (Supa.await _) _ _ => apply wp_await_as; intros ?q ?Hquery
  | |- wp (getCached _) _ _ => apply wp_getCached
  | |- wp (setCached _ _ _) _ _ => apply wp_setCached
  | |- wp getSupabaseClient _ _ => apply wp_getSupabaseClient
  | |- wp (if ?b then _ else _) _ _ => destruct b eqn:?
  | |- wp (match ?x with Some _ => _ | None => _ end) _ _ => destruct x eqn:?
  | |- match ?o with Return _ => _ | Throw _ => _ end =>
      first [ progress cbv iota | destruct o eqn:? ]
  end; cbv beta.

Ltac wp_run := cbv zeta; repeat wp_step.

(** Rewriting the projections of the final world back to the initial one. *)
Ltac world_simpl := autorewrite with world in *.

(** ** Small facts shared by the proofs below *)

Lemma wp_elim {A : Type} (m : M A) w (Q : Outcome A -> World -> Prop) o w' :
  wp m w Q -> m w = (o, w') -> Q o w'.
Proof. unfold wp. intros H E. rewrite E in H. exact H. Qed.

Lemma run_result {A : Type} (m : M A) (w : World) (a : A) :
  (m w).1 = Return a -> m w = (Return a, (m w).2).
Proof. intros H. rewrite <- H. apply surjective_pairing. Qed.

Lemma append_empty_right (s : string) : s +:+ "" = s.
Proof.
  induction s as [| c s IH]; [reflexivity |].
  change (String c (s +:+ "") = String c s). f_equal. exact IH.
Qed.

Lemma contains_suffix (prefix m : string) : contains m (prefix +:+ m).
Proof. exists prefix, "". rewrite append_empty_right. reflexivity. Qed.

Lemma app_tail_self {X : Type} (l : list X) (x : X) : l <> l ++ [x].
Proof.
  intros H. apply (f_equal length) in H. rewrite length_app in H. simpl in H. lia.
Qed.

Lemma getTool_Some n t : getTool n = Some t -> In t tools /\ name t = n.
Proof.
  unfold getTool. intros H. apply find_some in H as [Hin Heq].
  split; [exact Hin | apply String.eqb_eq, Heq].
Qed.

Lemma truthy_num n : truthy (VNum n) = negb (n =? 0).
Proof. reflexivity. Qed.

Lemma truthy_nonzero n : n <> 0 -> truthy (VNum n) = true.
Proof. intros H. rewrite truthy_num. destruct (Z.eqb_spec n 0); [contradiction | reflexivity]. Qed.

(** What the cache finds depends on the environment and the Redis server only. *)
Lemma getCached_fst_ext key w w0 :
  env w = env w0 -> redis w = redis w0 -> (getCached key w).1 = (getCached key w0).1.
Proof.
  intros He Hr. unfold getCached. rewrite !bind_unfold. unfold getRedisClient.
  rewrite He.
  destruct (negb (ENABLE_CACHE (env w0)) || unset (REDIS_URL (env w0))); [reflexivity |].
  assert (forall wa wb, redis wa = redis wb ->
            (try_catch
               (value ← redis_get key;
                match value with
                | Some t => if is_empty_text t then mret VNull else lift (JSON_parse t)
                | None => mret VNull
                end)
               (fun error =>
                  logger "warn" "Cache get failed"
                         [("key", VStr key); ("error", error_json error)];;
                  mret VNull) wa).1 =
            (try_catch
               (value ← redis_get key;
                match value with
                | Some t => if is_empty_text t then mret VNull else lift (JSON_parse t)
                | None => mret VNull
                end)
               (fun error =>
                  logger "warn" "Cache get failed"
                         [("key", VStr key); ("error", error_json error)];;
                  mret VNull) wb).1) as Hbody.
  { intros wa wb Hab. unfold try_catch. rewrite !bind_unfold. unfold redis_get.
    rewrite Hab. destruct (reachable (redis wb));
      [| cbv beta iota zeta; rewrite !bind_unfold, !logger_eq; reflexivity].
    destruct (snd <$> entries (redis wb) !! key) as [t |]; [| reflexivity].
    destruct (is_empty_text t); [reflexivity |].
    destruct t as [v | s]; [reflexivity |].
    simpl. rewrite !bind_unfold, !logger_eq. reflexivity. }
  destruct (redisClient w), (redisClient w0); simpl negb; cbv iota; apply Hbody;
    simpl; exact Hr.
Qed.

Lemma misses_with_ticks n w : misses w -> misses (with_ticks n w).
Proof.
  intros H key. rewrite <- (H key). apply getCached_fst_ext; reflexivity.
Qed.

Lemma misses_val key n w : misses w -> getCached_val key (with_ticks n w) = VNull.
Proof.
  intros H. unfold getCached_val.
  rewrite (misses_with_ticks n w H key). reflexivity.
Qed.

(** A live server that holds nothing misses as well. *)
Lemma empty_cache_misses w : entries (redis w) = ∅ -> misses w.
Proof.
  intros Hempty key. unfold getCached. rewrite bind_unfold. unfold getRedisClient.
  destruct (negb (ENABLE_CACHE (env w)) || unset (REDIS_URL (env w))); [reflexivity |].
  destruct (redisClient w); simpl negb; cbv iota;
    unfold try_catch, redis_get, mbind, M_bind, mret, M_ret, logger; simpl;
    rewrite Hempty, lookup_empty; destruct (reachable (redis w));
    try destruct (written _ _); reflexivity.
Qed.

(** Reads of a field of an object literal, as found in hypotheses. *)
Ltac read_fields :=
  repeat match goal with
         | H : prop (VObj _) _ = Throw _ |- _ => discriminate H
         | H : prop (VObj _) _ = Return _ |- _ =>
             unfold prop in H; injection H as <-
         end.

(** Outcomes of pure reads that the hypotheses determine. *)
Ltac known_outcomes :=
  repeat match goal with
         | H : Return _ = Throw _ |- _ => discriminate H
         | H : Throw _ = Return _ |- _ => discriminate H
         | H : Return _ = Return _ |- _ => injection H as <-
         | H : prop _ _ = _ |- _ => progress simpl in H
         | H : has_key _ _ = _ |- _ => progress simpl in H
         end.

Ltac forget_replies :=
  repeat match goal with
         | H : reply_error _ = _ |- _ => clear H
         | H : truthy (getCached_val _ _) = _ |- _ => clear H
         end.

(** * The transports (server.ts) *)

Ltac returns_leaf := unfold returns; eexists; reflexivity.

Lemma searchCourses_returns params w : wp (searchCourses params) w returns.
Proof. unfold searchCourses. wp_run; returns_leaf. Qed.
Lemma getCourseDetails_returns params w : wp (getCourseDetails params) w returns.
Proof. unfold getCourseDetails. wp_run; returns_leaf. Qed.
Lemma getRecommendedCourses_returns params w : wp (getRecommendedCourses params) w returns.
Proof. unfold getRecommendedCourses. wp_run; returns_leaf. Qed.
Lemma searchAccommodations_returns params w : wp (searchAccommodations params) w returns.
Proof. unfold searchAccommodations. wp_run; returns_leaf. Qed.
Lemma getAccommodationDetails_returns params w :
  wp (getAccommodationDetails params) w returns.
Proof. unfold getAccommodationDetails. wp_run; returns_leaf. Qed.
Lemma getSupplierRates_returns params w : wp (getSupplierRates params) w returns.
Proof. unfold getSupplierRates. wp_run; returns_leaf. Qed.
Lemma hasNegotiatedRate_returns params w : wp (hasNegotiatedRate params) w returns.
Proof. unfold hasNegotiatedRate. wp_run; returns_leaf. Qed.

(** A handler reached with validated arguments always returns a result. *)
Lemma validated_execution_returns t raw args w :
  In t tools ->
  inputSchema_parse (inputSchema t) raw = Return args ->
  exists r w', execute t args w = (Return r, w').
Proof.
  intros Hin Hparse.
  assert (wp (execute t args) w returns) as Hwp.
  { simpl in Hin.
    repeat (destruct Hin as [<- | Hin]); simpl in Hparse; try discriminate Hparse;
      simpl execute;
      [ apply searchCourses_returns
      | apply getCourseDetails_returns
      | apply getRecommendedCourses_returns
      | apply searchAccommodations_returns
      | apply getAccommodationDetails_returns
      | apply getSupplierRates_returns
      | apply hasNegotiatedRate_returns
      | destruct Hin ]. }
  unfold wp, returns in Hwp. destruct Hwp as [r Hr].
  exists r, (execute t args w).2. apply injective_projections; [exact Hr | reflexivity].
Qed.

(** What the REST handler answers, by the outcome of the lookup and of
    [parse]. *)
Lemma invokeTool_cases req w :
  exists resp w',
    invokeTool req w = (Return resp, w') /\
    match getTool (toolName req) with
    | None =>
        resp = mkResponse 404 (failure_json ("Tool '" +:+ toolName req +:+ "' not found"))
    | Some t =>
        match inputSchema_parse (inputSchema t) (body req) with
        | Throw e => resp = mkResponse 500 (failure_json (emessage e))
        | Return args =>
            exists r w1,
              execute t args (with_ticks (S (ticks w)) w) = (Return r, w1) /\
              resp = mkResponse 200 (ToolResult_json r)
        end
    end.
Proof.
  unfold invokeTool. rewrite bind_unfold. unfold Date_now at 1.
  cbv beta iota. unfold try_catch.
  destruct (getTool (toolName req)) as [t |] eqn:Hget.
  - rewrite bind_unfold. unfold lift.
    destruct (inputSchema_parse (inputSchema t) (body req)) as [args | e] eqn:Hparse.
    + apply getTool_Some in Hget as [Hin _].
      destruct (validated_execution_returns t (body req) args
                  (with_ticks (S (ticks w)) w) Hin Hparse) as (r & w1 & Hexec).
      rewrite bind_unfold, Hexec. log_run.
      eexists _, _. split; [reflexivity |]. exists r, w1. split; reflexivity.
    + log_run. eexists _, _. split; reflexivity.
  - log_run. eexists _, _. split; reflexivity.
Qed.

(** C1, as amended. The handler of POST /api/tools/:toolName always answers.
    It answers 404 when the tool name is not registered. For a tool
    registered with a zod validator it answers 500, with success false and
    the validator's message, when the body fails validation; otherwise it
    answers 200 carrying the ToolResult of the tool's handler as it is,
    handler failures (success false) included. *)
Theorem rest_status_codes :
  forall req w,
  exists resp w',
    invokeTool req w = (Return resp, w') /\
    match getTool (toolName req) with
    | None =>
        resp = mkResponse 404 (failure_json ("Tool '" +:+ toolName req +:+ "' not found"))
    | Some t =>
        forall z,
          inputSchema t = ZodSchema z ->
          match Zod.parse z (body req) with
          | Throw e => resp = mkResponse 500 (failure_json (emessage e))
          | Return args =>
              exists r w1,
                execute t args (with_ticks (S (ticks w)) w) = (Return r, w1) /\
                resp = mkResponse 200 (ToolResult_json r)
          end
    end.
Proof.
  intros req w.
  destruct (invokeTool_cases req w) as (resp & w' & Hrun & Hcase).
  exists resp, w'. split; [exact Hrun |].
  destruct (getTool (toolName req)) as [t |]; [| exact Hcase].
  intros z Hz. rewrite Hz in Hcase. exact Hcase.
Qed.

(** A valid request that the store fails: 200 with success false. *)
Lemma rest_status_witness :
  exists resp w',
    invokeTool (demo_request None) demo_outage = (Return resp, w') /\
    resp = mkResponse 200 (failure_json "Database error: connection refused").
Proof.
  destruct (rest_status_codes (demo_request None) demo_outage)
    as (resp & w' & Hrun & Hcase).
  exists resp, w'. split; [exact Hrun |].
  change (getTool (toolName (demo_request None))) with (Some search_courses_tool) in Hcase.
  specialize (Hcase SearchCoursesSchema eq_refl).
  change (Zod.parse SearchCoursesSchema (body (demo_request None)))
    with (Return demo_search) in Hcase.
  destruct Hcase as (r & w1 & Hexec & ->).
  apply (f_equal fst) in Hexec. vm_compute in Hexec. injection Hexec as <-.
  reflexivity.
Defined.

(** The claim as stated promises 200 whenever a registered tool's validator
    rejects the body. The body of this request gives search_courses a limit
    that is not a number. *)
Lemma validation_failure_is_not_200 :
  ~ (forall req w t e,
        getTool (toolName req) = Some t ->
        inputSchema_parse (inputSchema t) (body req) = Throw e ->
        exists b w', invokeTool req w = (Return (mkResponse 200 b), w')).
Proof.
  intros H.
  destruct (H (mkRequest None "search_courses" (VObj [("limit", VStr "abc")]))
              demo_world search_courses_tool
              (ZodError [mkIssue ["limit"] "Expected number, received string"])
              eq_refl eq_refl) as (b & w' & Heq).
  apply (f_equal (fun p => match p.1 with
                           | Return resp => status resp
                           | Throw _ => 0
                           end)) in Heq.
  vm_compute in Heq. discriminate Heq.
Qed.

Example validation_failure_status :
  (invokeTool (mkRequest None "search_courses" (VObj [("limit", VStr "abc")])) demo_world).1
  = Return (mkResponse 500
      (failure_json
         (emessage (ZodError [mkIssue ["limit"] "Expected number, received string"])))).
Proof. vm_compute. reflexivity. Qed.

(** A handler failure, by contrast, is answered 200 with success false. *)
Example handler_failure_status :
  (invokeTool (mkRequest None "search_courses" demo_search) demo_outage).1
  = Return (mkResponse 200 (failure_json "Database error: connection refused")).
Proof. vm_compute. reflexivity. Qed.

(** Whatever its handler is, a tool whose schema is a plain object fails in
    [parse] before the handler is reached. *)
Lemma plain_schema_rest n t o auth raw w :
  getTool n = Some t ->
  inputSchema t = PlainObject o ->
  exists w',
    invokeTool (mkRequest auth n raw) w =
    (Return (mkResponse 500 (failure_json not_a_function)), w') /\
    io w' = io w /\ redis w' = redis w /\ ticks w' = S (S (ticks w)).
Proof.
  intros Hget Hplain. unfold invokeTool. simpl toolName. simpl body.
  rewrite bind_unfold. unfold Date_now at 1. cbv beta iota. unfold try_catch.
  rewrite Hget. rewrite bind_unfold. unfold lift. rewrite Hplain. simpl.
  log_run. eexists. repeat split.
Qed.

Lemma plain_schema_session n t o raw w :
  getTool n = Some t ->
  inputSchema t = PlainObject o ->
  exists w',
    callTool n raw w = (Return (mkReply' (failure_json not_a_function) true), w') /\
    io w' = io w /\ redis w' = redis w /\ ticks w' = S (S (ticks w)).
Proof.
  intros Hget Hplain. unfold callTool.
  rewrite bind_unfold. unfold Date_now at 1. cbv beta iota. unfold try_catch.
  rewrite Hget. rewrite bind_unfold. unfold lift. rewrite Hplain. simpl.
  log_run. eexists. repeat split.
Qed.

(** C2. The three tools registered with a plain-object schema fail on every
    call: the REST handler answers 500 and the session handler replies with
    success false, both with the message that parse is not a function. The
    tool's handler does not run: nothing is sent to Redis or to the store,
    and the clock is read only twice, by the transport itself. *)
Theorem plain_schema_tools_always_fail :
  forall n,
    In n plain_schema_tools ->
    exists t o,
      getTool n = Some t /\ inputSchema t = PlainObject o /\
      forall auth raw w,
        (exists w',
            invokeTool (mkRequest auth n raw) w =
            (Return (mkResponse 500 (failure_json not_a_function)), w') /\
            io w' = io w /\ redis w' = redis w /\ ticks w' = S (S (ticks w))) /\
        (exists w',
            callTool n raw w =
            (Return (mkReply' (failure_json not_a_function) true), w') /\
            io w' = io w /\ redis w' = redis w /\ ticks w' = S (S (ticks w))).
Proof.
  intros n Hin. simpl in Hin.
  destruct Hin as [<- | [<- | [<- | []]]];
    (eexists _, _; split; [reflexivity | split; [reflexivity |]];
     intros auth raw w; split;
     [eapply plain_schema_rest | eapply plain_schema_session]; reflexivity).
Qed.

Lemma plain_schema_witness :
  exists w',
    invokeTool (mkRequest None "find_course_by_name" (VObj [("courseName", VStr "Old Head")]))
               demo_world
    = (Return (mkResponse 500 (failure_json not_a_function)), w') /\
    io w' = io demo_world.
Proof.
  destruct (plain_schema_tools_always_fail "find_course_by_name")
    as (t & o & _ & _ & Hall); [simpl; auto |].
  destruct (Hall None (VObj [("courseName", VStr "Old Head")]) demo_world)
    as [(w' & Hrest & Hio & _) _].
  exists w'. split; [exact Hrest | exact Hio].
Defined.

(** C6. An unregistered tool name is reported, and the call returns: the
    REST handler answers 404, also behind the auth middleware once it lets
    the request through, and the session handler replies with success false,
    the error flag set and a message that contains the name. *)
Theorem unknown_tool_is_reported :
  forall req args w,
    getTool (toolName req) = None ->
    (exists w',
        invokeTool req w =
        (Return (mkResponse 404
                   (failure_json ("Tool '" +:+ toolName req +:+ "' not found"))), w')) /\
    (authMiddleware (env w) req = Next -> post_api_tools req w = invokeTool req w) /\
    (exists msg w',
        callTool (toolName req) args w = (Return (mkReply' (failure_json msg) true), w') /\
        contains (toolName req) msg).
Proof.
  intros req args w Hget. split; [| split].
  - unfold invokeTool. rewrite bind_unfold. unfold Date_now at 1. cbv beta iota.
    unfold try_catch. rewrite Hget. simpl. log_run. eexists. reflexivity.
  - intros Hauth. unfold post_api_tools. rewrite Hauth. reflexivity.
  - unfold callTool. rewrite bind_unfold. unfold Date_now at 1. cbv beta iota.
    unfold try_catch. rewrite Hget. simpl. log_run.
    eexists _, _. split; [reflexivity |]. apply contains_suffix.
Qed.

Lemma unknown_tool_witness :
  exists msg w',
    callTool "does_not_exist" (VObj []) demo_world
    = (Return (mkReply' (failure_json msg) true), w') /\
    contains "does_not_exist" msg.
Proof.
  exact (proj2 (proj2 (unknown_tool_is_reported
                         (mkRequest None "does_not_exist" (VObj [])) (VObj [])
                         demo_world eq_refl))).
Defined.

Example unknown_tool_rest :
  (invokeTool (mkRequest None "does_not_exist" (VObj [])) demo_world).1
  = Return (mkResponse 404 (failure_json "Tool 'does_not_exist' not found")).
Proof. vm_compute. reflexivity. Qed.

(** * Authentication (server.ts) *)

Lemma prefix_append p t : String.prefix p (p +:+ t) = true.
Proof.
  induction p as [| c p IH]; [destruct t; reflexivity |].
  change (String.prefix (String c p) (String c (p +:+ t)) = true).
  simpl. destruct (ascii_dec c c) as [_ | Hne]; [exact IH | contradiction].
Qed.

Lemma unset_Some key : key <> "" -> unset (Some key) = false.
Proof.
  intros H. unfold unset. destruct (String.eqb_spec key ""); [contradiction | reflexivity].
Qed.

Lemma next_runs_the_handler e req :
  authMiddleware e req = Next -> admitted e req.
Proof.
  intros Hnext. split; [exact Hnext |].
  intros w <-. unfold post_api_tools. rewrite Hnext. reflexivity.
Qed.

(** C7. With no secret configured every request is let through to the
    handler. With a secret configured, a request without an Authorization
    header, or with one that does not start with Bearer, is answered 401; one
    whose bearer token differs from the secret is answered 403; one bearing
    the secret is let through to the handler. Let through, the route answers
    what the handler of the tool call answers, from the same state and with
    the same effects. A rejected request gets its answer from the route
    without the handler running: the world is left as it was. *)
Theorem auth_gate :
  forall e req,
    (MCP_API_KEY e = None -> admitted e req) /\
    (forall key,
        MCP_API_KEY e = Some key -> key <> "" ->
        (authorization req = None -> rejected 401 e req) /\
        (forall h, authorization req = Some h -> startsWith "Bearer " h = false ->
                   rejected 401 e req) /\
        (forall token, authorization req = Some ("Bearer " +:+ token) -> token <> key ->
                       rejected 403 e req) /\
        (authorization req = Some ("Bearer " +:+ key) -> admitted e req)) /\
    (forall w r,
        env w = e -> authMiddleware e req = Responded r ->
        post_api_tools req w = (Return r, w)).
Proof.
  intros e req. split; [| split].
  - intros Hnone. apply next_runs_the_handler.
    unfold authMiddleware. rewrite Hnone. reflexivity.
  - intros key Hkey Hne.
    split; [| split; [| split]].
    + unfold rejected, authMiddleware. rewrite Hkey, (unset_Some key Hne).
      intros ->. eexists. reflexivity.
    + unfold rejected, authMiddleware. rewrite Hkey, (unset_Some key Hne).
      intros h -> Hstart. rewrite Hstart. eexists. reflexivity.
    + unfold rejected, authMiddleware. rewrite Hkey, (unset_Some key Hne).
      intros token -> Hdiff. unfold startsWith. rewrite prefix_append. simpl negb.
      cbv iota. change ("" +:+ token) with token.
      rewrite bool_decide_eq_false_2 by congruence. eexists. reflexivity.
    + intros Hauth. apply next_runs_the_handler.
      unfold authMiddleware. rewrite Hkey, (unset_Some key Hne), Hauth.
      unfold startsWith. rewrite prefix_append. simpl negb. cbv iota.
      change ("" +:+ key) with key.
      rewrite bool_decide_eq_true_2 by reflexivity. reflexivity.
  - intros w r <- Hauth. unfold post_api_tools. rewrite Hauth. reflexivity.
Qed.

(** With the secret of the small deployment: no header, a wrong token, and
    the secret itself, which reaches the handler of search_courses. *)
Lemma auth_gate_witness :
  rejected 401 demo_env (demo_request None) /\
  rejected 403 demo_env (demo_request (Some ("Bearer " +:+ "wrong"))) /\
  authMiddleware demo_env (demo_request (Some ("Bearer " +:+ demo_key))) = Next /\
  post_api_tools (demo_request (Some ("Bearer " +:+ demo_key))) demo_world =
  invokeTool (demo_request (Some ("Bearer " +:+ demo_key))) demo_world.
Proof.
  assert (demo_key <> "") as Hne by discriminate.
  split; [| split].
  - exact (proj1 (proj1 (proj2 (auth_gate demo_env (demo_request None)))
                    demo_key eq_refl Hne) eq_refl).
  - refine (proj1 (proj2 (proj2 (proj1 (proj2 (auth_gate demo_env (demo_request _)))
                                   demo_key eq_refl Hne))) "wrong" eq_refl _).
    discriminate.
  - destruct (proj2 (proj2 (proj2 (proj1 (proj2 (auth_gate demo_env (demo_request _)))
                                     demo_key eq_refl Hne))) eq_refl) as [Hnext Hroute].
    split; [exact Hnext | exact (Hroute demo_world eq_refl)].
Defined.

(** * The registry (tools/index.ts) *)

(** C9. Looking up a registered tool's name returns that very definition,
    a successful lookup returns a registered definition of that name, the
    names are distinct, and the catalogue lists name, description and schema
    of the tools in registration order. *)
Theorem registry_lookup_and_order :
  Forall (fun t => getTool (name t) = Some t) tools /\
  (forall n t, getTool n = Some t -> In t tools /\ name t = n) /\
  NoDup (map name tools) /\
  map l_name listTools = registered_names /\
  (forall i t, tools !! i = Some t ->
               listTools !! i = Some (mkListing (name t) (description t) (inputSchema t))).
Proof.
  split; [| split; [| split; [| split]]].
  - repeat constructor.
  - apply getTool_Some.
  - apply (bool_decide_unpack _). vm_compute. reflexivity.
  - reflexivity.
  - intros i t H. unfold listTools. rewrite list_lookup_fmap, H. reflexivity.
Qed.

Lemma registry_witness :
  In search_courses_tool tools /\ name search_courses_tool = "search_courses".
Proof.
  exact (proj1 (proj2 registry_lookup_and_order) "search_courses" search_courses_tool
               eq_refl).
Defined.

(** * Timing metadata *)

Ltac timing_leaf :=
  unfold timing_post;
  let Hr := fresh "Hr" in
  intros ? Hr; try discriminate Hr; injection Hr as <-;
  try match goal with H : _ = _ :> Query |- _ => clear H end;
  unfold timing_shape;
  first
    [ left; eexists; reflexivity
    | right; left; split; reflexivity
    | right; right; split; [reflexivity |];
      unfold duration_ms, elapsed; simpl; world_simpl; reflexivity ].

Lemma searchCourses_timing params w :
  wp (searchCourses params) w (timing_post true w).
Proof. unfold searchCourses. wp_run; timing_leaf. Qed.

Lemma getCourseDetails_timing params w :
  wp (getCourseDetails params) w (timing_post true w).
Proof. unfold getCourseDetails. wp_run; timing_leaf. Qed.

Lemma getRecommendedCourses_timing params w :
  wp (getRecommendedCourses params) w (timing_post true w).
Proof. unfold getRecommendedCourses. wp_run; timing_leaf. Qed.

Lemma findCourseByName_timing courseName w :
  wp (findCourseByName courseName) w (timing_post true w).
Proof. unfold findCourseByName. wp_run; timing_leaf. Qed.

Lemma searchAccommodations_timing params w :
  wp (searchAccommodations params) w (timing_post true w).
Proof. unfold searchAccommodations. wp_run; timing_leaf. Qed.

Lemma getAccommodationDetails_timing params w :
  wp (getAccommodationDetails params) w (timing_post true w).
Proof. unfold getAccommodationDetails. wp_run; timing_leaf. Qed.

Lemma getGolfResorts_timing region w :
  wp (getGolfResorts region) w (timing_post true w).
Proof. unfold getGolfResorts. wp_run; timing_leaf. Qed.

Lemma getSupplierRates_timing params w :
  wp (getSupplierRates params) w (timing_post true w).
Proof. unfold getSupplierRates. wp_run; timing_leaf. Qed.

Lemma hasNegotiatedRate_timing params w :
  wp (hasNegotiatedRate params) w (timing_post false w).
Proof. unfold hasNegotiatedRate. wp_run; timing_leaf. Qed.

Lemma getOperatorSuppliers_timing operatorId w :
  wp (getOperatorSuppliers operatorId) w (timing_post false w).
Proof. unfold getOperatorSuppliers. wp_run; timing_leaf. Qed.

Lemma find_course_by_name_timing params w :
  wp (courseName ← lift (prop params "courseName"); findCourseByName courseName) w
     (timing_post true w).
Proof.
  wp_step. wp_step. wp_step.
  - apply findCourseByName_timing.
  - timing_leaf.
Qed.

Lemma get_operator_suppliers_timing params w :
  wp (operatorId ← lift (prop params "operatorId"); getOperatorSuppliers operatorId) w
     (timing_post false w).
Proof.
  wp_step. wp_step. wp_step.
  - apply getOperatorSuppliers_timing.
  - timing_leaf.
Qed.

(** The three shapes, for every registered handler. *)
Lemma registered_timing :
  forall t args w r w',
    In t tools ->
    execute t args w = (Return r, w') ->
    timing_shape (timed (name t)) w r.
Proof.
  intros t args w r w' Hin Hexec.
  assert (wp (execute t args) w (timing_post (timed (name t)) w)) as Hwp.
  { simpl in Hin.
    repeat (destruct Hin as [<- | Hin]); simpl execute;
      [ apply searchCourses_timing
      | apply getCourseDetails_timing
      | apply getRecommendedCourses_timing
      | apply find_course_by_name_timing
      | apply searchAccommodations_timing
      | apply getAccommodationDetails_timing
      | apply getGolfResorts_timing
      | apply getSupplierRates_timing
      | apply hasNegotiatedRate_timing
      | apply get_operator_suppliers_timing
      | destruct Hin ]. }
  exact (wp_elim _ _ _ _ _ Hwp Hexec r eq_refl).
Qed.


(** Served from the cache, the result has no duration either. *)
Example cache_hit_has_no_duration :
  exists r, (searchCourses demo_search demo_cached).1 = Return r /\
            metadata r = Some [("cached", VBool true)] /\ duration_ms r = None.
Proof. eexists. split; [vm_compute; reflexivity | split; reflexivity]. Qed.


(** * Store failures *)

(** Closes a leaf of a [reports_store_error] goal. *)
Ltac store_error_leaf :=
  unfold reports_store_error;
  let Hr := fresh "Hr" in
  let Hsent := fresh "Hsent" in
  let Herr := fresh "Herr" in
  intros ? ? ? Hr Hsent Herr;
  try match goal with H : _ = _ :> Query |- _ => clear H end;
  world_simpl;
  first
    [ exfalso; exact (app_tail_self _ _ Hsent)
    | apply app_inj_tail in Hsent as [_ <-];
      first
        [ congruence
        | match goal with
          | H : reply_error _ = Some _ |- _ =>
              rewrite H in Herr; injection Herr as <-; injection Hr as <-;
              split; [reflexivity | eexists; split; [reflexivity | apply contains_suffix]]
          end ] ].

Lemma searchCourses_store_error params w :
  wp (searchCourses params) w (reports_store_error w).
Proof. unfold searchCourses. wp_run; store_error_leaf. Qed.

Lemma getCourseDetails_store_error params w :
  wp (getCourseDetails params) w (reports_store_error w).
Proof. unfold getCourseDetails. wp_run; store_error_leaf. Qed.

Lemma getRecommendedCourses_store_error params w :
  wp (getRecommendedCourses params) w (reports_store_error w).
Proof. unfold getRecommendedCourses. wp_run; store_error_leaf. Qed.

Lemma findCourseByName_store_error courseName w :
  wp (findCourseByName courseName) w (reports_store_error w).
Proof. unfold findCourseByName. wp_run; store_error_leaf. Qed.

Lemma searchAccommodations_store_error params w :
  wp (searchAccommodations params) w (reports_store_error w).
Proof. unfold searchAccommodations. wp_run; store_error_leaf. Qed.

Lemma getAccommodationDetails_store_error params w :
  wp (getAccommodationDetails params) w (reports_store_error w).
Proof. unfold getAccommodationDetails. wp_run; store_error_leaf. Qed.

Lemma getGolfResorts_store_error region w :
  wp (getGolfResorts region) w (reports_store_error w).
Proof. unfold getGolfResorts. wp_run; store_error_leaf. Qed.

Lemma getSupplierRates_store_error params w :
  wp (getSupplierRates params) w (reports_store_error w).
Proof. unfold getSupplierRates. wp_run; store_error_leaf. Qed.

Lemma getOperatorSuppliers_store_error operatorId w :
  wp (getOperatorSuppliers operatorId) w (reports_store_error w).
Proof. unfold getOperatorSuppliers. wp_run; store_error_leaf. Qed.

Lemma hasNegotiatedRate_store_error params w :
  wp (hasNegotiatedRate params) w
     (fun o w' => forall r q m,
          o = Return r -> sent w' = sent w ++ [q] ->
          reply_error (Postgres.run (supabase w) q) = Some m -> r = no_rate).
Proof.
  unfold hasNegotiatedRate. wp_run; intros r' q' m' Hr Hsent Herr;
    try clear Hquery; world_simpl;
    try (exfalso; exact (app_tail_self _ _ Hsent)).
  - injection Hr as <-. reflexivity.
  - apply app_inj_tail in Hsent as [_ <-]. rewrite Herr in *. discriminate.
Qed.

(** The handlers behind the three plain-object tools. *)
Lemma find_course_by_name_store_error params w :
  wp (courseName ← lift (prop params "courseName"); findCourseByName courseName) w
     (reports_store_error w).
Proof.
  wp_step. wp_step. wp_step.
  - apply findCourseByName_store_error.
  - store_error_leaf.
Qed.

Lemma get_operator_suppliers_store_error params w :
  wp (operatorId ← lift (prop params "operatorId"); getOperatorSuppliers operatorId) w
     (reports_store_error w).
Proof.
  wp_step. wp_step. wp_step.
  - apply getOperatorSuppliers_store_error.
  - store_error_leaf.
Qed.




(** * The cache as an optimisation (utils/cache.ts) *)

Lemma backing_getCached k w : backing (getCached_post k w) = backing w.
Proof. unfold backing. world_simpl. reflexivity. Qed.
Lemma backing_setCached k v t w : backing (setCached_post k v t w) = backing w.
Proof. unfold backing. world_simpl. reflexivity. Qed.
Lemma backing_getSupabaseClient w : backing (getSupabaseClient_post w) = backing w.
Proof. unfold backing. world_simpl. reflexivity. Qed.

Section Simulation.

Context {A B : Type}.

Lemma sim_weaken (m : M A) : sim agree m -> sim cold m.
Proof. intros H w1 w2 (Hag & _ & _). apply H, Hag. Qed.

Lemma sim_ret (a : A) : sim agree (mret a).
Proof. intros w1 w2 H. split; [reflexivity | exact H]. Qed.

Lemma sim_lift (o : Outcome A) : sim agree (lift o).
Proof. intros w1 w2 H. split; [reflexivity | exact H]. Qed.

Lemma sim_throw (e : JsError) : sim agree (throw e : M A).
Proof. intros w1 w2 H. split; [reflexivity | exact H]. Qed.

Lemma sim_bind (m : M A) (k : A -> M B) :
  sim agree m -> (forall a, sim agree (k a)) -> sim agree (m ≫= k).
Proof.
  intros Hm Hk w1 w2 H. rewrite !bind_unfold.
  destruct (Hm w1 w2 H) as [Hv Hw].
  destruct (m w1) as [o1 w1'], (m w2) as [o2 w2']. simpl in Hv, Hw. subst o2.
  destruct o1 as [a | e]; [apply Hk, Hw | split; [reflexivity | exact Hw]].
Qed.

Lemma sim_try (body : M A) (c : JsError -> M A) :
  sim agree body -> (forall e, sim agree (c e)) -> sim agree (try_catch body c).
Proof.
  intros Hm Hc w1 w2 H. unfold try_catch.
  destruct (Hm w1 w2 H) as [Hv Hw].
  destruct (body w1) as [o1 w1'], (body w2) as [o2 w2']. simpl in Hv, Hw. subst o2.
  destruct o1 as [a | e]; [split; [reflexivity | exact Hw] | apply Hc, Hw].
Qed.

Lemma cold_try (body : M A) (c : JsError -> M A) :
  sim cold body -> (forall e, sim agree (c e)) -> sim cold (try_catch body c).
Proof.
  intros Hm Hc w1 w2 H. unfold try_catch.
  destruct (Hm w1 w2 H) as [Hv Hw].
  destruct (body w1) as [o1 w1'], (body w2) as [o2 w2']. simpl in Hv, Hw. subst o2.
  destruct o1 as [a | e]; [split; [reflexivity | exact Hw] | apply Hc, Hw].
Qed.

End Simulation.

Lemma sim_Date_now : sim agree Date_now.
Proof.
  intros w1 w2 H. unfold agree, backing in *. injection H as Hs Hc Ht.
  simpl. rewrite Hs, Hc, Ht. split; reflexivity.
Qed.

Lemma sim_logger lvl msg m : sim agree (logger lvl msg m).
Proof. intros w1 w2 H. rewrite !logger_eq. split; [reflexivity | exact H]. Qed.

Lemma sim_await q : sim agree (Supa.await q).
Proof.
  intros w1 w2 H. unfold agree, backing in *. injection H as Hs Hc Ht.
  simpl. rewrite Hs, Hc, Ht. split; reflexivity.
Qed.

Lemma sim_setCached key v ttl : sim agree (setCached key v ttl).
Proof.
  intros w1 w2 H. rewrite !setCached_eq. simpl. split; [reflexivity |].
  unfold agree. rewrite !backing_setCached. exact H.
Qed.

Lemma sim_getSupabaseClient : sim agree getSupabaseClient.
Proof.
  intros w1 w2 H. rewrite !getSupabaseClient_eq. simpl. split; [reflexivity |].
  unfold agree. rewrite !backing_getSupabaseClient. exact H.
Qed.

Lemma cold_bind_Date_now {B : Type} (k : Z -> M B) :
  (forall a, sim cold (k a)) -> sim cold (Date_now ≫= k).
Proof.
  intros Hk w1 w2 (Hag & H1 & H2). rewrite !bind_unfold.
  unfold agree, backing in Hag. injection Hag as Hs Hc Ht.
  unfold Date_now. rewrite Hc, Ht. apply Hk. split; [| split].
  - unfold agree, backing. simpl. rewrite Hs, Hc. reflexivity.
  - apply misses_with_ticks, H1.
  - apply misses_with_ticks, H2.
Qed.

Lemma cold_bind_lift {A B : Type} (o : Outcome A) (k : A -> M B) :
  (forall a, sim cold (k a)) -> sim cold (lift o ≫= k).
Proof.
  intros Hk w1 w2 H. rewrite !bind_unfold. unfold lift.
  destruct o as [a | e]; [apply Hk, H | split; [reflexivity | apply H]].
Qed.

Lemma cold_bind_getCached {B : Type} key (k : JsVal -> M B) :
  sim agree (k VNull) -> sim cold (getCached key ≫= k).
Proof.
  intros Hk w1 w2 (Hag & H1 & H2). rewrite !bind_unfold.
  specialize (H1 key). specialize (H2 key).
  rewrite getCached_eq in H1 |- *. rewrite getCached_eq in H2 |- *.
  simpl in H1, H2. injection H1 as ->. injection H2 as ->.
  apply Hk. unfold agree. rewrite !backing_getCached. exact Hag.
Qed.

(** One step of a simulation proof. *)
Ltac sim_step :=
  lazymatch goal with
  | |- sim agree (_ ≫= _) => apply sim_bind; [| intros ?]
  | |- sim agree (try_catch _ _) => apply sim_try; [| intros ?]
  | |- sim agree (mret _) => apply sim_ret
  | |- sim agree (lift _) => apply sim_lift
  | |- sim agree (throw _) => apply sim_throw
  | |- sim agree Date_now => apply sim_Date_now
  | |- sim agree (logger _ _ _) => apply sim_logger
  | |- sim agree (Supa.await _) => apply sim_await
  | |- sim agree (setCached _ _ _) => apply sim_setCached
  | |- sim agree getSupabaseClient => apply sim_getSupabaseClient
  | |- sim agree (if ?b then _ else _) => destruct b
  | |- sim agree (match ?x with Some _ => _ | None => _ end) => destruct x
  | |- sim cold (Date_now ≫= _) => apply cold_bind_Date_now; intros ?
  | |- sim cold (lift _ ≫= _) => apply cold_bind_lift; intros ?
  | |- sim cold (getCached _ ≫= _) =>
      apply cold_bind_getCached; cbv beta iota delta [truthy]
  | |- sim cold (try_catch _ _) => apply cold_try; [| intros ?]
  | |- sim cold _ => apply sim_weaken
  end.

Ltac sim_run := cbv zeta; repeat sim_step.

Lemma searchCourses_sim params : sim cold (searchCourses params).
Proof. unfold searchCourses. sim_run. Qed.

Lemma getCourseDetails_sim params : sim cold (getCourseDetails params).
Proof. unfold getCourseDetails. sim_run. Qed.

Lemma getRecommendedCourses_sim params : sim cold (getRecommendedCourses params).
Proof. unfold getRecommendedCourses. sim_run. Qed.

Lemma findCourseByName_sim courseName : sim cold (findCourseByName courseName).
Proof. unfold findCourseByName. sim_run. Qed.

Lemma searchAccommodations_sim params : sim cold (searchAccommodations params).
Proof. unfold searchAccommodations. sim_run. Qed.

Lemma getAccommodationDetails_sim params : sim cold (getAccommodationDetails params).
Proof. unfold getAccommodationDetails. sim_run. Qed.

Lemma getGolfResorts_sim region : sim cold (getGolfResorts region).
Proof. unfold getGolfResorts. sim_run. Qed.

Lemma getSupplierRates_sim params : sim cold (getSupplierRates params).
Proof. unfold getSupplierRates. sim_run. Qed.

Lemma hasNegotiatedRate_sim params : sim cold (hasNegotiatedRate params).
Proof. unfold hasNegotiatedRate. sim_run. Qed.

Lemma getOperatorSuppliers_sim operatorId : sim cold (getOperatorSuppliers operatorId).
Proof. unfold getOperatorSuppliers. sim_run. Qed.

Lemma registered_handlers_sim t args : In t tools -> sim cold (execute t args).
Proof.
  intros Hin. simpl in Hin.
  repeat (destruct Hin as [<- | Hin]); simpl execute;
    [ apply searchCourses_sim
    | apply getCourseDetails_sim
    | apply getRecommendedCourses_sim
    | apply cold_bind_lift; intros ?; apply findCourseByName_sim
    | apply searchAccommodations_sim
    | apply getAccommodationDetails_sim
    | apply getGolfResorts_sim
    | apply getSupplierRates_sim
    | apply hasNegotiatedRate_sim
    | apply cold_bind_lift; intros ?; apply getOperatorSuppliers_sim
    | destruct Hin ].
Qed.

Lemma disabled_condition w :
  cache_disabled w -> negb (ENABLE_CACHE (env w)) || unset (REDIS_URL (env w)) = true.
Proof.
  intros [H | H]; rewrite H; [reflexivity | apply orb_true_r].
Qed.

Lemma unreachable_condition w :
  cache_unreachable w -> negb (ENABLE_CACHE (env w)) || unset (REDIS_URL (env w)) = false.
Proof. intros (H1 & H2 & _). rewrite H1, H2. reflexivity. Qed.

Lemma getCached_disabled key w : cache_disabled w -> getCached key w = (Return VNull, w).
Proof.
  intros H. unfold getCached. rewrite bind_unfold. unfold getRedisClient.
  rewrite (disabled_condition w H). reflexivity.
Qed.

Lemma setCached_disabled key v ttl w :
  cache_disabled w -> setCached key v ttl w = (Return tt, w).
Proof.
  intros H. unfold setCached. rewrite bind_unfold. unfold getRedisClient.
  rewrite (disabled_condition w H). reflexivity.
Qed.

Lemma getCached_unreachable key w :
  cache_unreachable w ->
  exists w' m,
    getCached key w = (Return VNull, w') /\ redis w' = redis w /\
    log w' = log w ++ logged (env w) (mkLog "warn" "Cache get failed" m).
Proof.
  intros H. pose proof (unreachable_condition w H) as Hc. destruct H as (_ & _ & Hdown).
  unfold getCached. rewrite bind_unfold. unfold getRedisClient. rewrite Hc.
  destruct (redisClient w); cbn [negb]; cbv beta iota;
    unfold try_catch, redis_get; cbv beta iota; rewrite bind_unfold;
    cbv beta iota zeta; cbn [redis with_redisClient]; rewrite Hdown; cbv beta iota;
    rewrite logger_bind; simpl; eauto.
Qed.

Lemma setCached_unreachable key v ttl w :
  cache_unreachable w ->
  exists w' m,
    setCached key v ttl w = (Return tt, w') /\ redis w' = redis w /\
    log w' = log w ++ logged (env w) (mkLog "warn" "Cache set failed" m).
Proof.
  intros H. pose proof (unreachable_condition w H) as Hc. destruct H as (_ & _ & Hdown).
  unfold setCached. rewrite bind_unfold. unfold getRedisClient. rewrite Hc.
  destruct (redisClient w); cbn [negb]; cbv beta iota;
    unfold try_catch, redis_setex; cbv beta iota zeta;
    cbn [redis with_redisClient]; rewrite Hdown; cbv beta iota;
    rewrite logger_eq; simpl; eauto.
Qed.

Lemma logged_warn e l :
  level l = "warn" ->
  (LOG_LEVEL e <> LogError -> logged e l = [l]) /\
  (LOG_LEVEL e = LogError -> logged e l = []).
Proof.
  intros Hl. unfold logged. rewrite Hl.
  pose proof (written_warn e) as Hw.
  destruct (written e "warn"); split; intros H; try reflexivity.
  - destruct (proj1 Hw eq_refl H).
  - apply Hw in H. discriminate H.
Qed.

Lemma no_backend_misses w : cache_disabled w \/ cache_unreachable w -> misses w.
Proof.
  intros [H | H] key.
  - rewrite (getCached_disabled key w H). reflexivity.
  - destruct (getCached_unreachable key w H) as (w' & m & -> & _). reflexivity.
Qed.




(** * Arguments tested for truthiness *)

Ltac limit_rule_leaf :=
  unfold limit_rule; split;
  [ intros [Hl | Hl]; rewrite Hl; reflexivity
  | intros n Hn Hl; rewrite Hl; simpl; unfold Js.or; rewrite truthy_num;
    destruct (Z.eqb_spec n 0); [contradiction | reflexivity] ].

Ltac price_rule_leaf :=
  unfold price_rule; simpl q_filters;
  repeat split;
  [ intros Hp; rewrite Hp in *; simpl;
    repeat match goal with
           | |- context [if truthy ?v then _ else _] => destruct (truthy v)
           end; simpl; repeat first [apply List.Forall_nil | apply List.Forall_cons; [discriminate |]]
  | intros Hp; rewrite Hp in *; simpl;
    repeat match goal with
           | |- context [if truthy ?v then _ else _] => destruct (truthy v)
           end; simpl; repeat first [apply List.Forall_nil | apply List.Forall_cons; [discriminate |]]
  | intros n Hn Hp; rewrite Hp in *; cbn [from_option id];
    rewrite !(truthy_nonzero n Hn); simpl;
    repeat match goal with
           | |- context [if truthy ?v then _ else _] => destruct (truthy v)
           end; simpl; rewrite ?in_app_iff; simpl; tauto
  | intros n Hn Hp; rewrite Hp in *; cbn [from_option id];
    rewrite !(truthy_nonzero n Hn); simpl;
    repeat match goal with
           | |- context [if truthy ?v then _ else _] => destruct (truthy v)
           end; simpl; rewrite ?in_app_iff; simpl; tauto ].

Lemma searchCourses_zero fs w :
  misses w ->
  wp (searchCourses (VObj fs)) w
     (sends_one (fun q => limit_rule 20 fs q /\
                          price_rule "green_fee_standard_cents" fs q) w).
Proof.
  intros Hmiss. unfold searchCourses. wp_run; read_fields;
    try (rewrite (misses_val _ _ _ Hmiss) in *; discriminate);
    forget_replies;
    unfold sends_one; eexists; (split; [world_simpl; reflexivity |]);
    subst; (split; [limit_rule_leaf | price_rule_leaf]).
Qed.

Lemma searchAccommodations_zero fs w :
  misses w ->
  wp (searchAccommodations (VObj fs)) w
     (sends_one (fun q => limit_rule 20 fs q /\
                          price_rule "standard_rate_cents" fs q) w).
Proof.
  intros Hmiss. unfold searchAccommodations. wp_run; read_fields;
    try (rewrite (misses_val _ _ _ Hmiss) in *; discriminate);
    forget_replies;
    unfold sends_one; eexists; (split; [world_simpl; reflexivity |]);
    subst; (split; [limit_rule_leaf | price_rule_leaf]).
Qed.

Lemma getRecommendedCourses_zero fs tier w :
  misses w ->
  In tier budget_tiers ->
  field_of "budget_tier" fs = Some (VStr tier) ->
  wp (getRecommendedCourses (VObj fs)) w (sends_one (limit_rule 10 fs) w).
Proof.
  intros Hmiss Htier Hfield. unfold getRecommendedCourses.
  simpl in Htier. destruct Htier as [<- | [<- | [<- | []]]];
    wp_run; read_fields;
    try (rewrite (misses_val _ _ _ Hmiss) in *; discriminate);
    forget_replies; rewrite Hfield in *; known_outcomes;
    unfold sends_one; eexists; (split; [world_simpl; reflexivity |]);
    subst; simpl; limit_rule_leaf.
Qed.

(** C10. In the two search handlers and the recommendation handler, a limit
    of 0 gives the query the default limit (20 for the searches, 10 for
    recommendations), exactly as an absent limit does, while any other limit
    is passed on; in the search handlers a minimum or maximum price of 0 adds
    no price filter to the query, while any other bound adds one. *)
Theorem zero_is_treated_as_absent :
  forall fs w,
    misses w ->
    (exists q, sent (searchCourses (VObj fs) w).2 = sent w ++ [q] /\
               limit_rule 20 fs q /\ price_rule "green_fee_standard_cents" fs q) /\
    (exists q, sent (searchAccommodations (VObj fs) w).2 = sent w ++ [q] /\
               limit_rule 20 fs q /\ price_rule "standard_rate_cents" fs q) /\
    (forall tier,
        In tier budget_tiers ->
        field_of "budget_tier" fs = Some (VStr tier) ->
        exists q, sent (getRecommendedCourses (VObj fs) w).2 = sent w ++ [q] /\
                  limit_rule 10 fs q).
Proof.
  intros fs w Hmiss. split; [| split].
  - exact (searchCourses_zero fs w Hmiss).
  - exact (searchAccommodations_zero fs w Hmiss).
  - intros tier Htier Hfield. exact (getRecommendedCourses_zero fs tier w Hmiss Htier Hfield).
Qed.

Lemma zero_limit_witness :
  exists q, sent (searchCourses (VObj [("region", VStr "ireland"); ("limit", VNum 0)])
                                demo_world).2 = sent demo_world ++ [q] /\
            q_limit q = Some (VNum 20).
Proof.
  destruct (proj1 (zero_is_treated_as_absent
                     [("region", VStr "ireland"); ("limit", VNum 0)] demo_world
                     (empty_cache_misses demo_world eq_refl)))
    as (q & Hsent & Hlimit & _).
  exists q. split; [exact Hsent |]. apply (proj1 Hlimit). right. reflexivity.
Defined.

Example search_limit_zero_rows :
  exists r, (searchCourses (VObj [("region", VStr "ireland"); ("limit", VNum 0)])
                           demo_world).1 = Return r /\
            data r = Some (VArr [VObj (demo_course "c" "West IRELAND" 50 9000);
                                 VObj (demo_course "a" "Southwest Ireland" 45 15000)]).
Proof. eexists. split; [vm_compute; reflexivity | reflexivity]. Qed.


(** * Recommended courses (tools/courses.ts) *)

Section Like.

Import Postgres.

Lemma like_ordinary c p s :
  ordinary c = true ->
  like (c :: p) s = match s with
                    | [] => false
                    | x :: s' => Ascii.eqb c x && like p s'
                    end.
Proof.
  unfold ordinary. intros H. apply negb_true_iff in H.
  apply orb_false_iff in H as [H Hesc]. apply orb_false_iff in H as [Hany Hone].
  simpl. rewrite Hany, Hone, Hesc. reflexivity.
Qed.

Lemma like_percent s : like ["%"%char] s = true.
Proof.
  induction s as [| x s IH]; [reflexivity |].
  change (like ["%"%char] (x :: s)) with (like [] (x :: s) || like ["%"%char] s).
  rewrite IH. apply orb_true_r.
Qed.

Lemma like_percent_cons p x s :
  like ("%"%char :: p) (x :: s) = like p (x :: s) || like ("%"%char :: p) s.
Proof. reflexivity. Qed.

Lemma like_percent_nil p : like ("%"%char :: p) [] = like p [].
Proof. simpl. apply orb_false_r. Qed.

Lemma like_prefix lit s :
  forallb ordinary lit = true ->
  like (lit ++ ["%"%char]) s = Spec.is_prefix lit s.
Proof.
  revert s. induction lit as [| c lit IH]; intros s Hlit.
  - simpl app. rewrite like_percent. destruct s; reflexivity.
  - simpl in Hlit. apply andb_true_iff in Hlit as [Hc Hlit].
    change ((c :: lit) ++ ["%"%char]) with (c :: (lit ++ ["%"%char])).
    rewrite (like_ordinary c _ s Hc).
    destruct s as [| x s]; [reflexivity |]. simpl. rewrite (IH s Hlit). reflexivity.
Qed.

Lemma like_substring lit s :
  forallb ordinary lit = true ->
  like ("%"%char :: lit ++ ["%"%char]) s = Spec.occurs lit s.
Proof.
  intros Hlit. induction s as [| x s IH].
  - rewrite like_percent_nil, (like_prefix lit [] Hlit). simpl. symmetry. apply orb_false_r.
  - rewrite like_percent_cons, IH, (like_prefix lit (x :: s) Hlit). reflexivity.
Qed.

Lemma ordinary_lower c : ordinary (lower c) = ordinary c.
Proof. destruct c as [[] [] [] [] [] [] [] []]; reflexivity. Qed.

Lemma chars_append a b :
  list_ascii_of_string (a +:+ b) = list_ascii_of_string a ++ list_ascii_of_string b.
Proof.
  induction a as [| c a IH]; [reflexivity |].
  change (String c a +:+ b) with (String c (a +:+ b)). simpl. rewrite IH. reflexivity.
Qed.

(** For a literal region the pattern the handler builds is a
    case-insensitive substring test. *)
Lemma ilike_substring region s :
  literal region = true ->
  ilike ("%" +:+ region +:+ "%") s = Spec.region_matches region s.
Proof.
  intros Hlit. unfold ilike, Spec.region_matches, Spec.lower_string.
  rewrite !chars_append, !fmap_app.
  change (lower <$> list_ascii_of_string "%") with ["%"%char].
  change (["%"%char] ++ ?l) with ("%"%char :: l).
  apply like_substring.
  unfold literal in Hlit. rewrite forallb_forall in Hlit |- *.
  intros c Hc. apply in_map_iff in Hc as (c0 & <- & Hc0).
  rewrite ordinary_lower. apply (Hlit c0 Hc0).
Qed.

(** [occurs] is the substring relation. *)
Lemma is_prefix_spec p s : Spec.is_prefix p s = true <-> exists b, s = p ++ b.
Proof.
  revert s. induction p as [| c p IH]; intros s.
  - simpl. split; [intros _; exists s; reflexivity | reflexivity].
  - destruct s as [| x s]; simpl.
    + split; [discriminate | intros [b Hb]; discriminate Hb].
    + rewrite andb_true_iff, IH. split.
      * intros [Hc [b ->]]. apply Ascii.eqb_eq in Hc as ->. exists b. reflexivity.
      * intros [b Hb]. injection Hb as -> ->. split; [apply Ascii.eqb_refl | eauto].
Qed.

Lemma occurs_spec p s : Spec.occurs p s = true <-> exists a b, s = a ++ p ++ b.
Proof.
  induction s as [| x s IH]; simpl; rewrite orb_true_iff, is_prefix_spec.
  - split.
    + intros [[b Hb] | Hf]; [exists [], b; exact Hb | discriminate Hf].
    + intros (a & b & Hab). left. destruct a; [exists b; exact Hab | discriminate Hab].
  - rewrite IH. split.
    + intros [[b Hb] | (a & b & ->)]; [exists [], b; exact Hb | exists (x :: a), b; reflexivity].
    + intros (a & b & Hab). destruct a as [| y a].
      * left. exists b. exact Hab.
      * right. injection Hab as -> ->. eauto.
Qed.

End Like.

#[global] Instance before_total col asc : Total (Postgres.before col asc).
Proof.
  intros r1 r2. unfold Postgres.before.
  destruct asc, (Postgres.order_key col r1) as [x |], (Postgres.order_key col r2) as [y |];
    simpl; auto;
    destruct (Z.leb_spec x y), (Z.leb_spec y x); simpl; auto; lia.
Qed.

(** What the store answers to a filtered, ordered and limited selection. *)
Lemma run_select db table cols filters col n rows :
  outage db = None ->
  field_of table (tables db) = Some rows ->
  0 <= n ->
  Postgres.run db (mkQuery table cols filters (Some (col, false)) (Some (VNum n)) false) =
  mkReply
    (VArr (VObj <$> (Postgres.project cols <$>
             take (Z.to_nat n)
                  (merge_sort (Postgres.before col false)
                     (filter (fun r => forallb (fun f => Postgres.holds f r) filters) rows)))))
    None.
Proof.
  intros Hup Htable Hn. unfold Postgres.run. simpl. rewrite Hup, Htable.
  destruct (Z.leb_spec 0 n); [reflexivity | lia].
Qed.

(** The filters the handler adds for a tier select what the rule says. *)
Lemma tier_filters_select region tier filters row :
  literal region = true ->
  (tier = "budget" /\
   filters = [mkFilter Ilike "region" (VStr ("%" +:+ region +:+ "%"));
              mkFilter Lte "green_fee_standard_cents" (VNum 15000)]) \/
  (tier = "standard" /\
   filters = [mkFilter Ilike "region" (VStr ("%" +:+ region +:+ "%"));
              mkFilter Gte "green_fee_standard_cents" (VNum 15000);
              mkFilter Lte "green_fee_standard_cents" (VNum 35000)]) \/
  (tier = "luxury" /\
   filters = [mkFilter Ilike "region" (VStr ("%" +:+ region +:+ "%"));
              mkFilter Gte "green_fee_standard_cents" (VNum 35000)]) ->
  forallb (fun f => Postgres.holds f row) filters = Spec.recommended region tier row.
Proof.
  intros Hlit Hcase. unfold Spec.recommended.
  destruct Hcase as [[-> ->] | [[-> ->] | [-> ->]]];
    simpl forallb; unfold Postgres.holds; simpl op; simpl column; simpl operand;
    destruct (field_of "region" row) as [[| | | | s | |] |];
    simpl; try reflexivity;
    rewrite (ilike_substring region s Hlit);
    destruct (field_of "green_fee_standard_cents" row) as [[| | | p | | |] |];
    simpl; rewrite ?andb_true_r, ?andb_false_r; reflexivity.
Qed.

Lemma requested_limit_value fs lim :
  requested_limit fs lim ->
  Js.or (default VUndef (field_of "limit" fs)) (VNum 10) = VNum lim /\ 0 <= lim.
Proof.
  intros [[-> ->] | [[-> ->] | [Hpos ->]]]; simpl; try (split; [reflexivity | lia]).
  unfold Js.or. rewrite truthy_nonzero by lia. split; [reflexivity | lia].
Qed.

Lemma recommended_reply db region tier filters lim rows :
  literal region = true ->
  (tier = "budget" /\
   filters = [mkFilter Ilike "region" (VStr ("%" +:+ region +:+ "%"));
              mkFilter Lte "green_fee_standard_cents" (VNum 15000)]) \/
  (tier = "standard" /\
   filters = [mkFilter Ilike "region" (VStr ("%" +:+ region +:+ "%"));
              mkFilter Gte "green_fee_standard_cents" (VNum 15000);
              mkFilter Lte "green_fee_standard_cents" (VNum 35000)]) \/
  (tier = "luxury" /\
   filters = [mkFilter Ilike "region" (VStr ("%" +:+ region +:+ "%"));
              mkFilter Gte "green_fee_standard_cents" (VNum 35000)]) ->
  outage db = None ->
  field_of "golf_courses" (tables db) = Some rows ->
  0 <= lim ->
  Postgres.run db (mkQuery "golf_courses" recommended_columns filters
                           (Some ("rating", false)) (Some (VNum lim)) false) =
  mkReply (recommended_rows region tier lim rows) None.
Proof.
  intros Hlit Hcase Hup Htable Hlim.
  rewrite (run_select db _ _ _ _ lim rows Hup Htable Hlim).
  unfold recommended_rows. repeat f_equal.
  apply list_filter_iff. intros row.
  rewrite (tier_filters_select region tier filters row Hlit Hcase). reflexivity.
Qed.

Lemma getRecommendedCourses_rows fs w region tier rows lim :
  field_of "region" fs = Some (VStr region) ->
  field_of "budget_tier" fs = Some (VStr tier) ->
  In tier budget_tiers ->
  requested_limit fs lim ->
  literal region = true ->
  misses w ->
  outage (supabase w) = None ->
  field_of "golf_courses" (tables (supabase w)) = Some rows ->
  wp (getRecommendedCourses (VObj fs)) w
     (fun o _ => exists r, o = Return r /\ success r = true /\
                           data r = Some (recommended_rows region tier lim rows)).
Proof.
  intros Hregion Htier Hin Hlim Hlit Hmiss Hup Htable.
  destruct (requested_limit_value fs lim Hlim) as [Hor Hpos].
  pose proof (fun key => misses_val key (S (ticks w)) w Hmiss) as Hval.
  unfold getRecommendedCourses.
  simpl in Hin. destruct Hin as [<- | [<- | [<- | []]]];
    cbv zeta;
    repeat first
      [ rewrite Hval | rewrite Htier | rewrite Hregion
      | progress cbn [prop has_key truthy default from_option id toString field_of priceRanges
                      String.eqb Ascii.eqb Bool.eqb bool_decide decide_rel
                      is_Some_dec andb negb Js.eqb prop_opt]
      | wp_step ];
    subst;
    match goal with
    | H : reply_error (Postgres.run ?db ?q) = _ |- _ =>
        world_simpl;
        unfold Supa.from, Supa.select, Supa.ilike, Supa.gte, Supa.lte, Supa.limit,
               Supa.order, Supa.add_filter in H |- *;
        cbn [q_table q_columns q_filters q_order q_limit q_single app] in H |- *;
        rewrite Hor in H; rewrite ?Hor;
        rewrite (recommended_reply (supabase w) region _ _ lim rows Hlit) in H
          by (auto 6);
        rewrite ?(recommended_reply (supabase w) region _ _ lim rows Hlit)
          by (auto 6);
        try discriminate H
    end;
    (eexists; (split; [reflexivity | split; reflexivity])).
Qed.

(** C5, as amended. For a region made of ordinary characters (none of the
    pattern characters percent, asterisk, underscore and backslash) and any
    of the three budget tiers, on a cache miss with the store answering, the
    recommended-courses lookup returns the courses whose region contains the
    requested region, case ignored, and whose price lies in the tier's
    bracket with inclusive bounds, ordered by descending rating and cut off
    after the requested limit when that is positive, after 10 when no limit
    is given or the limit is 0. A price of exactly 15000 lies in both the
    budget and the standard bracket. *)
Theorem recommended_courses_selection :
  (forall fs w region tier rows lim,
      field_of "region" fs = Some (VStr region) ->
      field_of "budget_tier" fs = Some (VStr tier) ->
      In tier budget_tiers ->
      requested_limit fs lim ->
      literal region = true ->
      misses w ->
      outage (supabase w) = None ->
      field_of "golf_courses" (tables (supabase w)) = Some rows ->
      selects fs w region tier rows lim) /\
  (Spec.in_tier "budget" 15000 = true /\ Spec.in_tier "standard" 15000 = true).
Proof.
  split; [| split; reflexivity].
  intros fs w region tier rows lim Hregion Htier Hin Hlim Hlit Hmiss Hup Htable.
  pose proof (getRecommendedCourses_rows fs w region tier rows lim
                Hregion Htier Hin Hlim Hlit Hmiss Hup Htable) as Hwp.
  unfold wp in Hwp. destruct Hwp as (r & Hr & Hok & Hdata).
  exists r, (getRecommendedCourses (VObj fs) w).2,
    (merge_sort (Postgres.before "rating" false)
                (filter (fun c => Spec.recommended region tier c) rows)).
  split; [apply injective_projections; [exact Hr | reflexivity] |].
  split; [exact Hok |].
  split; [apply merge_sort_Permutation |].
  split; [apply (Sorted_merge_sort _) | exact Hdata].
Qed.

Example recommended_budget_ireland :
  exists r, (getRecommendedCourses (VObj demo_recommend) demo_world).1 = Return r /\
            data r = Some (VArr [VObj (demo_course "c" "West IRELAND" 50 9000);
                                 VObj (demo_course "a" "Southwest Ireland" 45 15000)]).
Proof. eexists. split; [vm_compute; reflexivity | reflexivity]. Qed.

Example recommended_limit_zero :
  exists r, (getRecommendedCourses (VObj demo_recommend_zero) demo_world).1 = Return r /\
            data r = Some (VArr [VObj (demo_course "c" "West IRELAND" 50 9000);
                                 VObj (demo_course "a" "Southwest Ireland" 45 15000)]).
Proof. eexists. split; [vm_compute; reflexivity | reflexivity]. Qed.

Example recommended_underscore :
  exists r, (getRecommendedCourses (VObj demo_recommend_any) demo_world).1 = Return r /\
            data r = Some (VArr [VObj (demo_course "b" "Dublin" 48 20000);
                                 VObj (demo_course "a" "Southwest Ireland" 45 15000);
                                 VObj (demo_course "d" "Scotland" 40 35000)]).
Proof. eexists. split; [vm_compute; reflexivity | reflexivity]. Qed.

(** The claim as stated promises truncation to the requested limit and a
    substring match for every region. Asked for 0 budget courses in ireland,
    the lookup returns two; asked for standard courses in the region
    underscore, it returns three, none of whose regions contains an
    underscore. *)
Lemma recommended_limit_and_region_fail :
  ~ selects demo_recommend_zero demo_world "ireland" "budget" demo_courses 0 /\
  ~ selects demo_recommend_any demo_world "_" "standard" demo_courses 10.
Proof.
  split.
  - intros (r & w' & sorted & Hrun & _ & _ & _ & Hdata).
    apply (f_equal fst) in Hrun. vm_compute in Hrun. injection Hrun as <-.
    simpl in Hdata. discriminate Hdata.
  - intros (r & w' & sorted & Hrun & _ & Hperm & _ & Hdata).
    apply (f_equal fst) in Hrun. vm_compute in Hrun. injection Hrun as <-.
    assert (filter (fun c => Spec.recommended "_" "standard" c) demo_courses = []) as Hnone
      by (vm_compute; reflexivity).
    rewrite Hnone in Hperm. apply Permutation_nil_r in Hperm. subst sorted.
    simpl in Hdata. discriminate Hdata.
Qed.

Lemma recommended_witness :
  selects demo_recommend demo_world "ireland" "budget" demo_courses 10.
Proof.
  apply (proj1 recommended_courses_selection); try reflexivity.
  - simpl. auto.
  - right. right. split; [lia | reflexivity].
  - apply empty_cache_misses. reflexivity.
Defined.

(** * How the handlers reach their results *)

(** The environment and the Redis server across the steps of a handler. *)
Lemma env_getCached k w : env (getCached_post k w) = env w.
Proof. apply getCached_post_cases. Qed.
Lemma redis_getCached k w : redis (getCached_post k w) = redis w.
Proof. apply getCached_post_cases. Qed.
Lemma env_setCached k v t w : env (setCached_post k v t w) = env w.
Proof. apply setCached_post_cases. Qed.
Lemma env_getSupabaseClient w : env (getSupabaseClient_post w) = env w.
Proof. apply getSupabaseClient_post_cases. Qed.
Lemma redis_getSupabaseClient w : redis (getSupabaseClient_post w) = redis w.
Proof. apply getSupabaseClient_post_cases. Qed.
Lemma env_with_ticks n w : env (with_ticks n w) = env w.
Proof. reflexivity. Qed.
Lemma env_with_log l w : env (with_log l w) = env w.
Proof. reflexivity. Qed.
Lemma env_with_io l w : env (with_io l w) = env w.
Proof. reflexivity. Qed.
Lemma redis_with_ticks n w : redis (with_ticks n w) = redis w.
Proof. reflexivity. Qed.
Lemma redis_with_log l w : redis (with_log l w) = redis w.
Proof. reflexivity. Qed.
Lemma redis_with_io l w : redis (with_io l w) = redis w.
Proof. reflexivity. Qed.

Create Rewrite HintDb cache.
#[export] Hint Rewrite
  env_getCached redis_getCached env_setCached env_getSupabaseClient redis_getSupabaseClient
  env_with_ticks env_with_log env_with_io
  redis_with_ticks redis_with_log redis_with_io : cache.


Ltac split_ifs :=
  repeat match goal with
         | |- context [if ?b then _ else _] => destruct b
         end.

Ltac served_leaf :=
  unfold served_post;
  let Hr := fresh "Hr" in
  intros ? Hr; try discriminate Hr; injection Hr as <-;
  try match goal with H : reply_error _ = _ |- _ => autorewrite with world in H end;
  autorewrite with world;
  first
    [ eapply served_cached;
      [ reflexivity | eassumption | autorewrite with world; reflexivity
      | autorewrite with cache; reflexivity ]
    | eapply served_exception;
      [ reflexivity | autorewrite with world; reflexivity
      | autorewrite with cache; reflexivity ]
    | eapply served_store_error;
      [ autorewrite with world; reflexivity | eassumption | reflexivity
      | autorewrite with cache; reflexivity ]
    | eapply served_rows;
      [ autorewrite with world; reflexivity
      | subst; simpl; split_ifs; reflexivity
      | eassumption | reflexivity | reflexivity | reflexivity ]
    | eapply served_row;
      [ autorewrite with world; reflexivity
      | subst; simpl; split_ifs; reflexivity
      | eassumption | reflexivity | reflexivity | reflexivity ]
    | eapply served_digest;
      [ autorewrite with world; reflexivity | reflexivity
      | autorewrite with cache; reflexivity ] ].

Lemma searchCourses_served params w : wp (searchCourses params) w (served_post w).
Proof. unfold searchCourses. wp_run; served_leaf. Qed.
Lemma getCourseDetails_served params w : wp (getCourseDetails params) w (served_post w).
Proof. unfold getCourseDetails. wp_run; served_leaf. Qed.
Lemma getRecommendedCourses_served params w :
  wp (getRecommendedCourses params) w (served_post w).
Proof. unfold getRecommendedCourses. wp_run; served_leaf. Qed.
Lemma findCourseByName_served courseName w :
  wp (findCourseByName courseName) w (served_post w).
Proof. unfold findCourseByName. wp_run; served_leaf. Qed.
Lemma searchAccommodations_served params w :
  wp (searchAccommodations params) w (served_post w).
Proof. unfold searchAccommodations. wp_run; served_leaf. Qed.
Lemma getAccommodationDetails_served params w :
  wp (getAccommodationDetails params) w (served_post w).
Proof. unfold getAccommodationDetails. wp_run; served_leaf. Qed.
Lemma getGolfResorts_served region w : wp (getGolfResorts region) w (served_post w).
Proof. unfold getGolfResorts. wp_run; served_leaf. Qed.
Lemma getSupplierRates_served params w : wp (getSupplierRates params) w (served_post w).
Proof. unfold getSupplierRates. wp_run; served_leaf. Qed.
Lemma hasNegotiatedRate_served params w : wp (hasNegotiatedRate params) w (served_post w).
Proof. unfold hasNegotiatedRate. wp_run; served_leaf. Qed.
Lemma getOperatorSuppliers_served operatorId w :
  wp (getOperatorSuppliers operatorId) w (served_post w).
Proof. unfold getOperatorSuppliers. wp_run; served_leaf. Qed.

Lemma find_course_by_name_served params w :
  wp (courseName ← lift (prop params "courseName"); findCourseByName courseName) w
     (served_post w).
Proof.
  wp_step. wp_step. wp_step.
  - apply findCourseByName_served.
  - served_leaf.
Qed.

Lemma get_operator_suppliers_served params w :
  wp (operatorId ← lift (prop params "operatorId"); getOperatorSuppliers operatorId) w
     (served_post w).
Proof.
  wp_step. wp_step. wp_step.
  - apply getOperatorSuppliers_served.
  - served_leaf.
Qed.

(** Every registered handler. *)
Lemma registered_served t args w r w' :
  In t tools -> execute t args w = (Return r, w') -> Served w w' r.
Proof.
  intros Hin Hexec.
  assert (wp (execute t args) w (served_post w)) as Hwp.
  { simpl in Hin.
    repeat (destruct Hin as [<- | Hin]); simpl execute;
      [ apply searchCourses_served
      | apply getCourseDetails_served
      | apply getRecommendedCourses_served
      | apply find_course_by_name_served
      | apply searchAccommodations_served
      | apply getAccommodationDetails_served
      | apply getGolfResorts_served
      | apply getSupplierRates_served
      | apply hasNegotiatedRate_served
      | apply get_operator_suppliers_served
      | destruct Hin ]. }
  exact (wp_elim _ _ _ _ _ Hwp Hexec r eq_refl).
Qed.

(** ** What the store's answer looks like *)

Lemma run_rows_shape db q :
  reply_error (Postgres.run db q) = None ->
  q_single q = false ->
  exists rows, reply_data (Postgres.run db q) = VArr (VObj <$> rows).
Proof.
  unfold Postgres.run. intros Herr Hsingle. rewrite Hsingle in *.
  destruct (outage db); [discriminate Herr |].
  destruct (field_of (q_table q) (tables db)); [| discriminate Herr].
  destruct (q_limit q) as [[| | | n | | |] |]; try discriminate Herr;
    [destruct (0 <=? n); [| discriminate Herr] |]; eexists; reflexivity.
Qed.

Lemma run_row_shape db q :
  reply_error (Postgres.run db q) = None ->
  q_single q = true ->
  exists row, reply_data (Postgres.run db q) = VObj row.
Proof.
  unfold Postgres.run. intros Herr Hsingle. rewrite Hsingle in *.
  destruct (outage db); [discriminate Herr |].
  destruct (field_of (q_table q) (tables db)); [| discriminate Herr].
  destruct (q_limit q) as [[| | | n | | |] |]; try discriminate Herr;
    [destruct (0 <=? n); [| discriminate Herr] |];
    match type of Herr with
    | context [match ?l with [] => _ | _ => _ end] =>
        destruct l as [| r [| r' l']]; try discriminate Herr
    end; eexists; reflexivity.
Qed.

Lemma count_of_rows (rows : list JsVal) :
  count_of (VArr rows) = VNum (Z.of_nat (length rows)).
Proof.
  unfold count_of, prop_opt. simpl. unfold Js.or. rewrite truthy_num.
  destruct (Z.eqb_spec (Z.of_nat (length rows)) 0) as [-> |]; reflexivity.
Qed.

(** X1. Whatever tool and arguments, a result is either a success that
    carries data and no error, or a failure that carries an error message
    and neither data nor metadata. *)
Theorem result_envelope :
  forall t args w r w',
    In t tools ->
    execute t args w = (Return r, w') ->
    (success r = true /\ (exists d, data r = Some d) /\ error r = None) \/
    (success r = false /\ data r = None /\ (exists e, error r = Some e) /\
     metadata r = None).
Proof.
  intros t args w r w' Hin Hexec.
  destruct (registered_served t args w r w' Hin Hexec)
    as [v -> _ _ _ | q m pfx _ _ -> _ | q md _ _ _ -> _ _ | q md _ _ _ -> _ _
        | q d _ -> _ | e -> _ _];
    clear Hexec;
    [ left | right | left | left | left | right ];
    cbn [success data error metadata cache_hit failure];
    repeat split; try reflexivity; eexists; reflexivity.
Qed.

Lemma demo_outage_run :
  execute search_courses_tool demo_search demo_outage = (Return demo_failure, demo_outage_after).
Proof.
  apply (run_result (execute search_courses_tool demo_search) demo_outage demo_failure).
  vm_compute. reflexivity.
Qed.

Lemma demo_world_run :
  execute search_courses_tool demo_search demo_world = (Return demo_answer, demo_world_after).
Proof.
  apply (run_result (execute search_courses_tool demo_search) demo_world demo_answer).
  vm_compute. reflexivity.
Qed.

Lemma search_courses_registered : In search_courses_tool tools.
Proof. simpl. auto. Qed.

Lemma result_envelope_witness :
  (success demo_failure = true /\ (exists d, data demo_failure = Some d) /\
   error demo_failure = None) \/
  (success demo_failure = false /\ data demo_failure = None /\
   (exists e, error demo_failure = Some e) /\ metadata demo_failure = None).
Proof.
  exact (result_envelope search_courses_tool demo_search demo_outage demo_failure
           demo_outage_after search_courses_registered demo_outage_run).
Defined.

(** X2. A handler sends the store at most one query per call. A result served
    from the cache sends none, and every other success sends exactly one. *)
Theorem store_is_asked_at_most_once :
  forall t args w r w',
    In t tools ->
    execute t args w = (Return r, w') ->
    (sent w' = sent w \/ exists q, sent w' = sent w ++ [q]) /\
    ((exists v, r = cache_hit v) -> sent w' = sent w) /\
    (success r = true -> (forall v, r <> cache_hit v) ->
     exists q, sent w' = sent w ++ [q]).
Proof.
  intros t args w r w' Hin Hexec.
  destruct (registered_served t args w r w' Hin Hexec)
    as [v -> _ Hs _ | q m pfx Hs _ -> _ | q md Hs _ _ -> _ Hc | q md Hs _ _ -> _ Hc
        | q d Hs -> _ | e -> Hs _].
  - split; [left; exact Hs |]. split; [intros _; exact Hs |].
    intros _ Hne. destruct (Hne v eq_refl).
  - split; [right; eauto |]. split; [intros [v Hv]; discriminate Hv |].
    intros Hok. discriminate Hok.
  - split; [right; eauto |]. split; [| eauto].
    intros [v Hv]. unfold cache_hit in Hv. injection Hv as _ ->. discriminate Hc.
  - split; [right; eauto |]. split; [| eauto].
    intros [v Hv]. unfold cache_hit in Hv. injection Hv as _ ->. discriminate Hc.
  - split; [right; eauto |]. split; [intros [v Hv]; discriminate Hv | eauto].
  - split; [left; exact Hs |]. split; [intros _; exact Hs |].
    intros Hok. discriminate Hok.
Qed.

Lemma store_is_asked_at_most_once_witness :
  sent demo_world_after = sent demo_world \/
  exists q, sent demo_world_after = sent demo_world ++ [q].
Proof.
  exact (proj1 (store_is_asked_at_most_once search_courses_tool demo_search demo_world
                  demo_answer demo_world_after search_courses_registered demo_world_run)).
Defined.

(** X3. When a result's metadata carries a count, its data is a list and the
    count is the number of its items. *)
Theorem count_is_the_number_of_rows :
  forall t args w r w' md c,
    In t tools ->
    execute t args w = (Return r, w') ->
    metadata r = Some md ->
    field_of "count" md = Some c ->
    exists rows, data r = Some (VArr rows) /\ c = VNum (Z.of_nat (length rows)).
Proof.
  intros t args w r w' md c Hin Hexec Hmd Hcount.
  destruct (registered_served t args w r w' Hin Hexec)
    as [v -> _ _ _ | q m pfx _ _ -> _ | q md' _ Hsingle Herr -> Hc _
        | q md' _ _ _ -> Hc _ | q d _ -> _ | e -> _ _];
    simpl in Hmd; try discriminate Hmd; injection Hmd as <-.
  - discriminate Hcount.
  - destruct (run_rows_shape _ _ Herr Hsingle) as [rows Hrows].
    rewrite Hrows in *. rewrite Hc in Hcount. injection Hcount as <-.
    exists (VObj <$> rows). split; [reflexivity | apply count_of_rows].
  - rewrite Hc in Hcount. discriminate Hcount.
Qed.


Lemma count_witness :
  exists rows, data demo_answer = Some (VArr rows) /\ VNum 2 = VNum (Z.of_nat (length rows)).
Proof.
  exact (count_is_the_number_of_rows search_courses_tool demo_search demo_world demo_answer
           demo_world_after _ (VNum 2) search_courses_registered demo_world_run
           eq_refl eq_refl).
Defined.

(** X21. A call that fails, and a call served from the cache, leave the
    cache as it was: only what the store answered to a successful call is
    ever written to it. *)
Theorem failures_are_not_cached :
  forall t args w r w',
    In t tools ->
    execute t args w = (Return r, w') ->
    (success r = false -> redis w' = redis w) /\
    ((exists v, r = cache_hit v) -> redis w' = redis w).
Proof.
  intros t args w r w' Hin Hexec.
  destruct (registered_served t args w r w' Hin Hexec)
    as [v -> _ _ Hr | q m pfx _ _ -> Hr | q md _ _ _ -> _ Hc | q md _ _ _ -> _ Hc
        | q d _ -> Hr | e -> _ Hr];
    (split; [intros Hfail; try discriminate Hfail; exact Hr |]);
    intros [v' Hv]; try discriminate Hv; try exact Hr;
    unfold cache_hit in Hv; injection Hv as _ ->; discriminate Hc.
Qed.

Lemma failures_are_not_cached_witness : redis demo_outage_after = redis demo_outage.
Proof.
  exact (proj1 (failures_are_not_cached search_courses_tool demo_search demo_outage
                  demo_failure demo_outage_after search_courses_registered demo_outage_run)
               eq_refl).
Defined.

(** * Validation (types/tools.ts) *)

Lemma check_object shape p fs :
  check (z_object shape) p (VObj fs) =
  match checked_fields p fs shape with
  | (out, []) => inl (VObj out)
  | (_, errs) => inr errs
  end.
Proof. reflexivity. Qed.

(** A rejected value comes with at least one issue. *)
Lemma check_issues_nonempty t p v : check t p v <> inr [].
Proof.
  revert p v. induction t; intros p v; simpl.
  - destruct v; discriminate.
  - destruct v as [| | | | s | |]; try discriminate. destruct (is_uuid s); discriminate.
  - destruct v; discriminate.
  - destruct v as [| | | | s | |]; try discriminate.
    destruct (existsb (String.eqb s) values); discriminate.
  - destruct v as [| | | | | l |]; try discriminate.
    match goal with |- context [match ?x with (_, _) => _ end] => destruct x as [vs [| e errs]] end;
      discriminate.
  - destruct v; try apply IHt. discriminate.
  - destruct v; apply IHt.
  - apply IHt.
  - destruct v as [| | | | | | fs]; try discriminate.
    match goal with |- context [match ?x with (_, _) => _ end] => destruct x as [vs [| e errs]] end;
      discriminate.
Qed.

Lemma checked_fields_cons p fs k tk shape :
  checked_fields p fs ((k, tk) :: shape) =
  let '(out, errs) := checked_fields p fs shape in
  match check tk (p ++ [k]) (default VUndef (field_of k fs)) with
  | inl VUndef =>
      (if bool_decide (is_Some (field_of k fs)) then (k, VUndef) :: out else out, errs)
  | inl x => ((k, x) :: out, errs)
  | inr e => (out, e ++ errs)
  end.
Proof. reflexivity. Qed.

(** The walk succeeds exactly when every field passes, and then keeps what
    [checked_field] says, in the order of the shape. *)
Lemma checked_fields_ok p fs shape out :
  checked_fields p fs shape = (out, []) <->
  Forall (field_accepted p fs) shape /\
  out = omap (fun kt => checked_field p fs kt.1 kt.2) shape.
Proof.
  revert out. induction shape as [| [k tk] shape IH]; intros out.
  - simpl. split.
    + intros H. injection H as <-. split; [constructor | reflexivity].
    + intros [_ ->]. reflexivity.
  - rewrite checked_fields_cons.
    destruct (checked_fields p fs shape) as [out' errs'] eqn:Hrest.
    change (omap (fun kt => checked_field p fs kt.1 kt.2) ((k, tk) :: shape))
      with (match checked_field p fs k tk with
            | Some y => y :: omap (fun kt => checked_field p fs kt.1 kt.2) shape
            | None => omap (fun kt => checked_field p fs kt.1 kt.2) shape
            end).
    unfold checked_field.
    rewrite Forall_cons. unfold field_accepted at 1. simpl fst. simpl snd.
    destruct (check tk (p ++ [k]) (default VUndef (field_of k fs))) as [x | e] eqn:Hcheck.
    + split.
      * intros H.
        assert (errs' = []) as -> by (destruct x; try destruct (bool_decide _); congruence).
        destruct (proj1 (IH out') eq_refl) as [Hall ->].
        split; [split; [eauto | exact Hall] |].
        destruct x; try destruct (bool_decide _); injection H as <-; reflexivity.
      * intros [[_ Hall] ->].
        destruct errs' as [| e' errs'].
        -- destruct (proj1 (IH out') eq_refl) as [_ ->].
           destruct x; try destruct (bool_decide _); reflexivity.
        -- exfalso.
           pose proof (proj2 (IH (omap (fun kt => checked_field p fs kt.1 kt.2) shape))
                         (conj Hall eq_refl)) as Hbad.
           discriminate Hbad.
    + split.
      * intros H. exfalso. injection H as _ Happ.
        apply app_eq_nil in Happ as [-> _].
        exact (check_issues_nonempty _ _ _ Hcheck).
      * intros [[[x Hx] _] _]. discriminate Hx.
Qed.

(** [parse] on an object schema: only objects pass, and what comes out is
    what [checked_field] keeps of each declared field. *)
Lemma parse_object shape raw args :
  Zod.parse (z_object shape) raw = Return args <->
  exists fs, raw = VObj fs /\ Forall (field_accepted [] fs) shape /\
             args = VObj (omap (fun kt => checked_field [] fs kt.1 kt.2) shape).
Proof.
  unfold Zod.parse. split.
  - intros H. destruct raw as [| | | | | | fs]; try discriminate H.
    rewrite check_object in H.
    destruct (checked_fields [] fs shape) as [out [| e errs]] eqn:Hwalk;
      [| discriminate H].
    injection H as <-. apply checked_fields_ok in Hwalk as [Hall ->]. eauto.
  - intros (fs & -> & Hall & ->). rewrite check_object.
    rewrite (proj2 (checked_fields_ok [] fs shape _) (conj Hall eq_refl)). reflexivity.
Qed.

Lemma checked_fields_agree p shape fs fs' :
  agree_on shape fs fs' -> checked_fields p fs shape = checked_fields p fs' shape.
Proof.
  induction shape as [| [k tk] shape IH]; intros Hagree; [reflexivity |].
  rewrite !checked_fields_cons.
  rewrite IH by (intros k' Hk'; apply Hagree; right; exact Hk').
  rewrite (Hagree k) by (left; reflexivity). reflexivity.
Qed.

Lemma parse_agree shape fs fs' :
  agree_on shape fs fs' ->
  Zod.parse (z_object shape) (VObj fs) = Zod.parse (z_object shape) (VObj fs').
Proof.
  intros Hagree. unfold Zod.parse. rewrite !check_object.
  rewrite (checked_fields_agree [] shape fs fs' Hagree). reflexivity.
Qed.

Lemma checked_field_key p fs k tk y : checked_field p fs k tk = Some y -> y.1 = k.
Proof.
  unfold checked_field. intros H.
  destruct (check tk (p ++ [k]) (default VUndef (field_of k fs))) as [x | e];
    [| discriminate H].
  destruct x; try destruct (bool_decide _); try discriminate H;
    injection H as <-; reflexivity.
Qed.

Lemma field_of_other {A : Type} (k k' : string) (v : A) (l : list (string * A)) :
  k <> k' -> field_of k ((k', v) :: l) = field_of k l.
Proof.
  intros Hne. simpl. destruct (String.eqb_spec k k'); [contradiction | reflexivity].
Qed.

Lemma field_of_same {A : Type} (k : string) (v : A) (l : list (string * A)) :
  field_of k ((k, v) :: l) = Some v.
Proof. simpl. rewrite String.eqb_refl. reflexivity. Qed.

Lemma field_of_absent p fs (k : string) shape :
  ~ In k (shape.*1) ->
  field_of k (omap (fun kt => checked_field p fs kt.1 kt.2) shape) = None.
Proof.
  induction shape as [| [k' tk] shape IH]; intros Hnot; [reflexivity |].
  assert (k <> k') as Hne by (intros ->; apply Hnot; left; reflexivity).
  assert (~ In k (shape.*1)) as Hrest by (intros Hin; apply Hnot; right; exact Hin).
  change (omap (fun kt => checked_field p fs kt.1 kt.2) ((k', tk) :: shape))
    with (match checked_field p fs k' tk with
          | Some y => y :: omap (fun kt => checked_field p fs kt.1 kt.2) shape
          | None => omap (fun kt => checked_field p fs kt.1 kt.2) shape
          end).
  destruct (checked_field p fs k' tk) as [[k0 x] |] eqn:Hk; [| exact (IH Hrest)].
  apply checked_field_key in Hk. simpl in Hk. subst k0.
  rewrite (field_of_other k k' x _ Hne). exact (IH Hrest).
Qed.

(** With distinct keys in the shape, a declared field of the validated
    object is what [checked_field] keeps of it. *)
Lemma kept_field p fs shape k tk :
  List.NoDup (shape.*1) ->
  In (k, tk) shape ->
  field_of k (omap (fun kt => checked_field p fs kt.1 kt.2) shape) =
  snd <$> checked_field p fs k tk.
Proof.
  induction shape as [| [k' tk'] shape IH]; intros Hnd Hin; [destruct Hin |].
  inversion Hnd as [| ? ? Hnot Hnd']; subst.
  change (omap (fun kt => checked_field p fs kt.1 kt.2) ((k', tk') :: shape))
    with (match checked_field p fs k' tk' with
          | Some y => y :: omap (fun kt => checked_field p fs kt.1 kt.2) shape
          | None => omap (fun kt => checked_field p fs kt.1 kt.2) shape
          end).
  destruct Hin as [Heq | Hin].
  - injection Heq as -> ->.
    destruct (checked_field p fs k tk) as [[k0 x] |] eqn:Hk.
    + pose proof (checked_field_key _ _ _ _ _ Hk) as Hkey. simpl in Hkey. subst k0.
      apply field_of_same.
    + simpl. apply field_of_absent. exact Hnot.
  - assert (k <> k') as Hne.
    { intros ->. apply Hnot. apply in_map_iff. exists (k', tk). split; [reflexivity | exact Hin]. }
    destruct (checked_field p fs k' tk') as [[k0 x] |] eqn:Hk; [| exact (IH Hnd' Hin)].
    apply checked_field_key in Hk. simpl in Hk. subst k0.
    rewrite (field_of_other k k' x _ Hne). exact (IH Hnd' Hin).
Qed.

Lemma NoDup_keys (l : list string) :
  (fix distinct (l : list string) : bool :=
     match l with
     | [] => true
     | k :: l' => negb (existsb (String.eqb k) l') && distinct l'
     end) l = true -> List.NoDup l.
Proof.
  induction l as [| k l IH]; intros H; [constructor |].
  apply andb_true_iff in H as [Hk Hl]. constructor; [| exact (IH Hl)].
  intros Hin. apply negb_true_iff in Hk.
  assert (existsb (String.eqb k) l = true) as Hex.
  { apply existsb_exists. exists k. split; [exact Hin | apply String.eqb_refl]. }
  congruence.
Qed.

(** What validation makes of a limit declared as a number with a default. *)
Lemma checked_limit fs text d :
  field_accepted [] fs ("limit", z_describe (z_default z_number (VNum d)) text) ->
  exists n,
    checked_field [] fs "limit" (z_describe (z_default z_number (VNum d)) text)
    = Some ("limit", VNum n) /\
    (field_of "limit" fs = None \/ field_of "limit" fs = Some VUndef -> n = d) /\
    (forall x, field_of "limit" fs = Some x -> x <> VUndef -> x = VNum n).
Proof.
  unfold field_accepted, checked_field. simpl fst. simpl snd. intros [x Hx].
  destruct (field_of "limit" fs) as [[| | | n | | |] |]; simpl in Hx |- *;
    try discriminate Hx;
    [ exists d | exists n | exists d ];
    (split; [reflexivity | split; [intros [H | H]; congruence | intros y Hy Hne; congruence]]).
Qed.

Lemma checked_limit_plain fs d :
  field_accepted [] fs ("limit", z_default z_number (VNum d)) ->
  exists n,
    checked_field [] fs "limit" (z_default z_number (VNum d)) = Some ("limit", VNum n) /\
    (field_of "limit" fs = None \/ field_of "limit" fs = Some VUndef -> n = d) /\
    (forall x, field_of "limit" fs = Some x -> x <> VUndef -> x = VNum n).
Proof.
  unfold field_accepted, checked_field. simpl fst. simpl snd. intros [x Hx].
  destruct (field_of "limit" fs) as [[| | | n | | |] |]; simpl in Hx |- *;
    try discriminate Hx;
    [ exists d | exists n | exists d ];
    (split; [reflexivity | split; [intros [H | H]; congruence | intros y Hy Hne; congruence]]).
Qed.

(** X6. Arguments that pass the validator of a search or recommendation tool
    always carry a numeric limit: the number the body gave, or the schema's
    default (20 for the two searches, 10 for recommendations) when the body
    gave none. A body whose limit is anything but a number does not pass. *)
Theorem validated_limit_is_a_number :
  forall z dflt raw args,
    In (z, dflt) limited_schemas ->
    Zod.parse z raw = Return args ->
    exists fs out n,
      raw = VObj fs /\ args = VObj out /\
      field_of "limit" out = Some (VNum n) /\
      (field_of "limit" fs = None \/ field_of "limit" fs = Some VUndef -> n = dflt) /\
      (forall x, field_of "limit" fs = Some x -> x <> VUndef -> x = VNum n).
Proof.
  intros z dflt raw args Hin Hparse. simpl in Hin.
  destruct Hin as [Heq | [Heq | [Heq | []]]]; injection Heq as <- <-;
    apply parse_object in Hparse as (fs & -> & Hall & ->);
    exists fs; eexists;
    match type of Hall with
    | Forall _ ?shape =>
        assert (List.NoDup (shape.*1)) as Hnd by (apply NoDup_keys; reflexivity);
        match shape with
        | context [("limit", ?tk)] =>
            assert (In ("limit", tk) shape) as Hlim by (simpl; tauto)
        end
    end;
    pose proof (proj1 (List.Forall_forall _ _) Hall _ Hlim) as Hok;
    [ destruct (checked_limit fs _ 20 Hok) as (n & Hn & Hdflt & Hgiven)
    | destruct (checked_limit_plain fs 20 Hok) as (n & Hn & Hdflt & Hgiven)
    | destruct (checked_limit fs _ 10 Hok) as (n & Hn & Hdflt & Hgiven) ];
    exists n; (split; [reflexivity | split; [reflexivity |]]);
    (split; [| split; assumption]);
    rewrite (kept_field _ _ _ _ _ Hnd Hlim), Hn; reflexivity.
Qed.

(** ** On the small deployment *)

Lemma demo_search_valid : Zod.parse SearchCoursesSchema demo_search = Return demo_search.
Proof. vm_compute. reflexivity. Qed.

Lemma validated_limit_witness :
  exists fs out n,
    demo_search = VObj fs /\ demo_search = VObj out /\
    field_of "limit" out = Some (VNum n) /\
    (field_of "limit" fs = None \/ field_of "limit" fs = Some VUndef -> n = 20) /\
    (forall x, field_of "limit" fs = Some x -> x <> VUndef -> x = VNum n).
Proof.
  exact (validated_limit_is_a_number SearchCoursesSchema 20 demo_search demo_search
           (or_introl eq_refl) demo_search_valid).
Defined.

(** * The session transport (server.ts) *)

Lemma getTool_registered t : In t tools -> getTool (name t) = Some t.
Proof.
  intros Hin. simpl in Hin.
  repeat (destruct Hin as [<- | Hin]; [reflexivity |]). destruct Hin.
Qed.

(** What the session handler replies, by the outcome of the lookup and of
    [parse]. *)
Lemma callTool_cases name' args w :
  exists reply w',
    callTool name' args w = (Return reply, w') /\
    match getTool name' with
    | None => reply = mkReply' (failure_json ("Unknown tool: " +:+ name')) true
    | Some t =>
        match inputSchema_parse (inputSchema t) args with
        | Throw e => reply = mkReply' (failure_json (emessage e)) true
        | Return validated =>
            exists r w1,
              execute t validated (with_ticks (S (ticks w)) w) = (Return r, w1) /\
              reply = mkReply' (ToolResult_json r) false
        end
    end.
Proof.
  unfold callTool. rewrite bind_unfold. unfold Date_now at 1.
  cbv beta iota. unfold try_catch.
  destruct (getTool name') as [t |] eqn:Hget.
  - rewrite bind_unfold. unfold lift.
    destruct (inputSchema_parse (inputSchema t) args) as [validated | e] eqn:Hparse.
    + apply getTool_Some in Hget as [Hin _].
      destruct (validated_execution_returns t args validated
                  (with_ticks (S (ticks w)) w) Hin Hparse) as (r & w1 & Hexec).
      rewrite bind_unfold, Hexec. log_run.
      eexists _, _. split; [reflexivity |]. exists r, w1. split; reflexivity.
    + simpl. log_run. eexists _, _. split; reflexivity.
  - simpl. log_run. eexists _, _. split; reflexivity.
Qed.

(** X4. The session handler always replies. The error flag is set exactly
    when the tool is unknown or its arguments fail validation, and the reply
    then carries success false with the message of that error: Unknown tool
    and the name for an unknown tool, the validator's message for arguments
    that fail validation. Otherwise the reply carries the handler's result as
    it is with the flag clear, also when that result is a failure. *)
Theorem session_reply_cases :
  forall name' args w,
  exists reply w',
    callTool name' args w = (Return reply, w') /\
    (isError reply = true <->
     getTool name' = None \/
     exists t e, getTool name' = Some t /\
                 inputSchema_parse (inputSchema t) args = Throw e) /\
    (getTool name' = None ->
     payload reply = failure_json ("Unknown tool: " +:+ name')) /\
    (forall t e, getTool name' = Some t ->
                 inputSchema_parse (inputSchema t) args = Throw e ->
                 payload reply = failure_json (emessage e)) /\
    (forall t validated,
        getTool name' = Some t ->
        inputSchema_parse (inputSchema t) args = Return validated ->
        exists r w1,
          execute t validated (with_ticks (S (ticks w)) w) = (Return r, w1) /\
          reply = mkReply' (ToolResult_json r) false).
Proof.
  intros name' args w.
  destruct (callTool_cases name' args w) as (reply & w' & Hrun & Hcase).
  exists reply, w'. split; [exact Hrun |].
  destruct (getTool name') as [t |] eqn:Hget.
  - destruct (inputSchema_parse (inputSchema t) args) as [validated | e] eqn:Hparse.
    + destruct Hcase as (r & w1 & Hexec & ->). split; [| split; [| split]].
      * simpl. split; [discriminate |].
        intros [Hnone | (t' & e & Ht & He)]; congruence.
      * intros Hnone. discriminate Hnone.
      * intros t' e Ht He. congruence.
      * intros t' v Ht Hv. injection Ht as <-. rewrite Hparse in Hv.
        injection Hv as <-. eauto.
    + subst reply. split; [| split; [| split]].
      * simpl. split; [intros _; right; eauto | reflexivity].
      * intros Hnone. discriminate Hnone.
      * intros t' e' Ht He. injection Ht as <-. rewrite Hparse in He.
        injection He as <-. reflexivity.
      * intros t' v Ht Hv. congruence.
  - subst reply. split; [| split; [| split]].
    + simpl. split; [auto | reflexivity].
    + intros _. reflexivity.
    + intros t e Ht. discriminate Ht.
    + intros t v Ht. discriminate Ht.
Qed.

(** A handler failure comes back with the flag clear. *)
Example session_handler_failure :
  (callTool "search_courses" demo_search demo_outage).1
  = Return (mkReply' (failure_json "Database error: connection refused") false).
Proof. vm_compute. reflexivity. Qed.

(** * Undeclared fields *)

(** X5. For a tool registered with an object validator, two argument objects
    that agree on the fields the schema declares get the same answer from
    either transport: fields the schema does not declare have no effect. *)
Theorem undeclared_fields_are_ignored :
  forall t shape auth fs fs' w,
    In t tools ->
    declared_shape (inputSchema t) = Some shape ->
    agree_on shape fs fs' ->
    (invokeTool (mkRequest auth (name t) (VObj fs)) w).1 =
    (invokeTool (mkRequest auth (name t) (VObj fs')) w).1 /\
    (callTool (name t) (VObj fs) w).1 = (callTool (name t) (VObj fs') w).1.
Proof.
  intros t shape auth fs fs' w Hin Hshape Hagree.
  assert (inputSchema_parse (inputSchema t) (VObj fs) =
          inputSchema_parse (inputSchema t) (VObj fs')) as Hparse.
  { destruct (inputSchema t) as [[] | o]; try discriminate Hshape.
    injection Hshape as ->. apply parse_agree, Hagree. }
  pose proof (getTool_registered t Hin) as Hget.
  split.
  - destruct (invokeTool_cases (mkRequest auth (name t) (VObj fs)) w)
      as (r1 & w1 & -> & H1).
    destruct (invokeTool_cases (mkRequest auth (name t) (VObj fs')) w)
      as (r2 & w2 & -> & H2).
    simpl toolName in H1, H2. simpl body in H1, H2.
    rewrite Hget in H1, H2. rewrite <- Hparse in H2.
    destruct (inputSchema_parse (inputSchema t) (VObj fs)) as [v | e].
    + destruct H1 as (ra & wa & Ha & ->). destruct H2 as (rb & wb & Hb & ->).
      rewrite Ha in Hb. injection Hb as <- _. reflexivity.
    + subst. reflexivity.
  - destruct (callTool_cases (name t) (VObj fs) w) as (r1 & w1 & -> & H1).
    destruct (callTool_cases (name t) (VObj fs') w) as (r2 & w2 & -> & H2).
    rewrite Hget in H1, H2. rewrite <- Hparse in H2.
    destruct (inputSchema_parse (inputSchema t) (VObj fs)) as [v | e].
    + destruct H1 as (ra & wa & Ha & ->). destruct H2 as (rb & wb & Hb & ->).
      rewrite Ha in Hb. injection Hb as <- _. reflexivity.
    + subst. reflexivity.
Qed.

(** ** On the small deployment *)

Lemma demo_noted_agrees :
  forall shape,
    declared_shape (inputSchema search_courses_tool) = Some shape ->
    agree_on shape [("region", VStr "ireland"); ("limit", VNum 20)] demo_noted.
Proof.
  intros shape [= <-] k Hk. simpl in Hk.
  destruct Hk as [<- | [<- | [<- | [<- | [<- | []]]]]]; reflexivity.
Qed.

Lemma undeclared_fields_witness :
  (invokeTool (mkRequest None "search_courses" demo_search) demo_world).1 =
  (invokeTool (mkRequest None "search_courses" (VObj demo_noted)) demo_world).1 /\
  (callTool "search_courses" demo_search demo_world).1 =
  (callTool "search_courses" (VObj demo_noted) demo_world).1.
Proof.
  exact (undeclared_fields_are_ignored search_courses_tool _ None _ demo_noted demo_world
           search_courses_registered eq_refl (demo_noted_agrees _ eq_refl)).
Defined.

(** * Failures of validated calls *)

Ltac store_error_only_leaf :=
  unfold store_error_only;
  let Hr := fresh "Hr" in
  let Hfail := fresh "Hfail" in
  intros ? Hr Hfail; try discriminate Hr; injection Hr as <-;
  try discriminate Hfail;
  eexists _, _, _;
  (split; [world_simpl; reflexivity | split; [world_simpl; eassumption | reflexivity]]).

Lemma searchCourses_validated fs w :
  wp (searchCourses (VObj fs)) w (store_error_only w).
Proof. unfold searchCourses. wp_run; read_fields; store_error_only_leaf. Qed.

Lemma getCourseDetails_validated fs w :
  wp (getCourseDetails (VObj fs)) w (store_error_only w).
Proof. unfold getCourseDetails. wp_run; read_fields; store_error_only_leaf. Qed.

Lemma searchAccommodations_validated fs w :
  wp (searchAccommodations (VObj fs)) w (store_error_only w).
Proof. unfold searchAccommodations. wp_run; read_fields; store_error_only_leaf. Qed.

Lemma getAccommodationDetails_validated fs w :
  wp (getAccommodationDetails (VObj fs)) w (store_error_only w).
Proof. unfold getAccommodationDetails. wp_run; read_fields; store_error_only_leaf. Qed.

Lemma getSupplierRates_validated fs w :
  wp (getSupplierRates (VObj fs)) w (store_error_only w).
Proof. unfold getSupplierRates. wp_run; read_fields; store_error_only_leaf. Qed.

Lemma hasNegotiatedRate_validated fs w :
  wp (hasNegotiatedRate (VObj fs)) w (fun o _ => forall r, o = Return r -> success r = true).
Proof.
  unfold hasNegotiatedRate. wp_run; read_fields;
    intros r Hr; injection Hr as <-; reflexivity.
Qed.

Lemma getRecommendedCourses_validated fs tier w :
  In tier budget_tiers ->
  field_of "budget_tier" fs = Some (VStr tier) ->
  wp (getRecommendedCourses (VObj fs)) w (store_error_only w).
Proof.
  intros Htier Hfield. unfold getRecommendedCourses.
  simpl in Htier. destruct Htier as [<- | [<- | [<- | []]]];
    wp_run; read_fields; try rewrite Hfield in *; known_outcomes;
    store_error_only_leaf.
Qed.

(** Validated recommendation arguments name one of the three tiers. *)
Lemma recommended_args raw args :
  Zod.parse GetRecommendedCoursesSchema raw = Return args ->
  exists fs tier,
    args = VObj fs /\ field_of "budget_tier" fs = Some (VStr tier) /\
    In tier budget_tiers.
Proof.
  intros Hparse. apply parse_object in Hparse as (fs & -> & Hall & ->).
  match type of Hall with
  | Forall _ ?shape =>
      assert (List.NoDup (shape.*1)) as Hnd by (apply NoDup_keys; reflexivity);
      match shape with
      | context [("budget_tier", ?tk)] =>
          assert (In ("budget_tier", tk) shape) as Htier by (simpl; tauto)
      end
  end.
  pose proof (proj1 (List.Forall_forall _ _) Hall _ Htier) as [x Hx].
  match goal with
  | |- exists fs0 tier, VObj ?out = VObj fs0 /\ _ =>
      assert (exists tier, field_of "budget_tier" out = Some (VStr tier) /\
                           In tier budget_tiers) as (tier & Hfield & Hin);
        [| exists out, tier; auto]
  end.
  rewrite (kept_field _ _ _ _ _ Hnd Htier).
  unfold checked_field. simpl fst in Hx. simpl snd in Hx.
  destruct (default VUndef (field_of "budget_tier" fs)) as [| | | | s | |] eqn:Hv;
    simpl in Hx |- *; try discriminate Hx.
  match type of Hx with
  | context [if ?b then _ else _] => destruct b eqn:Hs; [| discriminate Hx]
  end.
  exists s. split; [reflexivity |].
  rewrite !orb_true_iff, !String.eqb_eq in Hs. simpl. intuition congruence.
Qed.

(** X7. For a tool registered with a validator, called with arguments that
    passed validation, the handler's exception branch is never what fails
    the call: a result with success false always reports an error the store
    replied to the one query the handler sent, and has_negotiated_rate does
    not fail at all. *)
Theorem validated_failure_is_a_store_error :
  forall t z raw args w r w',
    In t tools ->
    inputSchema t = ZodSchema z ->
    Zod.parse z raw = Return args ->
    execute t args w = (Return r, w') ->
    success r = false ->
    name t <> "has_negotiated_rate" /\
    exists q m pfx,
      sent w' = sent w ++ [q] /\
      reply_error (Postgres.run (supabase w) q) = Some m /\
      r = failure (pfx +:+ m).
Proof.
  intros t z raw args w r w' Hin Hz Hparse Hexec Hfail.
  simpl in Hin.
  repeat (destruct Hin as [<- | Hin]); try destruct Hin;
    simpl in Hz; try discriminate Hz; injection Hz as <-; simpl in Hexec;
    (split; [try discriminate |]).
  - apply parse_object in Hparse as (fs & -> & _ & ->).
    exact (wp_elim _ _ _ _ _ (searchCourses_validated _ w) Hexec r eq_refl Hfail).
  - apply parse_object in Hparse as (fs & -> & _ & ->).
    exact (wp_elim _ _ _ _ _ (getCourseDetails_validated _ w) Hexec r eq_refl Hfail).
  - apply recommended_args in Hparse as (fs & tier & -> & Hfield & Htier).
    exact (wp_elim _ _ _ _ _ (getRecommendedCourses_validated fs tier w Htier Hfield)
                   Hexec r eq_refl Hfail).
  - apply parse_object in Hparse as (fs & -> & _ & ->).
    exact (wp_elim _ _ _ _ _ (searchAccommodations_validated _ w) Hexec r eq_refl Hfail).
  - apply parse_object in Hparse as (fs & -> & _ & ->).
    exact (wp_elim _ _ _ _ _ (getAccommodationDetails_validated _ w) Hexec r eq_refl Hfail).
  - apply parse_object in Hparse as (fs & -> & _ & ->).
    exact (wp_elim _ _ _ _ _ (getSupplierRates_validated _ w) Hexec r eq_refl Hfail).
  - apply parse_object in Hparse as (fs & -> & _ & ->).
    pose proof (wp_elim _ _ _ _ _ (hasNegotiatedRate_validated _ w) Hexec r eq_refl).
    congruence.
  - apply parse_object in Hparse as (fs & -> & _ & ->).
    pose proof (wp_elim _ _ _ _ _ (hasNegotiatedRate_validated _ w) Hexec r eq_refl).
    congruence.
Qed.

(** Without validation the exception branch is reachable: a tier that is not
    in the table makes the handler fail before it sends any query. *)
Example unvalidated_tier_fails_in_the_handler :
  exists r w',
    getRecommendedCourses (VObj [("region", VStr "ireland"); ("budget_tier", VStr "cheap")])
                          demo_world = (Return r, w') /\
    success r = false /\ sent w' = sent demo_world.
Proof. eexists _, _. split; [vm_compute; reflexivity | split; reflexivity]. Qed.

(** ** On the small deployment *)

Lemma validated_failure_witness :
  name search_courses_tool <> "has_negotiated_rate" /\
  exists q m pfx,
    sent demo_outage_after = sent demo_outage ++ [q] /\
    reply_error (Postgres.run (supabase demo_outage) q) = Some m /\
    demo_failure = failure (pfx +:+ m).
Proof.
  exact (validated_failure_is_a_store_error search_courses_tool SearchCoursesSchema
           demo_search demo_search demo_outage demo_failure demo_outage_after
           search_courses_registered eq_refl demo_search_valid demo_outage_run eq_refl).
Defined.

(** * The cache at work (utils/cache.ts) *)

Lemma JsVal_nested_ind (P : JsVal -> Prop) :
  P VUndef -> P VNull -> (forall b, P (VBool b)) -> (forall n, P (VNum n)) ->
  (forall s, P (VStr s)) ->
  (forall l, List.Forall P l -> P (VArr l)) ->
  (forall fs, List.Forall (fun kv => P kv.2) fs -> P (VObj fs)) ->
  forall v, P v.
Proof.
  intros Hundef Hnull Hbool Hnum Hstr Harr Hobj.
  fix IH 1.
  intros [| | b | n | s | l | fs];
    [exact Hundef | exact Hnull | apply Hbool | apply Hnum | apply Hstr | |].
  - apply Harr. revert l. fix IHl 1. intros [| x l]; constructor; [apply IH | apply IHl].
  - apply Hobj. revert fs. fix IHfs 1.
    intros [| [k x] fs]; constructor; [apply IH | apply IHfs].
Qed.

Lemma roundtrip_undefined v : JSON.roundtrip v = VUndef -> v = VUndef.
Proof. destruct v; simpl; intros H; congruence. Qed.

(** Text that has been through JSON once comes back unchanged. *)
Lemma roundtrip_idempotent v : JSON.roundtrip (JSON.roundtrip v) = JSON.roundtrip v.
Proof.
  induction v as [| | b | n | s | l IH | fs IH] using JsVal_nested_ind; try reflexivity.
  - simpl. f_equal. induction l as [| x l IHl]; [reflexivity |].
    inversion IH as [| ? ? Hx Hl]; subst. specialize (IHl Hl).
    destruct x; simpl in *; f_equal; first [exact IHl | exact Hx | reflexivity].
  - simpl. f_equal. induction fs as [| [k x] fs IHfs]; [reflexivity |].
    inversion IH as [| ? ? Hx Hfs]; subst. specialize (IHfs Hfs). simpl in Hx.
    destruct x; simpl in *; try exact IHfs;
      f_equal; first [exact IHfs | f_equal; exact Hx | reflexivity].
Qed.

Lemma roundtrip_truthy_rows (rows : list JsVal) : truthy (JSON.roundtrip (VArr rows)) = true.
Proof. reflexivity. Qed.

Lemma roundtrip_truthy_row (row : list (string * JsVal)) :
  truthy (JSON.roundtrip (VObj row)) = true.
Proof. reflexivity. Qed.

(** A lookup against a live cache: what it returns is read off the entry. *)
Lemma getCached_live key w :
  cache_live w ->
  getCached_val key w = text_value (snd <$> entries (redis w) !! key).
Proof.
  intros (Hon & Hurl & Hup). unfold getCached_val, getCached.
  rewrite bind_unfold. unfold getRedisClient. rewrite Hon, Hurl. simpl negb. simpl orb.
  cbv iota.
  assert (forall w0, redis w0 = redis w ->
            (try_catch
               (value ← redis_get key;
                match value with
                | Some t => if is_empty_text t then mret VNull else lift (JSON_parse t)
                | None => mret VNull
                end)
               (fun error =>
                  logger "warn" "Cache get failed"
                         [("key", VStr key); ("error", error_json error)];;
                  mret VNull) w0).1 =
            Return (text_value (snd <$> entries (redis w) !! key))) as Hbody.
  { intros w0 Hr. unfold try_catch. rewrite bind_unfold. unfold redis_get.
    rewrite Hr, Hup.
    destruct (snd <$> entries (redis w) !! key) as [[v | s] |]; simpl; try reflexivity.
    destruct (String.eqb s ""); [reflexivity |].
    simpl. rewrite bind_unfold, logger_eq. reflexivity. }
  destruct (redisClient w); simpl negb; cbv iota; rewrite Hbody; reflexivity.
Qed.

Lemma getCached_val_ext key w w0 :
  env w = env w0 -> redis w = redis w0 -> getCached_val key w = getCached_val key w0.
Proof.
  intros He Hr. unfold getCached_val. rewrite (getCached_fst_ext key w w0 He Hr). reflexivity.
Qed.

(** Whatever a lookup returns has been through JSON. *)
Lemma getCached_val_roundtrip key w :
  JSON.roundtrip (getCached_val key w) = getCached_val key w.
Proof.
  unfold getCached_val, getCached. rewrite bind_unfold. unfold getRedisClient.
  destruct (negb (ENABLE_CACHE (env w)) || unset (REDIS_URL (env w))); [reflexivity |].
  assert (forall w0,
            JSON.roundtrip
              match (try_catch
                 (value ← redis_get key;
                  match value with
                  | Some t => if is_empty_text t then mret VNull else lift (JSON_parse t)
                  | None => mret VNull
                  end)
                 (fun error =>
                    logger "warn" "Cache get failed"
                           [("key", VStr key); ("error", error_json error)];;
                    mret VNull) w0).1 with
              | Return v => v
              | Throw _ => VNull
              end =
            match (try_catch
                 (value ← redis_get key;
                  match value with
                  | Some t => if is_empty_text t then mret VNull else lift (JSON_parse t)
                  | None => mret VNull
                  end)
                 (fun error =>
                    logger "warn" "Cache get failed"
                           [("key", VStr key); ("error", error_json error)];;
                    mret VNull) w0).1 with
              | Return v => v
              | Throw _ => VNull
              end) as Hbody.
  { intros w0. unfold try_catch. rewrite bind_unfold. unfold redis_get.
    destruct (reachable (redis w0));
      [| cbv beta iota zeta; rewrite bind_unfold, logger_eq; reflexivity].
    destruct (snd <$> entries (redis w0) !! key) as [[v | s] |]; simpl; try reflexivity.
    - apply roundtrip_idempotent.
    - destruct (String.eqb s ""); [reflexivity |].
      simpl. rewrite bind_unfold, logger_eq. reflexivity. }
  destruct (redisClient w); simpl negb; cbv iota; apply Hbody.
Qed.

(** A store into a live cache with a positive time to live: the entry it
    leaves. *)
Lemma setCached_live key v ttl w :
  cache_live w ->
  0 < default (CACHE_TTL_SECONDS (env w)) ttl ->
  env (setCached_post key v ttl w) = env w /\
  redis (setCached_post key v ttl w) =
  mkRedis true (<[key := (default (CACHE_TTL_SECONDS (env w)) ttl, JSON_text v)]>
                  (entries (redis w))).
Proof.
  intros (Hon & Hurl & Hup) Hpos. apply Z.leb_gt in Hpos.
  unfold setCached_post, setCached.
  rewrite bind_unfold. unfold getRedisClient. rewrite Hon, Hurl. simpl negb. simpl orb.
  cbv iota.
  destruct (redisClient w); simpl negb; cbv iota;
    unfold try_catch, redis_setex; simpl; rewrite Hup, Hpos; simpl; split; reflexivity.
Qed.

(** A store that the server refuses: nothing is stored, the error is caught
    and goes to the logger as a warning. *)
Lemma setCached_refused key v ttl w :
  cache_live w ->
  default (CACHE_TTL_SECONDS (env w)) ttl <= 0 ->
  exists w',
    setCached key v ttl w = (Return tt, w') /\
    env w' = env w /\ redis w' = redis w /\
    log w' = log w ++
             logged (env w)
               (mkLog "warn" "Cache set failed"
                      [("key", VStr key); ("error", error_json invalid_expire)]).
Proof.
  intros (Hon & Hurl & Hup) Hneg. apply Z.leb_le in Hneg.
  unfold setCached.
  rewrite bind_unfold. unfold getRedisClient. rewrite Hon, Hurl. simpl negb. simpl orb.
  cbv iota.
  destruct (redisClient w); cbn [negb]; cbv beta iota;
    unfold try_catch, redis_setex; cbv beta iota zeta;
    cbn [redis with_redisClient]; rewrite Hup, Hneg; cbv beta iota;
    rewrite logger_eq; simpl; eauto.
Qed.

Lemma cache_live_ext w w0 :
  env w0 = env w -> reachable (redis w0) = reachable (redis w) ->
  cache_live w -> cache_live w0.
Proof. unfold cache_live. intros -> ->. tauto. Qed.

(** X8. With the cache live and a positive time to live, the one given or
    the configured CACHE_TTL_SECONDS when none is given, a value other than
    undefined that has been stored under a key is what the next lookup of
    that key returns, as JSON gives it back; lookups of other keys are not
    affected; and the entry is kept for that time. With a time to live of 0
    or less the server refuses the write: setCached still returns normally,
    nothing is stored, and every lookup finds what it found before. *)
Theorem cache_round_trip :
  forall key v ttl w,
    cache_live w ->
    v <> VUndef ->
    (0 < default (CACHE_TTL_SECONDS (env w)) ttl ->
     (getCached key (setCached key v ttl w).2).1 = Return (JSON.roundtrip v) /\
     (forall other, other <> key ->
        (getCached other (setCached key v ttl w).2).1 = (getCached other w).1) /\
     entries (redis (setCached key v ttl w).2) !! key =
     Some (default (CACHE_TTL_SECONDS (env w)) ttl, JsonText v)) /\
    (default (CACHE_TTL_SECONDS (env w)) ttl <= 0 ->
     (setCached key v ttl w).1 = Return tt /\
     redis (setCached key v ttl w).2 = redis w /\
     forall k, (getCached k (setCached key v ttl w).2).1 = (getCached k w).1).
Proof.
  intros key v ttl w Hlive Hv. split.
  - intros Hpos.
    destruct (setCached_live key v ttl w Hlive Hpos) as [Henv Hredis].
    fold (setCached_post key v ttl w).
    assert (cache_live (setCached_post key v ttl w)) as Hlive'.
    { destruct Hlive as (Hon & Hurl & Hup). unfold cache_live.
      rewrite Henv, Hredis. auto. }
    assert (JSON_text v = JsonText v) as Htext
      by (destruct v; [contradiction | reflexivity ..]).
    assert (forall k w0, (getCached k w0).1 = Return (getCached_val k w0)) as Hfst.
    { intros k w0. rewrite getCached_eq. reflexivity. }
    split; [| split].
    + rewrite Hfst, (getCached_live key _ Hlive'), Hredis. simpl entries.
      rewrite lookup_insert. rewrite Htext.
      destruct (decide (key = key)); [reflexivity | contradiction].
    + intros other Hother.
      rewrite !Hfst, (getCached_live other _ Hlive'), (getCached_live other _ Hlive),
        Hredis.
      simpl entries. rewrite lookup_insert_ne by congruence. reflexivity.
    + rewrite Hredis. simpl entries. rewrite lookup_insert, Htext.
      destruct (decide (key = key)); [reflexivity | contradiction].
  - intros Hneg.
    destruct (setCached_refused key v ttl w Hlive Hneg) as (w' & -> & Henv & Hredis & _).
    split; [reflexivity |]. split; [exact Hredis |].
    intros k. apply getCached_fst_ext; [exact Henv | exact Hredis].
Qed.


(** ** A second call finds what the first one stored *)

Lemma run_data_cases db q :
  reply_error (Postgres.run db q) = None ->
  (exists rows, reply_data (Postgres.run db q) = VArr rows) \/
  (exists row, reply_data (Postgres.run db q) = VObj row).
Proof.
  intros Herr. destruct (q_single q) eqn:Hsingle.
  - right. apply run_row_shape; assumption.
  - left. destruct (run_rows_shape db q Herr Hsingle) as [rows Hrows]. eauto.
Qed.

(** After a store of rows or of a row, the handler's key finds them. *)
Lemma warmed_by_store key d ttl w0 w' r :
  cache_live w0 ->
  0 < default (CACHE_TTL_SECONDS (env w0)) ttl ->
  (exists rows, d = VArr rows) \/ (exists row, d = VObj row) ->
  env w' = env (setCached_post key d ttl w0) ->
  redis w' = redis (setCached_post key d ttl w0) ->
  data r = Some (Js.or d (VArr [])) \/ data r = Some d ->
  warmed key r w'.
Proof.
  intros Hlive Hpos Hd Henv Hredis Hdata.
  destruct (setCached_live key d ttl w0 Hlive Hpos) as [Henv0 Hredis0].
  assert (d <> VUndef /\ Js.or d (VArr []) = d /\ truthy (JSON.roundtrip d) = true /\
          JSON_text d = JsonText d) as (Hdef & Hor & Htruthy & Htext).
  { destruct Hd as [[rows ->] | [row ->]]; repeat split; discriminate. }
  assert (cache_live w') as Hlive'.
  { destruct Hlive as (Hon & Hurl & Hup). unfold cache_live.
    rewrite Henv, Hredis, Henv0, Hredis0. auto. }
  split; [exact Hlive' |].
  exists d. split; [destruct Hdata as [-> | ->]; congruence |].
  split; [exact Htruthy |].
  intros n. rewrite (getCached_val_ext key (with_ticks n w') w') by reflexivity.
  rewrite (getCached_live key w' Hlive'), Hredis, Hredis0. simpl entries.
  rewrite lookup_insert, Htext.
  destruct (decide (key = key)); [reflexivity | contradiction].
Qed.

(** After a hit, the key still finds the same value. *)
Lemma warmed_by_hit key v w1 w' r :
  cache_live w1 ->
  v = getCached_val key w1 ->
  truthy v = true ->
  env w' = env w1 ->
  redis w' = redis w1 ->
  r = cache_hit v ->
  warmed key r w'.
Proof.
  intros Hlive -> Htruthy Henv Hredis ->.
  split; [apply (cache_live_ext w1 w'); [exact Henv | rewrite Hredis; reflexivity | exact Hlive] |].
  exists (getCached_val key w1). split; [reflexivity |].
  rewrite getCached_val_roundtrip. split; [exact Htruthy |].
  intros n. apply getCached_val_ext; [exact Henv | exact Hredis].
Qed.

Ltac warms_leaf w Hlive Hpos :=
  unfold warms;
  let Hr := fresh "Hr" in
  let Hok := fresh "Hok" in
  intros ? Hr Hok; try discriminate Hr; injection Hr as <-; try discriminate Hok;
  clear Hok;
  try match goal with H : _ = _ :> Query |- _ => clear H end;
  first
    [ eapply warmed_by_hit;
      [ | reflexivity | eassumption
        | autorewrite with cache; reflexivity
        | autorewrite with cache; reflexivity
        | reflexivity ];
      apply (cache_live_ext w); [| | exact Hlive]; autorewrite with cache; reflexivity
    | match goal with
      | H : reply_error (Postgres.run ?db ?q) = None |- warmed _ _ ?W =>
          match W with
          | context [setCached_post ?k ?d ?ttl ?W0] =>
              apply (warmed_by_store k d ttl W0);
              [ apply (cache_live_ext w); [| | exact Hlive];
                autorewrite with cache; reflexivity
              | simpl default; autorewrite with cache;
                first [exact Hpos | reflexivity]
              | exact (run_data_cases db q H)
              | autorewrite with cache; reflexivity
              | autorewrite with cache; reflexivity
              | first [left; reflexivity | right; reflexivity] ]
          end
      end ].

Lemma searchCourses_warms params w :
  cache_live w ->
  0 < CACHE_TTL_SECONDS (env w) ->
  wp (searchCourses params) w (warms ("courses:search:" +:+ JSON.stringify_text params)).
Proof. intros Hlive Hpos. unfold searchCourses. wp_run; warms_leaf w Hlive Hpos. Qed.

Lemma getRecommendedCourses_warms params w :
  cache_live w ->
  0 < CACHE_TTL_SECONDS (env w) ->
  wp (getRecommendedCourses params) w
     (warms ("courses:recommended:" +:+ JSON.stringify_text params)).
Proof. intros Hlive Hpos. unfold getRecommendedCourses. wp_run; warms_leaf w Hlive Hpos. Qed.

Lemma searchAccommodations_warms params w :
  cache_live w ->
  0 < CACHE_TTL_SECONDS (env w) ->
  wp (searchAccommodations params) w
     (warms ("accommodations:search:" +:+ JSON.stringify_text params)).
Proof. intros Hlive Hpos. unfold searchAccommodations. wp_run; warms_leaf w Hlive Hpos. Qed.

Lemma getGolfResorts_warms region w :
  cache_live w ->
  0 < CACHE_TTL_SECONDS (env w) ->
  wp (getGolfResorts region) w (warms ("resorts:" +:+ toString (Js.or region (VStr "all")))).
Proof. intros Hlive Hpos. unfold getGolfResorts. wp_run; warms_leaf w Hlive Hpos. Qed.

Lemma getOperatorSuppliers_warms operatorId w :
  cache_live w ->
  wp (getOperatorSuppliers operatorId) w (warms ("suppliers:" +:+ toString operatorId)).
Proof. intros Hlive. unfold getOperatorSuppliers. wp_run; warms_leaf w Hlive I. Qed.

Lemma getCourseDetails_warms params id w :
  cache_live w ->
  0 < CACHE_TTL_SECONDS (env w) ->
  prop params "course_id" = Return id ->
  wp (getCourseDetails params) w (warms ("course:details:" +:+ toString id)).
Proof.
  intros Hlive Hpos Hid. unfold getCourseDetails. rewrite Hid.
  wp_run; warms_leaf w Hlive Hpos.
Qed.

Lemma getAccommodationDetails_warms params id w :
  cache_live w ->
  0 < CACHE_TTL_SECONDS (env w) ->
  prop params "accommodation_id" = Return id ->
  wp (getAccommodationDetails params) w (warms ("accommodation:details:" +:+ toString id)).
Proof.
  intros Hlive Hpos Hid. unfold getAccommodationDetails. rewrite Hid.
  wp_run; warms_leaf w Hlive Hpos.
Qed.

Lemma getSupplierRates_warms params operator_id supplier_type w :
  cache_live w ->
  prop params "operator_id" = Return operator_id ->
  prop params "supplier_type" = Return supplier_type ->
  wp (getSupplierRates params) w
     (warms ("rates:" +:+ toString operator_id +:+ ":" +:+
             toString (Js.or supplier_type (VStr "all")))).
Proof.
  intros Hlive Hop Hty. unfold getSupplierRates. rewrite Hop, Hty.
  wp_run; warms_leaf w Hlive I.
Qed.

Ltac hits_run Hv Ht :=
  cbv zeta;
  repeat first [rewrite Hv | rewrite Ht | progress cbv iota | wp_step];
  (split; [reflexivity | world_simpl; reflexivity]).

Lemma searchCourses_hits params w v :
  getCached_val ("courses:search:" +:+ JSON.stringify_text params)
                (with_ticks (S (ticks w)) w) = v ->
  truthy v = true ->
  wp (searchCourses params) w (hits v w).
Proof. intros Hv Ht. unfold searchCourses. hits_run Hv Ht. Qed.

Lemma getRecommendedCourses_hits params w v :
  getCached_val ("courses:recommended:" +:+ JSON.stringify_text params)
                (with_ticks (S (ticks w)) w) = v ->
  truthy v = true ->
  wp (getRecommendedCourses params) w (hits v w).
Proof. intros Hv Ht. unfold getRecommendedCourses. hits_run Hv Ht. Qed.

Lemma searchAccommodations_hits params w v :
  getCached_val ("accommodations:search:" +:+ JSON.stringify_text params)
                (with_ticks (S (ticks w)) w) = v ->
  truthy v = true ->
  wp (searchAccommodations params) w (hits v w).
Proof. intros Hv Ht. unfold searchAccommodations. hits_run Hv Ht. Qed.

Lemma getGolfResorts_hits region w v :
  getCached_val ("resorts:" +:+ toString (Js.or region (VStr "all")))
                (with_ticks (S (ticks w)) w) = v ->
  truthy v = true ->
  wp (getGolfResorts region) w (hits v w).
Proof. intros Hv Ht. unfold getGolfResorts. hits_run Hv Ht. Qed.

Lemma getOperatorSuppliers_hits operatorId w v :
  getCached_val ("suppliers:" +:+ toString operatorId) w = v ->
  truthy v = true ->
  wp (getOperatorSuppliers operatorId) w (hits v w).
Proof. intros Hv Ht. unfold getOperatorSuppliers. hits_run Hv Ht. Qed.

Lemma getCourseDetails_hits params id w v :
  prop params "course_id" = Return id ->
  getCached_val ("course:details:" +:+ toString id) (with_ticks (S (ticks w)) w) = v ->
  truthy v = true ->
  wp (getCourseDetails params) w (hits v w).
Proof.
  intros Hid Hv Ht. unfold getCourseDetails. rewrite Hid. hits_run Hv Ht.
Qed.

Lemma getAccommodationDetails_hits params id w v :
  prop params "accommodation_id" = Return id ->
  getCached_val ("accommodation:details:" +:+ toString id)
                (with_ticks (S (ticks w)) w) = v ->
  truthy v = true ->
  wp (getAccommodationDetails params) w (hits v w).
Proof.
  intros Hid Hv Ht. unfold getAccommodationDetails. rewrite Hid. hits_run Hv Ht.
Qed.

Lemma getSupplierRates_hits params operator_id supplier_type w v :
  prop params "operator_id" = Return operator_id ->
  prop params "supplier_type" = Return supplier_type ->
  getCached_val ("rates:" +:+ toString operator_id +:+ ":" +:+
                 toString (Js.or supplier_type (VStr "all")))
                (with_ticks (S (ticks w)) w) = v ->
  truthy v = true ->
  wp (getSupplierRates params) w (hits v w).
Proof.
  intros Hop Hty Hv Ht. unfold getSupplierRates. rewrite Hop, Hty. hits_run Hv Ht.
Qed.

(** A handler that fails to read its key fails the call. *)
Lemma getCourseDetails_throw params e w :
  prop params "course_id" = Throw e ->
  wp (getCourseDetails params) w (fun o _ => forall r, o = Return r -> success r = false).
Proof.
  intros He. unfold getCourseDetails. rewrite He.
  wp_run; intros r Hr; injection Hr as <-; reflexivity.
Qed.

Lemma getAccommodationDetails_throw params e w :
  prop params "accommodation_id" = Throw e ->
  wp (getAccommodationDetails params) w
     (fun o _ => forall r, o = Return r -> success r = false).
Proof.
  intros He. unfold getAccommodationDetails. rewrite He.
  wp_run; intros r Hr; injection Hr as <-; reflexivity.
Qed.

Lemma getSupplierRates_throw params w :
  (exists e, prop params "operator_id" = Throw e) \/
  (exists e, prop params "supplier_type" = Throw e) ->
  wp (getSupplierRates params) w (fun o _ => forall r, o = Return r -> success r = false).
Proof.
  intros [[e He] | [e He]]; unfold getSupplierRates; rewrite He;
    cbv zeta; repeat first [progress cbv iota | wp_step];
    intros r Hr; injection Hr as <-; reflexivity.
Qed.

(** From a handler that warms its key and answers from it to the repeated
    call. *)
Lemma repeat_from (m : M ToolResult) key w r w' :
  wp m w (warms key) ->
  (forall v, getCached_val key (with_ticks (S (ticks w')) w') = v -> truthy v = true ->
             wp m w' (hits v w')) ->
  m w = (Return r, w') ->
  success r = true ->
  exists d, data r = Some d /\
            (m w').1 = Return (cache_hit (JSON.roundtrip d)) /\
            sent (m w').2 = sent w'.
Proof.
  intros Hwarms Hhits Hrun Hok.
  destruct (wp_elim _ _ _ _ _ Hwarms Hrun r eq_refl Hok) as (_ & d & Hd & Htruthy & Hval).
  exists d. split; [exact Hd |].
  exact (Hhits (JSON.roundtrip d) (Hval (S (ticks w'))) Htruthy).
Qed.

(** X10. With the cache live and the tool's time to live positive (the
    configured CACHE_TTL_SECONDS, or the 600 seconds of the two rates tools),
    once a tool that uses the cache has answered successfully, the same call
    made again in the state the first one left is served from the cache: it
    returns the first call's data as JSON gives it back, marked cached, and
    sends the store no query. *)
Theorem repeated_call_is_served_from_cache :
  forall t args w r w',
    In t tools ->
    ~ In (name t) uncached_tools ->
    cache_live w ->
    0 < kept_for (name t) w ->
    execute t args w = (Return r, w') ->
    success r = true ->
    exists d, data r = Some d /\
              (execute t args w').1 = Return (cache_hit (JSON.roundtrip d)) /\
              sent (execute t args w').2 = sent w'.
Proof.
  intros t args w r w' Hin Hcached Hlive Hpos Hexec Hok.
  simpl in Hin.
  repeat (destruct Hin as [<- | Hin]); try destruct Hin; simpl execute in *;
    unfold kept_for in Hpos; simpl in Hpos.
  - apply (repeat_from _ _ w r w' (searchCourses_warms args w Hlive Hpos)); auto.
    intros v. apply searchCourses_hits.
  - destruct (prop args "course_id") as [id | e] eqn:Hid.
    + apply (repeat_from _ _ w r w' (getCourseDetails_warms args id w Hlive Hpos Hid)); auto.
      intros v. apply (getCourseDetails_hits args id). exact Hid.
    + pose proof (wp_elim _ _ _ _ _ (getCourseDetails_throw args e w Hid) Hexec r eq_refl).
      congruence.
  - apply (repeat_from _ _ w r w' (getRecommendedCourses_warms args w Hlive Hpos)); auto.
    intros v. apply getRecommendedCourses_hits.
  - exfalso. apply Hcached. simpl. auto.
  - apply (repeat_from _ _ w r w' (searchAccommodations_warms args w Hlive Hpos)); auto.
    intros v. apply searchAccommodations_hits.
  - destruct (prop args "accommodation_id") as [id | e] eqn:Hid.
    + apply (repeat_from _ _ w r w'
               (getAccommodationDetails_warms args id w Hlive Hpos Hid)); auto.
      intros v. apply (getAccommodationDetails_hits args id). exact Hid.
    + pose proof (wp_elim _ _ _ _ _ (getAccommodationDetails_throw args e w Hid)
                          Hexec r eq_refl).
      congruence.
  - apply (repeat_from _ _ w r w' (getGolfResorts_warms _ w Hlive Hpos)); auto.
    intros v. apply getGolfResorts_hits.
  - destruct (prop args "operator_id") as [op | e] eqn:Hop;
      [destruct (prop args "supplier_type") as [ty | e] eqn:Hty |].
    + apply (repeat_from _ _ w r w'
               (getSupplierRates_warms args op ty w Hlive Hop Hty)); auto.
      intros v. apply (getSupplierRates_hits args op ty); assumption.
    + pose proof (wp_elim _ _ _ _ _ (getSupplierRates_throw args w
                                       (or_intror (ex_intro _ e Hty))) Hexec r eq_refl).
      congruence.
    + pose proof (wp_elim _ _ _ _ _ (getSupplierRates_throw args w
                                       (or_introl (ex_intro _ e Hop))) Hexec r eq_refl).
      congruence.
  - exfalso. apply Hcached. simpl. auto.
  - destruct (prop args "operatorId") as [op | e] eqn:Hop;
      [| rewrite bind_unfold in Hexec; discriminate Hexec].
    change (getOperatorSuppliers op w = (Return r, w')) in Hexec.
    change (exists d, data r = Some d /\
              (getOperatorSuppliers op w').1 = Return (cache_hit (JSON.roundtrip d)) /\
              sent (getOperatorSuppliers op w').2 = sent w').
    apply (repeat_from _ _ w r w' (getOperatorSuppliers_warms op w Hlive)); auto.
    intros v Hv. apply getOperatorSuppliers_hits.
    rewrite <- Hv. apply getCached_val_ext; reflexivity.
Qed.

(** ** On the small deployment *)

Lemma demo_world_live : cache_live demo_world.
Proof. repeat split. Qed.

Lemma demo_garbled_live : cache_live demo_garbled.
Proof. repeat split. Qed.

(** A course stored for a minute is found again; stored for no time at all,
    it is refused and the cache stays empty. *)
Lemma cache_round_trip_witness :
  (getCached "course:details:c"
     (setCached "course:details:c" (VObj (demo_course "c" "West IRELAND" 50 9000))
                (Some 60) demo_world).2).1 =
  Return (JSON.roundtrip (VObj (demo_course "c" "West IRELAND" 50 9000))) /\
  redis (setCached "course:details:c" (VObj (demo_course "c" "West IRELAND" 50 9000))
                   (Some 0) demo_world).2 = redis demo_world.
Proof.
  assert (VObj (demo_course "c" "West IRELAND" 50 9000) <> VUndef) as Hv by discriminate.
  split.
  - apply (proj1 (cache_round_trip "course:details:c" _ (Some 60) demo_world
                    demo_world_live Hv)).
    reflexivity.
  - apply (proj2 (cache_round_trip "course:details:c" _ (Some 0) demo_world
                    demo_world_live Hv)).
    discriminate.
Defined.

Lemma demo_garbled_entry :
  entries (redis demo_garbled) !! "course:details:c" = Some (300, OtherText "<html>").
Proof. vm_compute. reflexivity. Qed.

Lemma demo_garbled_level : LOG_LEVEL (env demo_garbled) <> LogError.
Proof. discriminate. Qed.


Lemma search_courses_cached : ~ In (name search_courses_tool) uncached_tools.
Proof. simpl. intros [H | [H | []]]; discriminate H. Qed.

Lemma repeated_call_witness :
  exists d, data demo_answer = Some d /\
            (execute search_courses_tool demo_search demo_world_after).1 =
            Return (cache_hit (JSON.roundtrip d)) /\
            sent (execute search_courses_tool demo_search demo_world_after).2 =
            sent demo_world_after.
Proof.
  exact (repeated_call_is_served_from_cache search_courses_tool demo_search demo_world
           demo_answer demo_world_after search_courses_registered search_courses_cached
           demo_world_live eq_refl demo_world_run eq_refl).
Defined.

(** * What the handlers answer, by the contents of the store *)

Section StoreAnswers.

Import Postgres.

Lemma Sorted_take {X : Type} (R : X -> X -> Prop) (l : list X) n :
  Sorted R l -> Sorted R (take n l).
Proof.
  revert n. induction l as [| x l IH]; intros n Hs; [destruct n; constructor |].
  destruct n as [| n]; [constructor |].
  inversion Hs as [| ? ? Hl Hhd]; subst. simpl. constructor; [apply IH, Hl |].
  destruct n as [| n]; [constructor |].
  destruct l as [| y l]; [constructor |].
  inversion Hhd; subst. constructor. assumption.
Qed.

Lemma Sorted_map {X Y : Type} (R : X -> X -> Prop) (R' : Y -> Y -> Prop) (f : X -> Y)
    (l : list X) :
  (forall x y, R x y -> R' (f x) (f y)) -> Sorted R l -> Sorted R' (f <$> l).
Proof.
  intros Hf. induction l as [| x l IH]; intros Hs; [constructor |].
  inversion Hs as [| ? ? Hl Hhd]; subst. simpl. constructor; [apply IH, Hl |].
  destruct l as [| y l]; [constructor |].
  inversion Hhd; subst. constructor. apply Hf. assumption.
Qed.

Lemma field_of_selected (c : string) (cols : list string) (r : Row) :
  field_of c (omap (fun c' => (fun v => (c', v)) <$> field_of c' r) cols) =
  if existsb (String.eqb c) cols then field_of c r else None.
Proof.
  induction cols as [| c' cols IH]; [reflexivity |].
  cbn [omap list_omap existsb].
  destruct (field_of c' r) as [v |] eqn:Hv; cbn [fmap option_fmap option_map field_of].
  - destruct (String.eqb_spec c c') as [-> | Hne]; [simpl; congruence | exact IH].
  - destruct (String.eqb_spec c c') as [-> | Hne]; [| exact IH].
    simpl. rewrite IH, Hv. destruct (existsb (String.eqb c') cols); reflexivity.
Qed.

(** A selected column of a projected row is the column of the row. *)
Lemma project_field cols r c :
  In c cols -> field_of c (project cols r) = field_of c r.
Proof.
  intros Hin. unfold project. destruct (bool_decide (cols = ["*"])); [reflexivity |].
  rewrite field_of_selected.
  assert (existsb (String.eqb c) cols = true) as ->; [| reflexivity].
  apply existsb_exists. exists c. split; [exact Hin | apply String.eqb_refl].
Qed.

Lemma project_all r : project ["*"] r = r.
Proof. reflexivity. Qed.

(** The rows behind an answer to a query for a list: they pass the filters,
    come in the order asked for, are no more than the limit, and the answer
    lists their selected columns. *)
Lemma run_rows db q :
  reply_error (run db q) = None ->
  q_single q = false ->
  exists chosen,
    reply_data (run db q) = VArr (VObj <$> (project (q_columns q) <$> chosen)) /\
    List.Forall (fun r => forallb (fun f => holds f r) (q_filters q) = true) chosen /\
    (forall col asc, q_order q = Some (col, asc) -> Sorted (before col asc) chosen) /\
    (forall n, q_limit q = Some (VNum n) -> Z.of_nat (length chosen) <= n).
Proof.
  unfold run. intros Herr Hsingle. rewrite Hsingle in *.
  destruct (outage db); [discriminate Herr |].
  destruct (field_of (q_table q) (tables db)) as [rows |]; [| discriminate Herr].
  assert (List.Forall (fun r => forallb (fun f => holds f r) (q_filters q) = true)
            (ordered (q_order q)
               (filter (fun r => forallb (fun f => holds f r) (q_filters q)) rows)))
    as Hpass.
  { apply List.Forall_forall. intros r Hr.
    assert (r ∈ filter (fun r => forallb (fun f => holds f r) (q_filters q)) rows) as Hin.
    { unfold ordered in Hr. destruct (q_order q) as [[col asc] |].
      - rewrite <- (merge_sort_Permutation (before col asc)). apply list_elem_of_In, Hr.
      - apply list_elem_of_In, Hr. }
    apply list_elem_of_filter in Hin as [Hok _]. apply Is_true_true, Hok. }
  assert (forall col asc, q_order q = Some (col, asc) ->
            Sorted (before col asc)
              (ordered (q_order q)
                 (filter (fun r => forallb (fun f => holds f r) (q_filters q)) rows)))
    as Hsorted.
  { intros col asc ->. simpl. apply (Sorted_merge_sort _). }
  destruct (q_limit q) as [[| | | n | | |] |]; try discriminate Herr.
  - destruct (Z.leb_spec 0 n) as [Hn |]; [| discriminate Herr].
    eexists. split; [reflexivity |]. split; [| split].
    + apply Forall_take, Hpass.
    + intros col asc Ho. apply Sorted_take, Hsorted, Ho.
    + intros n' Hn'. injection Hn' as <-. rewrite length_take. lia.
  - eexists. split; [reflexivity |]. split; [exact Hpass |].
    split; [exact Hsorted | intros n Hn; discriminate Hn].
Qed.

End StoreAnswers.

Lemma truthy_nonempty s : s <> "" -> truthy (VStr s) = true.
Proof.
  intros H. simpl. destruct (String.eqb_spec s ""); [contradiction | reflexivity].
Qed.

Ltac region_rule_leaf :=
  let Hne := fresh "Hne" in
  let Hregion := fresh "Hregion" in
  intros ? Hne Hregion; rewrite Hregion in *; cbn [from_option id default];
  rewrite !(truthy_nonempty _ Hne); simpl;
  repeat match goal with
         | |- context [if truthy ?v then _ else _] => destruct (truthy v)
         end; simpl; rewrite ?in_app_iff; simpl; tauto.

(** Opens a leaf of an [answers_with] goal: the query is the one sent. *)
Ltac answers_with_leaf :=
  unfold answers_with;
  let Hr := fresh "Hr" in
  let Hok := fresh "Hok" in
  intros ? Hr Hok; try discriminate Hr; injection Hr as <-; try discriminate Hok;
  clear Hok;
  world_simpl;
  eexists; (split; [| split; [eassumption | reflexivity]]);
  forget_replies; subst.

Ltac search_query_leaf :=
  unfold search_query;
  (split; [simpl; split_ifs; reflexivity |]);
  (split; [simpl; split_ifs; reflexivity |]);
  (split; [simpl; split_ifs; reflexivity |]);
  (split; [limit_rule_leaf |]);
  (split; [price_rule_leaf | region_rule_leaf]).

Lemma searchCourses_query fs w :
  misses w ->
  wp (searchCourses (VObj fs)) w
     (answers_with (fun q => search_query course_columns "green_fee_standard_cents" fs q /\
                             type_rule fs q) w).
Proof.
  intros Hmiss. unfold searchCourses. wp_run; read_fields;
    try (rewrite (misses_val _ _ _ Hmiss) in *; discriminate);
    answers_with_leaf; (split; [search_query_leaf | unfold type_rule; region_rule_leaf]).
Qed.

Lemma searchAccommodations_query fs w :
  misses w ->
  wp (searchAccommodations (VObj fs)) w
     (answers_with (search_query accommodation_columns "standard_rate_cents" fs) w).
Proof.
  intros Hmiss. unfold searchAccommodations. wp_run; read_fields;
    try (rewrite (misses_val _ _ _ Hmiss) in *; discriminate);
    answers_with_leaf; search_query_leaf.
Qed.

Lemma passes_filter (filters : list Filter) (f : Filter) (r : Row) :
  forallb (fun f => Postgres.holds f r) filters = true -> In f filters ->
  Postgres.holds f r = true.
Proof. intros Hall Hin. rewrite forallb_forall in Hall. apply Hall, Hin. Qed.

Lemma holds_gte col n r :
  Postgres.holds (mkFilter Gte col (VNum n)) r = true ->
  exists p, field_of col r = Some (VNum p) /\ n <= p.
Proof.
  unfold Postgres.holds. simpl.
  destruct (field_of col r) as [[| | | p | | |] |]; simpl; try discriminate.
  intros H. exists p. split; [reflexivity | lia].
Qed.

Lemma holds_lte col n r :
  Postgres.holds (mkFilter Lte col (VNum n)) r = true ->
  exists p, field_of col r = Some (VNum p) /\ p <= n.
Proof.
  unfold Postgres.holds. simpl.
  destruct (field_of col r) as [[| | | p | | |] |]; simpl; try discriminate.
  intros H. exists p. split; [reflexivity | lia].
Qed.

Lemma holds_ilike col region r :
  literal region = true ->
  Postgres.holds (mkFilter Ilike col (VStr ("%" +:+ region +:+ "%"))) r =
  column_contains col region r.
Proof.
  intros Hlit. unfold Postgres.holds, column_contains. simpl.
  destruct (field_of col r) as [[| | | | s | |] |]; simpl; try reflexivity.
  apply ilike_substring, Hlit.
Qed.

Lemma holds_eq_string col s r :
  Postgres.holds (mkFilter Eq_ col (VStr s)) r = column_is col s r.
Proof.
  unfold Postgres.holds, column_is. simpl.
  destruct (field_of col r) as [[| | | | x | |] |]; reflexivity.
Qed.

(** From the query's shape to what its answer keeps to. *)
Lemma respects_of_query cols price_column fs q chosen :
  search_query cols price_column fs q ->
  In price_column cols -> In "rating" cols -> In "region" cols ->
  List.Forall (fun r => forallb (fun f => Postgres.holds f r) (q_filters q) = true) chosen ->
  (forall col asc, q_order q = Some (col, asc) -> Sorted (Postgres.before col asc) chosen) ->
  (forall n, q_limit q = Some (VNum n) -> Z.of_nat (length chosen) <= n) ->
  respects price_column fs (Postgres.project cols <$> chosen).
Proof.
  intros (Hcols & Horder & _ & [Hdflt Hlim] & (_ & _ & Hmin & Hmax) & Hregion)
         Hprice Hrating Hreg Hpass Hsorted Hlen.
  unfold respects. repeat split.
  - intros n Hn Hfield. apply List.Forall_forall. intros c Hc.
    apply in_map_iff in Hc as (r & <- & Hr).
    rewrite (project_field cols r price_column Hprice).
    apply holds_gte.
    apply (passes_filter (q_filters q)); [| exact (Hmin n Hn Hfield)].
    exact (proj1 (List.Forall_forall _ _) Hpass r Hr).
  - intros n Hn Hfield. apply List.Forall_forall. intros c Hc.
    apply in_map_iff in Hc as (r & <- & Hr).
    rewrite (project_field cols r price_column Hprice).
    apply holds_lte.
    apply (passes_filter (q_filters q)); [| exact (Hmax n Hn Hfield)].
    exact (proj1 (List.Forall_forall _ _) Hpass r Hr).
  - intros region Hne Hlit Hfield. apply List.Forall_forall. intros c Hc.
    apply in_map_iff in Hc as (r & <- & Hr).
    unfold column_contains. rewrite (project_field cols r "region" Hreg).
    fold (column_contains "region" region r).
    rewrite <- (holds_ilike "region" region r Hlit).
    apply (passes_filter (q_filters q)); [| exact (Hregion region Hne Hfield)].
    exact (proj1 (List.Forall_forall _ _) Hpass r Hr).
  - apply (Sorted_map (Postgres.before "rating" false)); [| exact (Hsorted _ _ Horder)].
    intros x y. unfold Postgres.before, Postgres.order_key.
    rewrite !(project_field cols _ "rating" Hrating). auto.
  - intros n Hn Hfield. rewrite length_fmap. apply Hlen, Hlim; [lia | exact Hfield].
  - intros Hfield. rewrite length_fmap. apply Hlen, Hdflt, Hfield.
Qed.

(** X11. On a cache miss, the rows a successful course or accommodation
    search returns keep to the request: every price lies within the bounds
    given (a bound of 0 counts as not given), every region contains the
    region asked for when that is made of ordinary characters, the rows come
    by descending rating, and they are no more than the limit asked for, or
    than 20 when the limit is absent or 0. The courses are also all of the
    type asked for. *)
Theorem search_results_respect_the_request :
  forall fs w r w',
    misses w ->
    success r = true ->
    (searchCourses (VObj fs) w = (Return r, w') ->
     exists rows, data r = Some (VArr (VObj <$> rows)) /\
                  respects "green_fee_standard_cents" fs rows /\
                  forall ty, ty <> "" -> field_of "course_type" fs = Some (VStr ty) ->
                    List.Forall (fun c => column_is "course_type" ty c = true) rows) /\
    (searchAccommodations (VObj fs) w = (Return r, w') ->
     exists rows, data r = Some (VArr (VObj <$> rows)) /\
                  respects "standard_rate_cents" fs rows).
Proof.
  intros fs w r w' Hmiss Hok. split; intros Hrun.
  - destruct (wp_elim _ _ _ _ _ (searchCourses_query fs w Hmiss) Hrun r eq_refl Hok)
      as (q & [Hq Htype] & Herr & Hdata).
    destruct (run_rows (supabase w) q Herr (proj1 (proj2 (proj2 Hq))))
      as (chosen & Hreply & Hpass & Hsorted & Hlen).
    exists (Postgres.project course_columns <$> chosen). split; [| split].
    + rewrite Hdata, Hreply. destruct Hq as [-> _]. reflexivity.
    + apply (respects_of_query course_columns "green_fee_standard_cents" fs q chosen Hq);
        try (simpl; tauto); assumption.
    + intros ty Hne Hfield. apply List.Forall_forall. intros c Hc.
      apply in_map_iff in Hc as (row & <- & Hrow).
      unfold column_is. rewrite (project_field course_columns row "course_type")
        by (simpl; tauto).
      fold (column_is "course_type" ty row). rewrite <- holds_eq_string.
      apply (passes_filter (q_filters q)); [| exact (Htype ty Hne Hfield)].
      exact (proj1 (List.Forall_forall _ _) Hpass row Hrow).
  - destruct (wp_elim _ _ _ _ _ (searchAccommodations_query fs w Hmiss) Hrun r eq_refl Hok)
      as (q & Hq & Herr & Hdata).
    destruct (run_rows (supabase w) q Herr (proj1 (proj2 (proj2 Hq))))
      as (chosen & Hreply & Hpass & Hsorted & Hlen).
    exists (Postgres.project accommodation_columns <$> chosen). split.
    + rewrite Hdata, Hreply. destruct Hq as [-> _]. reflexivity.
    + apply (respects_of_query accommodation_columns "standard_rate_cents" fs q chosen Hq);
        try (simpl; tauto); assumption.
Qed.

(** ** Lookups of one row *)

Lemma passing_ext (filters : list Filter) (f : Row -> bool) (rows : list Row) :
  (forall r, forallb (fun x => Postgres.holds x r) filters = f r) ->
  passing filters rows = filter (fun r => f r) rows.
Proof.
  intros H. unfold passing. apply list_filter_iff. intros r. rewrite (H r). reflexivity.
Qed.

Lemma project_all_rows (rows : list Row) : Postgres.project ["*"] <$> rows = rows.
Proof.
  induction rows as [| r rows IH]; [reflexivity |].
  change (Postgres.project ["*"] r :: (Postgres.project ["*"] <$> rows) = r :: rows).
  rewrite IH. reflexivity.
Qed.

Lemma run_one db table filters rows :
  outage db = None ->
  field_of table (tables db) = Some rows ->
  Postgres.run db (mkQuery table ["*"] filters None None true) =
  match passing filters rows with
  | [r] => mkReply (VObj r) None
  | _ => mkReply VNull (Some Postgres.single_error)
  end.
Proof.
  intros Hup Htable. unfold Postgres.run, passing. simpl. rewrite Hup, Htable.
  unfold Postgres.ordered. rewrite project_all_rows. reflexivity.
Qed.

Ltac known_step tac :=
  first
    [ tac
    | progress cbn [prop has_key truthy default from_option id toString field_of
                    String.eqb Ascii.eqb Bool.eqb bool_decide decide_rel is_Some_dec
                    andb negb orb Js.eqb Js.or prop_opt]
    | wp_step ].

(** Names the query of the leaf and brings it to its fields. *)
Ltac expose_query :=
  subst; world_simpl;
  unfold Supa.from, Supa.select, Supa.eq, Supa.ilike, Supa.gte, Supa.lte, Supa.limit,
         Supa.order, Supa.single, Supa.add_filter in *;
  cbn [q_table q_columns q_filters q_order q_limit q_single app] in *.

Lemma getCourseDetails_finds fs id w rows :
  field_of "course_id" fs = Some (VStr id) ->
  misses w ->
  outage (supabase w) = None ->
  field_of "golf_courses" (tables (supabase w)) = Some rows ->
  wp (getCourseDetails (VObj fs)) w
     (fun o _ => exists r, o = Return r /\
                           finds_the_one "Course not found or database error: " id rows r).
Proof.
  intros Hid Hmiss Hup Htable.
  pose proof (fun key => misses_val key (S (ticks w)) w Hmiss) as Hval.
  unfold getCourseDetails. cbv zeta.
  repeat known_step ltac:(first [rewrite Hval | rewrite Hid]);
    expose_query;
    match goal with
    | H : reply_error (Postgres.run _ _) = _ |- _ =>
        rewrite (run_one _ _ _ rows Hup Htable) in H;
        rewrite ?(run_one _ _ _ rows Hup Htable)
    end;
    (eexists; split; [reflexivity |]);
    unfold finds_the_one;
    rewrite <- (passing_ext [mkFilter Eq_ "id" (VStr id)] (column_is "id" id) rows)
      by (intros row; simpl; rewrite holds_eq_string; apply andb_true_r);
    match goal with
    | H : reply_error match ?l with _ => _ end = _ |- _ =>
        destruct l as [| row [| row' rest]]; simpl in H; try discriminate H
    end; simpl; auto; congruence.
Qed.

Lemma getAccommodationDetails_finds fs id w rows :
  field_of "accommodation_id" fs = Some (VStr id) ->
  misses w ->
  outage (supabase w) = None ->
  field_of "accommodations" (tables (supabase w)) = Some rows ->
  wp (getAccommodationDetails (VObj fs)) w
     (fun o _ => exists r, o = Return r /\
                   finds_the_one "Accommodation not found or database error: " id rows r).
Proof.
  intros Hid Hmiss Hup Htable.
  pose proof (fun key => misses_val key (S (ticks w)) w Hmiss) as Hval.
  unfold getAccommodationDetails. cbv zeta.
  repeat known_step ltac:(first [rewrite Hval | rewrite Hid]);
    expose_query;
    match goal with
    | H : reply_error (Postgres.run _ _) = _ |- _ =>
        rewrite (run_one _ _ _ rows Hup Htable) in H;
        rewrite ?(run_one _ _ _ rows Hup Htable)
    end;
    (eexists; split; [reflexivity |]);
    unfold finds_the_one;
    rewrite <- (passing_ext [mkFilter Eq_ "id" (VStr id)] (column_is "id" id) rows)
      by (intros row; simpl; rewrite holds_eq_string; apply andb_true_r);
    match goal with
    | H : reply_error match ?l with _ => _ end = _ |- _ =>
        destruct l as [| row [| row' rest]]; simpl in H; try discriminate H
    end; simpl; auto; congruence.
Qed.

(** X12. On a cache miss with the store answering, a details lookup succeeds
    exactly when one row of the table has the id asked for, and then returns
    that row whole; when no row or more than one has it, the lookup fails
    with the store's message that one row was requested. *)
Theorem details_lookup_finds_the_one_row :
  forall fs id w rows,
    misses w ->
    outage (supabase w) = None ->
    (field_of "course_id" fs = Some (VStr id) ->
     field_of "golf_courses" (tables (supabase w)) = Some rows ->
     exists r w',
       getCourseDetails (VObj fs) w = (Return r, w') /\
       finds_the_one "Course not found or database error: " id rows r) /\
    (field_of "accommodation_id" fs = Some (VStr id) ->
     field_of "accommodations" (tables (supabase w)) = Some rows ->
     exists r w',
       getAccommodationDetails (VObj fs) w = (Return r, w') /\
       finds_the_one "Accommodation not found or database error: " id rows r).
Proof.
  intros fs id w rows Hmiss Hup. split; intros Hid Htable.
  - destruct (getCourseDetails_finds fs id w rows Hid Hmiss Hup Htable) as (r & Hr & Hfound).
    exists r, (getCourseDetails (VObj fs) w).2.
    split; [apply run_result, Hr | exact Hfound].
  - destruct (getAccommodationDetails_finds fs id w rows Hid Hmiss Hup Htable)
      as (r & Hr & Hfound).
    exists r, (getAccommodationDetails (VObj fs) w).2.
    split; [apply run_result, Hr | exact Hfound].
Qed.

(** ** Negotiated rates (tools/rates.ts) *)

Lemma run_one_of db table cols filters rows :
  outage db = None ->
  field_of table (tables db) = Some rows ->
  Postgres.run db (mkQuery table cols filters None None true) =
  match passing filters rows with
  | [r] => mkReply (VObj (Postgres.project cols r)) None
  | _ => mkReply VNull (Some Postgres.single_error)
  end.
Proof.
  intros Hup Htable. unfold Postgres.run, passing. simpl. rewrite Hup, Htable.
  unfold Postgres.ordered.
  destruct (filter _ rows) as [| r [| r' rest]]; reflexivity.
Qed.

Lemma asked_with_ticks n w : asked_of_cache (with_ticks n w) = asked_of_cache w.
Proof. reflexivity. Qed.
Lemma asked_with_log l w : asked_of_cache (with_log l w) = asked_of_cache w.
Proof. reflexivity. Qed.
Lemma asked_request q w :
  asked_of_cache (with_io (io w ++ [SupabaseRequest q]) w) = asked_of_cache w.
Proof. unfold asked_of_cache. simpl. rewrite omap_app. simpl. apply app_nil_r. Qed.
Lemma asked_getSupabaseClient w :
  asked_of_cache (getSupabaseClient_post w) = asked_of_cache w.
Proof.
  unfold getSupabaseClient_post, getSupabaseClient.
  destruct (supabaseClient w); rewrite ?logger_eq; reflexivity.
Qed.

Create Rewrite HintDb asked.
#[export] Hint Rewrite asked_with_ticks asked_with_log asked_request asked_getSupabaseClient
  : asked.

Lemma hasNegotiatedRate_answer fs op sup w rows :
  field_of "operator_id" fs = Some (VStr op) ->
  field_of "supplier_id" fs = Some (VStr sup) ->
  outage (supabase w) = None ->
  field_of "operator_supplier_rates" (tables (supabase w)) = Some rows ->
  wp (hasNegotiatedRate (VObj fs)) w
     (fun o w' =>
        exists r, o = Return r /\ success r = true /\
          asked_of_cache w' = asked_of_cache w /\
          data r = Some
            match filter (fun c => column_is "operator_id" op c &&
                                   column_is "supplier_id" sup c) rows with
            | [row] => rate_found row
            | _ => VObj [("has_rate", VBool false)]
            end).
Proof.
  intros Hop Hsup Hup Htable.
  unfold hasNegotiatedRate. cbv zeta.
  repeat known_step ltac:(first [rewrite Hop | rewrite Hsup]);
    expose_query;
    rewrite <- (passing_ext [mkFilter Eq_ "operator_id" (VStr op);
                             mkFilter Eq_ "supplier_id" (VStr sup)]
                  (fun c => column_is "operator_id" op c && column_is "supplier_id" sup c)
                  rows)
      by (intros row; simpl; rewrite !holds_eq_string, andb_true_r; reflexivity);
    match goal with
    | H : context [Postgres.run _ _] |- _ =>
        rewrite (run_one_of _ _ _ _ rows Hup Htable) in H;
        rewrite ?(run_one_of _ _ _ _ rows Hup Htable)
    end;
    (eexists; split; [reflexivity |]);
    (split; [reflexivity |]);
    (split; [autorewrite with asked; reflexivity |]);
    match goal with
    | H : context [match ?l with _ => _ end] |- _ =>
        destruct l as [| row [| row' rest]]; simpl in H; try discriminate H
    end; try reflexivity.
  unfold rate_found. cbn [data reply_data prop_opt prop].
  rewrite !project_field by (simpl; tauto). reflexivity.
Qed.

(** X13. With the store answering, has_negotiated_rate always succeeds and
    never asks the cache. It reports a rate, with the rate and discount of
    the row, exactly when one row of the rates table has both the operator
    and the supplier; with no such row, or with more than one, it reports
    that there is no rate. *)
Theorem negotiated_rate_needs_exactly_one_row :
  forall fs op sup w rows,
    field_of "operator_id" fs = Some (VStr op) ->
    field_of "supplier_id" fs = Some (VStr sup) ->
    outage (supabase w) = None ->
    field_of "operator_supplier_rates" (tables (supabase w)) = Some rows ->
    exists r w',
      hasNegotiatedRate (VObj fs) w = (Return r, w') /\
      success r = true /\
      asked_of_cache w' = asked_of_cache w /\
      data r = Some
        match filter (fun c => column_is "operator_id" op c &&
                               column_is "supplier_id" sup c) rows with
        | [row] => rate_found row
        | _ => VObj [("has_rate", VBool false)]
        end.
Proof.
  intros fs op sup w rows Hop Hsup Hup Htable.
  destruct (hasNegotiatedRate_answer fs op sup w rows Hop Hsup Hup Htable)
    as (r & Hr & Hok & Hasked & Hdata).
  exists r, (hasNegotiatedRate (VObj fs) w).2.
  split; [apply run_result, Hr |]. auto.
Qed.

Lemma run_list db table cols filters rows :
  outage db = None ->
  field_of table (tables db) = Some rows ->
  Postgres.run db (mkQuery table cols filters None None false) =
  mkReply (VArr (VObj <$> (Postgres.project cols <$> passing filters rows))) None.
Proof.
  intros Hup Htable. unfold Postgres.run, passing. simpl. rewrite Hup, Htable. reflexivity.
Qed.

Lemma run_first db table cols filters rows n :
  outage db = None ->
  field_of table (tables db) = Some rows ->
  0 <= n ->
  Postgres.run db (mkQuery table cols filters None (Some (VNum n)) false) =
  mkReply (VArr (VObj <$> (Postgres.project cols <$> take (Z.to_nat n) (passing filters rows))))
          None.
Proof.
  intros Hup Htable Hn. unfold Postgres.run, passing. simpl. rewrite Hup, Htable.
  destruct (Z.leb_spec 0 n); [reflexivity | lia].
Qed.

Lemma supplier_type_filter op ty rows :
  passing ([mkFilter Eq_ "operator_id" (VStr op)] ++
           (if truthy (VStr ty) && negb (Js.eqb (VStr ty) (VStr "any"))
            then [mkFilter Eq_ "supplier_type" (VStr ty)] else []))
          rows =
  filter (fun c => rate_wanted op (Some ty) c) rows.
Proof.
  apply passing_ext. intros row. unfold rate_wanted.
  cbn [truthy Js.eqb]. destruct (String.eqb ty "") eqn:Hempty; simpl.
  - rewrite holds_eq_string. rewrite !andb_true_r. reflexivity.
  - destruct (String.eqb ty "any") eqn:Hany; simpl;
      rewrite !holds_eq_string, ?andb_true_r; reflexivity.
Qed.

Lemma getSupplierRates_rows fs op ty w rows :
  field_of "operator_id" fs = Some (VStr op) ->
  field_of "supplier_type" fs = VStr <$> ty ->
  misses w ->
  outage (supabase w) = None ->
  field_of "operator_supplier_rates" (tables (supabase w)) = Some rows ->
  wp (getSupplierRates (VObj fs)) w
     (fun o _ =>
        exists r, o = Return r /\ success r = true /\
          data r = Some (VArr (VObj <$> (Postgres.project rate_columns <$>
                            filter (fun c => rate_wanted op ty c) rows)))).
Proof.
  intros Hop Hty Hmiss Hup Htable.
  pose proof (fun key => misses_val key (S (ticks w)) w Hmiss) as Hval.
  assert (forall q, q = mkQuery "operator_supplier_rates" rate_columns
                        ([mkFilter Eq_ "operator_id" (VStr op)] ++
                         match ty with
                         | Some t =>
                             if truthy (VStr t) && negb (Js.eqb (VStr t) (VStr "any"))
                             then [mkFilter Eq_ "supplier_type" (VStr t)] else []
                         | None => []
                         end) None None false ->
            Postgres.run (supabase w) q =
            mkReply (VArr (VObj <$> (Postgres.project rate_columns <$>
                             filter (fun c => rate_wanted op ty c) rows))) None) as Hrun.
  { intros q ->. rewrite (run_list _ _ _ _ rows Hup Htable). repeat f_equal.
    destruct ty as [t |]; [apply supplier_type_filter |].
    apply passing_ext. intros row. unfold rate_wanted. simpl.
    rewrite holds_eq_string, !andb_true_r. reflexivity. }
  unfold getSupplierRates. cbv zeta.
  destruct ty as [t |]; simpl in Hty;
    repeat known_step ltac:(first [rewrite Hval | rewrite Hop | rewrite Hty]);
    expose_query;
    match goal with
    | H : reply_error (Postgres.run _ ?q) = _ |- _ =>
        rewrite (Hrun q) in H
          by (cbn [truthy Js.eqb]; split_ifs; reflexivity);
        rewrite ?(Hrun q) by (cbn [truthy Js.eqb]; split_ifs; reflexivity)
    end;
    try discriminate;
    (eexists; split; [reflexivity | split; reflexivity]).
Qed.

Lemma getOperatorSuppliers_rows op w rows :
  misses w ->
  outage (supabase w) = None ->
  field_of "operator_supplier_rates" (tables (supabase w)) = Some rows ->
  wp (getOperatorSuppliers (VStr op)) w
     (fun o _ =>
        exists r, o = Return r /\ success r = true /\
          data r = Some (VArr (VObj <$> (Postgres.project supplier_columns <$>
                            filter (fun c => column_is "operator_id" op c) rows)))).
Proof.
  intros Hmiss Hup Htable.
  assert (forall key, getCached_val key w = VNull) as Hval.
  { intros key. unfold getCached_val. rewrite (Hmiss key). reflexivity. }
  unfold getOperatorSuppliers. cbv zeta.
  repeat known_step ltac:(rewrite Hval);
    expose_query;
    match goal with
    | H : reply_error (Postgres.run _ _) = _ |- _ =>
        rewrite (run_list _ _ _ _ rows Hup Htable) in H;
        rewrite ?(run_list _ _ _ _ rows Hup Htable)
    end;
    try discriminate;
    rewrite (passing_ext [mkFilter Eq_ "operator_id" (VStr op)]
               (column_is "operator_id" op) rows)
      by (intros row; simpl; rewrite holds_eq_string; apply andb_true_r);
    (eexists; split; [reflexivity | split; reflexivity]).
Qed.

(** X14. On a cache miss with the store answering, the supplier rates of an
    operator are the rows of the rates table that carry the operator's id
    and, when a type of supplier other than any is asked for, that type; no
    type, the empty string and any all give every row of the operator. The
    rows come in the order of the table, with nine columns for
    get_supplier_rates and four for the operator's supplier list. *)
Theorem supplier_rates_selection :
  forall op w rows,
    misses w ->
    outage (supabase w) = None ->
    field_of "operator_supplier_rates" (tables (supabase w)) = Some rows ->
    (forall fs ty,
        field_of "operator_id" fs = Some (VStr op) ->
        field_of "supplier_type" fs = VStr <$> ty ->
        exists r w',
          getSupplierRates (VObj fs) w = (Return r, w') /\
          success r = true /\
          data r = Some (VArr (VObj <$> (Postgres.project rate_columns <$>
                            filter (fun c => rate_wanted op ty c) rows)))) /\
    (exists r w',
        getOperatorSuppliers (VStr op) w = (Return r, w') /\
        success r = true /\
        data r = Some (VArr (VObj <$> (Postgres.project supplier_columns <$>
                          filter (fun c => column_is "operator_id" op c) rows)))).
Proof.
  intros op w rows Hmiss Hup Htable. split.
  - intros fs ty Hop Hty.
    destruct (getSupplierRates_rows fs op ty w rows Hop Hty Hmiss Hup Htable)
      as (r & Hr & Hok & Hdata).
    exists r, (getSupplierRates (VObj fs) w).2.
    split; [apply run_result, Hr | auto].
  - destruct (getOperatorSuppliers_rows op w rows Hmiss Hup Htable)
      as (r & Hr & Hok & Hdata).
    exists r, (getOperatorSuppliers (VStr op) w).2.
    split; [apply run_result, Hr | auto].
Qed.

(** ** Courses by name (tools/courses.ts) *)

Lemma findCourseByName_rows name' w rows :
  literal name' = true ->
  outage (supabase w) = None ->
  field_of "golf_courses" (tables (supabase w)) = Some rows ->
  wp (findCourseByName (VStr name')) w
     (fun o w' =>
        exists r, o = Return r /\ success r = true /\
          asked_of_cache w' = asked_of_cache w /\
          data r = Some (VArr (VObj <$> (Postgres.project name_columns <$>
                            take 10 (filter (fun c => column_contains "name" name' c)
                                            rows))))).
Proof.
  intros Hlit Hup Htable.
  unfold findCourseByName. cbv zeta.
  repeat known_step ltac:(fail);
    expose_query;
    match goal with
    | H : reply_error (Postgres.run _ _) = _ |- _ =>
        rewrite (run_first _ _ _ _ rows 10 Hup Htable) in H by lia;
        rewrite ?(run_first _ _ _ _ rows 10 Hup Htable) by lia
    end;
    try discriminate;
    rewrite (passing_ext [mkFilter Ilike "name" (VStr ("%" +:+ name' +:+ "%"))]
               (column_contains "name" name') rows)
      by (intros row; simpl; rewrite (holds_ilike "name" name' row Hlit); apply andb_true_r);
    (eexists; split; [reflexivity |]);
    (split; [reflexivity |]);
    (split; [autorewrite with asked; reflexivity | reflexivity]).
Qed.

(** X15. With the store answering, a search by a name made of ordinary
    characters returns the first ten rows of the courses table, in the order
    of the table, whose name contains the name asked for, case ignored; the
    cache is never asked. *)
Theorem find_by_name_returns_the_first_ten :
  forall name' w rows,
    literal name' = true ->
    outage (supabase w) = None ->
    field_of "golf_courses" (tables (supabase w)) = Some rows ->
    exists r w',
      findCourseByName (VStr name') w = (Return r, w') /\
      success r = true /\
      asked_of_cache w' = asked_of_cache w /\
      data r = Some (VArr (VObj <$> (Postgres.project name_columns <$>
                        take 10 (filter (fun c => column_contains "name" name' c) rows)))).
Proof.
  intros name' w rows Hlit Hup Htable.
  destruct (findCourseByName_rows name' w rows Hlit Hup Htable)
    as (r & Hr & Hok & Hasked & Hdata).
  exists r, (findCourseByName (VStr name') w).2.
  split; [apply run_result, Hr | auto].
Qed.

(** ** Golf resorts (tools/accommodations.ts) *)

Lemma holds_eq_true col r :
  Postgres.holds (mkFilter Eq_ col (VBool true)) r = column_true col r.
Proof.
  unfold Postgres.holds, column_true. simpl.
  destruct (field_of col r) as [[| | [] | | | |] |]; reflexivity.
Qed.

Lemma resort_filter region rows :
  (forall s, region = Some s -> literal s = true) ->
  passing ([mkFilter Eq_ "is_golf_resort" (VBool true)] ++
           (if truthy (region_arg region)
            then [mkFilter Ilike "region"
                           (VStr ("%" +:+ toString (region_arg region) +:+ "%"))]
            else []))
          rows =
  filter (fun c => resort_wanted region c) rows.
Proof.
  intros Hlit. apply passing_ext. intros row. unfold resort_wanted.
  destruct region as [s |]; simpl.
  - destruct (String.eqb s "") eqn:Hs; simpl.
    + rewrite holds_eq_true, !andb_true_r. reflexivity.
    + rewrite holds_eq_true, (holds_ilike "region" s row (Hlit s eq_refl)), !andb_true_r.
      reflexivity.
  - rewrite holds_eq_true, !andb_true_r. reflexivity.
Qed.

Lemma getGolfResorts_rows region w rows :
  (forall s, region = Some s -> literal s = true) ->
  misses w ->
  outage (supabase w) = None ->
  field_of "accommodations" (tables (supabase w)) = Some rows ->
  wp (getGolfResorts (region_arg region)) w
     (fun o _ =>
        exists r, o = Return r /\ success r = true /\
          data r = Some (VArr (VObj <$> filter (fun c => resort_wanted region c) rows))).
Proof.
  intros Hlit Hmiss Hup Htable.
  pose proof (fun key => misses_val key (S (ticks w)) w Hmiss) as Hval.
  assert (forall q, q = mkQuery "accommodations" ["*"]
                        ([mkFilter Eq_ "is_golf_resort" (VBool true)] ++
                         (if truthy (region_arg region)
                          then [mkFilter Ilike "region"
                                  (VStr ("%" +:+ toString (region_arg region) +:+ "%"))]
                          else [])) None None false ->
            Postgres.run (supabase w) q =
            mkReply (VArr (VObj <$> filter (fun c => resort_wanted region c) rows)) None)
    as Hrun.
  { intros q ->. rewrite (run_list _ _ _ _ rows Hup Htable), project_all_rows.
    rewrite (resort_filter region rows Hlit). reflexivity. }
  unfold getGolfResorts. cbv zeta.
  repeat first [rewrite Hval | progress cbn [truthy] | wp_step];
    expose_query;
    match goal with
    | H : reply_error (Postgres.run _ ?q) = _ |- _ =>
        rewrite (Hrun q) in H by (split_ifs; reflexivity);
        rewrite ?(Hrun q) by (split_ifs; reflexivity)
    end;
    try discriminate;
    (eexists; split; [reflexivity | split; reflexivity]).
Qed.

(** X16. On a cache miss with the store answering, the golf resorts lookup
    returns, whole and in the order of the table, the accommodations marked
    as golf resorts whose region contains the region asked for, case
    ignored, when that is made of ordinary characters; with no region, or
    the empty one, it returns all golf resorts. *)
Theorem golf_resorts_selection :
  forall region w rows,
    (forall s, region = Some s -> literal s = true) ->
    misses w ->
    outage (supabase w) = None ->
    field_of "accommodations" (tables (supabase w)) = Some rows ->
    exists r w',
      getGolfResorts (region_arg region) w = (Return r, w') /\
      success r = true /\
      data r = Some (VArr (VObj <$> filter (fun c => resort_wanted region c) rows)).
Proof.
  intros region w rows Hlit Hmiss Hup Htable.
  destruct (getGolfResorts_rows region w rows Hlit Hmiss Hup Htable)
    as (r & Hr & Hok & Hdata).
  exists r, (getGolfResorts (region_arg region) w).2.
  split; [apply run_result, Hr | auto].
Qed.

(** ** On the small deployment *)

Lemma demo_world_misses : misses demo_world.
Proof. exact (empty_cache_misses demo_world eq_refl). Qed.

Lemma demo_trade_misses : misses demo_trade.
Proof. exact (empty_cache_misses demo_trade eq_refl). Qed.

Lemma demo_priced_run :
  searchCourses (VObj demo_priced) demo_world = (Return demo_priced_answer, demo_priced_after).
Proof.
  apply (run_result (searchCourses (VObj demo_priced)) demo_world demo_priced_answer).
  vm_compute. reflexivity.
Qed.

Lemma search_results_witness :
  exists rows, data demo_priced_answer = Some (VArr (VObj <$> rows)) /\
               respects "green_fee_standard_cents" demo_priced rows /\
               forall ty, ty <> "" -> field_of "course_type" demo_priced = Some (VStr ty) ->
                 List.Forall (fun c => column_is "course_type" ty c = true) rows.
Proof.
  exact (proj1 (search_results_respect_the_request demo_priced demo_world demo_priced_answer
                  demo_priced_after demo_world_misses eq_refl) demo_priced_run).
Defined.

Lemma details_lookup_witness :
  exists r w',
    getCourseDetails (VObj [("course_id", VStr "c")]) demo_world = (Return r, w') /\
    finds_the_one "Course not found or database error: " "c" demo_courses r.
Proof.
  exact (proj1 (details_lookup_finds_the_one_row [("course_id", VStr "c")] "c" demo_world
                  demo_courses demo_world_misses eq_refl) eq_refl eq_refl).
Defined.

Lemma negotiated_rate_witness :
  exists r w',
    hasNegotiatedRate demo_rate_args demo_trade = (Return r, w') /\
    success r = true /\
    asked_of_cache w' = asked_of_cache demo_trade /\
    data r = Some
      match filter (fun c => column_is "operator_id" demo_operator c &&
                             column_is "supplier_id" demo_supplier c) demo_rates with
      | [row] => rate_found row
      | _ => VObj [("has_rate", VBool false)]
      end.
Proof.
  exact (negotiated_rate_needs_exactly_one_row
           [("operator_id", VStr demo_operator); ("supplier_id", VStr demo_supplier)]
           demo_operator demo_supplier demo_trade demo_rates
           eq_refl eq_refl eq_refl eq_refl).
Defined.

Lemma supplier_rates_witness :
  (forall fs ty,
      field_of "operator_id" fs = Some (VStr demo_operator) ->
      field_of "supplier_type" fs = VStr <$> ty ->
      exists r w',
        getSupplierRates (VObj fs) demo_trade = (Return r, w') /\
        success r = true /\
        data r = Some (VArr (VObj <$> (Postgres.project rate_columns <$>
                          filter (fun c => rate_wanted demo_operator ty c) demo_rates)))) /\
  (exists r w',
      getOperatorSuppliers (VStr demo_operator) demo_trade = (Return r, w') /\
      success r = true /\
      data r = Some (VArr (VObj <$> (Postgres.project supplier_columns <$>
                        filter (fun c => column_is "operator_id" demo_operator c)
                               demo_rates)))).
Proof.
  exact (supplier_rates_selection demo_operator demo_trade demo_rates demo_trade_misses
           eq_refl eq_refl).
Defined.

Lemma find_by_name_witness :
  exists r w',
    findCourseByName (VStr "b") demo_world = (Return r, w') /\
    success r = true /\
    asked_of_cache w' = asked_of_cache demo_world /\
    data r = Some (VArr (VObj <$> (Postgres.project name_columns <$>
                      take 10 (filter (fun c => column_contains "name" "b" c) demo_courses)))).
Proof.
  exact (find_by_name_returns_the_first_ten "b" demo_world demo_courses
           eq_refl eq_refl eq_refl).
Defined.

Lemma ireland_is_literal : forall s, Some "ireland" = Some s -> literal s = true.
Proof. intros s [= <-]. reflexivity. Qed.

Lemma golf_resorts_witness :
  exists r w',
    getGolfResorts (region_arg (Some "ireland")) demo_trade = (Return r, w') /\
    success r = true /\
    data r = Some (VArr (VObj <$> filter (fun c => resort_wanted (Some "ireland") c)
                                         demo_hotels)).
Proof.
  exact (golf_resorts_selection (Some "ireland") demo_trade demo_hotels ireland_is_literal
           demo_trade_misses eq_refl eq_refl).
Defined.

(** * The execution log (utils/logger.ts, server.ts) *)

Lemma logged_text e l msg :
  text l = msg -> List.Forall (fun x => text x = msg) (logged e l).
Proof.
  intros H. unfold logged. destruct (written e (level l)); repeat constructor. exact H.
Qed.

Lemma wp_logger_text lvl msg m w Q :
  (forall es, List.Forall (fun e => text e = msg) es ->
              Q (Return tt) (with_log (log w ++ es) w)) ->
  wp (logger lvl msg m) w Q.
Proof. intros H. apply wp_logger. apply H. apply logged_text. reflexivity. Qed.

Lemma lines_snoc l e :
  execution_lines (l ++ [e]) =
  execution_lines l ++ (if String.eqb (text e) "Tool execution" then [e] else []).
Proof.
  unfold execution_lines. rewrite filter_app. f_equal.
  destruct (String.eqb (text e) "Tool execution") eqn:He.
  - rewrite filter_cons_True by (rewrite He; exact I). reflexivity.
  - rewrite filter_cons_False by (rewrite He; exact id). reflexivity.
Qed.

Lemma lines_app_other l es msg :
  List.Forall (fun e => text e = msg) es ->
  String.eqb msg "Tool execution" = false ->
  execution_lines (l ++ es) = execution_lines l.
Proof.
  intros Hes Hmsg. unfold execution_lines. rewrite filter_app.
  assert (filter (fun e => String.eqb (text e) "Tool execution") es = []) as ->.
  { induction Hes as [| e es He _ IH]; [reflexivity |].
    rewrite filter_cons_False by (rewrite He, Hmsg; exact id). exact IH. }
  apply app_nil_r.
Qed.

Lemma lines_other w es msg :
  List.Forall (fun e => text e = msg) es ->
  String.eqb msg "Tool execution" = false ->
  execution_lines (log (with_log (log w ++ es) w)) = execution_lines (log w).
Proof. intros Hes Hmsg. simpl. exact (lines_app_other _ es msg Hes Hmsg). Qed.

Lemma log_getCached_cases key w :
  exists es, List.Forall (fun e => text e = "Cache get failed") es /\
             log (getCached_post key w) = log w ++ es.
Proof.
  unfold getCached_post, getCached. rewrite bind_unfold. unfold getRedisClient.
  destruct (negb (ENABLE_CACHE (env w)) || unset (REDIS_URL (env w)));
    [exists []; split; [constructor | symmetry; apply app_nil_r] |].
  assert (forall w0, log w0 = log w ->
            let w' := (try_catch
              (value ← redis_get key;
               match value with
               | Some t => if is_empty_text t then mret VNull else lift (JSON_parse t)
               | None => mret VNull
               end)
              (fun error =>
                 logger "warn" "Cache get failed"
                        [("key", VStr key); ("error", error_json error)];;
                 mret VNull) w0).2 in
            exists es, List.Forall (fun e => text e = "Cache get failed") es /\
                       log w' = log w ++ es) as Hbody.
  { intros w0 Hl. unfold try_catch. rewrite bind_unfold. unfold redis_get.
    assert (exists es : list LogEntry,
               List.Forall (fun e => text e = "Cache get failed") es /\
               log w = log w ++ es) as Hnone
      by (exists []; split; [constructor | symmetry; apply app_nil_r]).
    destruct (reachable (redis w0)).
    - destruct (snd <$> entries (redis w0) !! key) as [t |]; [| simpl; rewrite Hl; exact Hnone].
      destruct (is_empty_text t); [simpl; rewrite Hl; exact Hnone |].
      destruct t as [v | s]; [simpl; rewrite Hl; exact Hnone |].
      simpl. rewrite bind_unfold, logger_eq. simpl. rewrite Hl.
      eexists. split; [| reflexivity]. apply logged_text. reflexivity.
    - cbv beta iota zeta. rewrite bind_unfold, logger_eq. simpl. rewrite Hl.
      eexists. split; [| reflexivity]. apply logged_text. reflexivity. }
  destruct (redisClient w); simpl negb; cbv iota; apply Hbody; reflexivity.
Qed.

Lemma log_setCached_cases key v ttl w :
  exists es, List.Forall (fun e => text e = "Cache set failed") es /\
             log (setCached_post key v ttl w) = log w ++ es.
Proof.
  assert (exists es : list LogEntry,
             List.Forall (fun e => text e = "Cache set failed") es /\
             log w = log w ++ es) as Hnone
    by (exists []; split; [constructor | symmetry; apply app_nil_r]).
  unfold setCached_post, setCached. rewrite bind_unfold. unfold getRedisClient.
  destruct (negb (ENABLE_CACHE (env w)) || unset (REDIS_URL (env w))); [exact Hnone |].
  destruct (redisClient w); simpl negb; cbv iota;
    unfold try_catch, redis_setex; simpl;
    (destruct (reachable (redis w)); [destruct (_ <=? 0) |]; simpl;
     first [ exact Hnone
           | rewrite logger_eq; simpl; eexists;
             (split; [| reflexivity]); apply logged_text; reflexivity ]).
Qed.

Lemma log_getSupabaseClient_cases w :
  exists es, List.Forall (fun e => text e = "Initializing Supabase client") es /\
             log (getSupabaseClient_post w) = log w ++ es.
Proof.
  unfold getSupabaseClient_post, getSupabaseClient.
  destruct (supabaseClient w);
    [exists []; split; [constructor | symmetry; apply app_nil_r] |].
  rewrite logger_eq. simpl. eexists. split; [| reflexivity].
  apply logged_text. reflexivity.
Qed.

Lemma lines_getCached key w :
  execution_lines (log (getCached_post key w)) = execution_lines (log w).
Proof.
  destruct (log_getCached_cases key w) as (es & Hes & ->).
  exact (lines_app_other _ es _ Hes eq_refl).
Qed.

Lemma lines_setCached key v ttl w :
  execution_lines (log (setCached_post key v ttl w)) = execution_lines (log w).
Proof.
  destruct (log_setCached_cases key v ttl w) as (es & Hes & ->).
  exact (lines_app_other _ es _ Hes eq_refl).
Qed.

Lemma lines_getSupabaseClient w :
  execution_lines (log (getSupabaseClient_post w)) = execution_lines (log w).
Proof.
  destruct (log_getSupabaseClient_cases w) as (es & Hes & ->).
  exact (lines_app_other _ es _ Hes eq_refl).
Qed.

Lemma lines_with_ticks n w :
  execution_lines (log (with_ticks n w)) = execution_lines (log w).
Proof. reflexivity. Qed.

Lemma lines_with_io l w :
  execution_lines (log (with_io l w)) = execution_lines (log w).
Proof. reflexivity. Qed.

Create Rewrite HintDb lines.
#[export] Hint Rewrite lines_getCached lines_setCached lines_getSupabaseClient
  lines_with_ticks lines_with_io : lines.

(** Symbolic execution that remembers the text of each line logged. *)
Ltac log_step :=
  lazymatch goal with
  | |- wp (logger _ _ _) _ _ => apply wp_logger_text; intros ?es ?Htext
  | _ => wp_step
  end.

Ltac quiet_leaf :=
  unfold quiet;
  split; [autorewrite with cache; reflexivity |];
  split; [world_simpl; reflexivity |];
  repeat first
    [ progress autorewrite with lines
    | match goal with
      | H : List.Forall _ ?es |- context [log (with_log (log ?w0 ++ ?es) ?w0)] =>
          rewrite (lines_other w0 es _ H eq_refl)
      end ];
  reflexivity.

Lemma searchCourses_quiet params w : wp (searchCourses params) w (quiet w).
Proof. unfold searchCourses. cbv zeta. repeat log_step; quiet_leaf. Qed.
Lemma getCourseDetails_quiet params w : wp (getCourseDetails params) w (quiet w).
Proof. unfold getCourseDetails. cbv zeta. repeat log_step; quiet_leaf. Qed.
Lemma getRecommendedCourses_quiet params w : wp (getRecommendedCourses params) w (quiet w).
Proof. unfold getRecommendedCourses. cbv zeta. repeat log_step; quiet_leaf. Qed.
Lemma findCourseByName_quiet courseName w : wp (findCourseByName courseName) w (quiet w).
Proof. unfold findCourseByName. cbv zeta. repeat log_step; quiet_leaf. Qed.
Lemma searchAccommodations_quiet params w : wp (searchAccommodations params) w (quiet w).
Proof. unfold searchAccommodations. cbv zeta. repeat log_step; quiet_leaf. Qed.
Lemma getAccommodationDetails_quiet params w :
  wp (getAccommodationDetails params) w (quiet w).
Proof. unfold getAccommodationDetails. cbv zeta. repeat log_step; quiet_leaf. Qed.
Lemma getGolfResorts_quiet region w : wp (getGolfResorts region) w (quiet w).
Proof. unfold getGolfResorts. cbv zeta. repeat log_step; quiet_leaf. Qed.
Lemma getSupplierRates_quiet params w : wp (getSupplierRates params) w (quiet w).
Proof. unfold getSupplierRates. cbv zeta. repeat log_step; quiet_leaf. Qed.
Lemma hasNegotiatedRate_quiet params w : wp (hasNegotiatedRate params) w (quiet w).
Proof. unfold hasNegotiatedRate. cbv zeta. repeat log_step; quiet_leaf. Qed.
Lemma getOperatorSuppliers_quiet operatorId w :
  wp (getOperatorSuppliers operatorId) w (quiet w).
Proof. unfold getOperatorSuppliers. cbv zeta. repeat log_step; quiet_leaf. Qed.

Lemma find_course_by_name_quiet params w :
  wp (courseName ← lift (prop params "courseName"); findCourseByName courseName) w (quiet w).
Proof.
  wp_step. wp_step. wp_step.
  - apply findCourseByName_quiet.
  - quiet_leaf.
Qed.

Lemma get_operator_suppliers_quiet params w :
  wp (operatorId ← lift (prop params "operatorId"); getOperatorSuppliers operatorId) w
     (quiet w).
Proof.
  wp_step. wp_step. wp_step.
  - apply getOperatorSuppliers_quiet.
  - quiet_leaf.
Qed.

Lemma registered_quiet t args w o w' :
  In t tools -> execute t args w = (o, w') -> quiet w o w'.
Proof.
  intros Hin Hexec.
  assert (wp (execute t args) w (quiet w)) as Hwp.
  { simpl in Hin.
    repeat (destruct Hin as [<- | Hin]); simpl execute;
      [ apply searchCourses_quiet
      | apply getCourseDetails_quiet
      | apply getRecommendedCourses_quiet
      | apply find_course_by_name_quiet
      | apply searchAccommodations_quiet
      | apply getAccommodationDetails_quiet
      | apply getGolfResorts_quiet
      | apply getSupplierRates_quiet
      | apply hasNegotiatedRate_quiet
      | apply get_operator_suppliers_quiet
      | destruct Hin ]. }
  exact (wp_elim _ _ _ _ _ Hwp Hexec).
Qed.

(** What the transports add to the log around a handler's run. *)
Lemma line_after_run tool w w2 ok extra :
  env w2 = env w ->
  clock w2 = clock w ->
  execution_lines (log w2) = execution_lines (log w) ->
  execution_logged tool w
    (with_log (log w2 ++
               logged (env w2)
                 (mkLog "info" "Tool execution"
                        ([("tool", VStr tool);
                          ("duration_ms", VNum (clock w2 (ticks w2) - clock w (ticks w)));
                          ("success", VBool ok)] ++ extra)))
              (with_ticks (S (ticks w2)) w2))
    ok.
Proof.
  intros Henv Hclock Hlines. unfold execution_logged, logged. rewrite Henv. simpl level.
  destruct (written (env w) "info").
  - eexists. split.
    + simpl. rewrite lines_snoc, Hlines. reflexivity.
    + unfold execution_line. simpl. rewrite Hclock. repeat split.
  - simpl. rewrite app_nil_r. exact Hlines.
Qed.

Lemma execution_logged_after_error tool w w' ok es msg :
  execution_logged tool w w' ok ->
  List.Forall (fun e => text e = msg) es ->
  String.eqb msg "Tool execution" = false ->
  execution_logged tool w (with_log (log w' ++ es) w') ok.
Proof.
  unfold execution_logged. intros H Hes Hmsg.
  destruct (written (env w) "info").
  - destruct H as (line & Hlines & Hline). exists line. split.
    + simpl. rewrite (lines_app_other _ es msg Hes Hmsg). exact Hlines.
    + exact Hline.
  - simpl. rewrite (lines_app_other _ es msg Hes Hmsg). exact H.
Qed.

Ltac log_run_in H :=
  unfold logToolExecution, logError, Date_now in H;
  cbv beta iota in H;
  repeat (first [rewrite logger_bind in H | rewrite logger_eq in H
                | rewrite bind_unfold in H];
          cbv beta iota in H);
  simpl in H.

(** X17. Each transport hands the logger exactly one execution line for a
    call it carries out: for the tool named, with the time between the first
    and the last reading of the clock during the call, and with the success
    flag the answer carries. The line is written to the log when LOG_LEVEL
    is info or debug; when it is warn or error the call leaves no execution
    line. The session handler does so for an unknown tool too, while the
    REST handler answers an unknown tool without logging. *)
Theorem every_call_is_logged_once :
  forall req args w,
    (forall t resp w',
        getTool (toolName req) = Some t ->
        invokeTool req w = (Return resp, w') ->
        exists ok, execution_logged (toolName req) w w' ok /\
                   prop (json resp) "success" = Return (VBool ok)) /\
    (forall resp w',
        getTool (toolName req) = None ->
        invokeTool req w = (Return resp, w') ->
        log w' = log w) /\
    (forall reply w',
        callTool (toolName req) args w = (Return reply, w') ->
        exists ok, execution_logged (toolName req) w w' ok /\
                   prop (payload reply) "success" = Return (VBool ok)).
Proof.
  intros req args w. split; [| split].
  - intros t resp w' Hget Hrun. unfold invokeTool in Hrun.
    rewrite bind_unfold in Hrun. unfold Date_now at 1 in Hrun. cbv beta iota in Hrun.
    unfold try_catch in Hrun. rewrite Hget in Hrun.
    rewrite bind_unfold in Hrun. unfold lift in Hrun.
    destruct (inputSchema_parse (inputSchema t) (body req)) as [validated | e] eqn:Hparse.
    + apply getTool_Some in Hget as [Hin _].
      rewrite bind_unfold in Hrun.
      destruct (execute t validated (with_ticks (S (ticks w)) w)) as [[r | e] w2] eqn:Hexec.
      * destruct (registered_quiet t validated _ _ _ Hin Hexec) as (Henv & Hclock & Hlines).
        log_run_in Hrun. injection Hrun as <- <-.
        exists (success r). split; [| reflexivity].
        apply (line_after_run (toolName req) w w2 (success r) []); assumption.
      * destruct (validated_execution_returns t (body req) validated
                    (with_ticks (S (ticks w)) w) Hin Hparse) as (r & w1 & Hret).
        congruence.
    + log_run_in Hrun. injection Hrun as <- <-.
      exists false. split; [| reflexivity].
      pose proof (line_after_run (toolName req) w (with_ticks (S (ticks w)) w) false []
                    eq_refl eq_refl eq_refl) as Hline.
      refine (execution_logged_after_error _ _ _ _
               (logged (env w) (mkLog "error" "Error occurred" _))
               "Error occurred" Hline _ eq_refl).
      apply logged_text. reflexivity.
  - intros resp w' Hget Hrun. unfold invokeTool in Hrun.
    rewrite bind_unfold in Hrun. unfold Date_now at 1 in Hrun. cbv beta iota in Hrun.
    unfold try_catch in Hrun. rewrite Hget in Hrun. simpl in Hrun.
    injection Hrun as _ <-. reflexivity.
  - intros reply w' Hrun. unfold callTool in Hrun.
    rewrite bind_unfold in Hrun. unfold Date_now at 1 in Hrun. cbv beta iota in Hrun.
    unfold try_catch in Hrun.
    destruct (getTool (toolName req)) as [t |] eqn:Hget.
    + rewrite bind_unfold in Hrun. unfold lift in Hrun.
      destruct (inputSchema_parse (inputSchema t) args) as [validated | e] eqn:Hparse.
      * apply getTool_Some in Hget as [Hin _].
        rewrite bind_unfold in Hrun.
        destruct (execute t validated (with_ticks (S (ticks w)) w)) as [[r | e] w2]
          eqn:Hexec.
        -- destruct (registered_quiet t validated _ _ _ Hin Hexec)
             as (Henv & Hclock & Hlines).
           log_run_in Hrun. injection Hrun as <- <-.
           exists (success r). split; [| reflexivity].
           apply (line_after_run (toolName req) w w2 (success r)); assumption.
        -- destruct (validated_execution_returns t args validated
                       (with_ticks (S (ticks w)) w) Hin Hparse) as (r & w1 & Hret).
           congruence.
      * log_run_in Hrun. injection Hrun as <- <-.
        exists false. split; [| reflexivity].
        pose proof (line_after_run (toolName req) w (with_ticks (S (ticks w)) w) false []
                      eq_refl eq_refl eq_refl) as Hline.
        refine (execution_logged_after_error _ _ _ _
                 (logged (env w) (mkLog "error" "Error occurred" _))
                 "Error occurred" Hline _ eq_refl).
        apply logged_text. reflexivity.
    + simpl in Hrun. log_run_in Hrun. injection Hrun as <- <-.
      exists false. split; [| reflexivity].
      pose proof (line_after_run (toolName req) w (with_ticks (S (ticks w)) w) false []
                    eq_refl eq_refl eq_refl) as Hline.
      refine (execution_logged_after_error _ _ _ _
               (logged (env w) (mkLog "error" "Error occurred" _))
               "Error occurred" Hline _ eq_refl).
      apply logged_text. reflexivity.
Qed.

(** With LOG_LEVEL at error, a successful call leaves nothing in the log;
    at info, the same call leaves its execution line last. *)
Example level_decides_what_is_written :
  log (invokeTool (demo_request None) demo_silent).2 = [] /\
  last (log (invokeTool (demo_request None) demo_world).2) =
  Some (mkLog "info" "Tool execution"
              [("tool", VStr "search_courses"); ("duration_ms", VNum 15);
               ("success", VBool true)]).
Proof. split; vm_compute; reflexivity. Qed.

(** * The connection test, the health check and the start (utils/database.ts,
      server.ts, index.ts) *)

Lemma store_answers_iff w :
  store_answers w = true <->
  outage (supabase w) = None /\ exists rows, field_of "golf_courses" (tables (supabase w)) = Some rows.
Proof.
  unfold store_answers. rewrite bool_decide_eq_true.
  unfold Postgres.run, probe. simpl.
  destruct (outage (supabase w)) as [m |].
  - split; [discriminate | intros [H _]; discriminate H].
  - destruct (field_of "golf_courses" (tables (supabase w))) as [rows |]; simpl.
    + split; [eauto | reflexivity].
    + split; [discriminate | intros [_ [rows H]]; discriminate H].
Qed.

(** The connection test returns whether the store answered. *)
Lemma testDatabaseConnection_result w :
  wp testDatabaseConnection w
     (fun o w' => o = Return (store_answers w) /\
                  sent w' = sent w ++ [probe] /\
                  clock w' = clock w /\ ticks w' = ticks w /\
                  supabase w' = supabase w /\ redis w' = redis w /\
                  (store_answers w = true ->
                   log w' = log (getSupabaseClient_post w) ++
                            logged (env w)
                              (mkLog "info" "Database connection successful" [])) /\
                  (store_answers w = false ->
                   exists m,
                     log w' = log (getSupabaseClient_post w) ++
                              [mkLog "error" "Database connection test failed" m])).
Proof.
  unfold testDatabaseConnection, store_answers.
  apply wp_try, wp_bind, wp_getSupabaseClient. cbv beta iota.
  apply wp_bind, wp_await. cbv beta iota.
  rewrite supabase_getSupabaseClient.
  destruct (reply_error (Postgres.run (supabase w) probe)) as [m |] eqn:Herr.
  - apply wp_bind, wp_logger. cbv beta iota. apply wp_ret.
    rewrite bool_decide_eq_false_2 by discriminate.
    split; [reflexivity |]. split; [world_simpl; reflexivity |].
    split; [world_simpl; reflexivity |]. split; [world_simpl; reflexivity |].
    split; [world_simpl; reflexivity |]. split; [autorewrite with cache; reflexivity |].
    split; [intros Hbad; discriminate Hbad | intros _].
    unfold logged. simpl level. rewrite written_error. eexists. reflexivity.
  - apply wp_bind, wp_logger. cbv beta iota. apply wp_ret.
    rewrite bool_decide_eq_true_2 by reflexivity.
    split; [reflexivity |]. split; [world_simpl; reflexivity |].
    split; [world_simpl; reflexivity |]. split; [world_simpl; reflexivity |].
    split; [world_simpl; reflexivity |]. split; [autorewrite with cache; reflexivity |].
    split; [intros _ | intros Hbad; discriminate Hbad].
    simpl log. autorewrite with cache. reflexivity.
Qed.

Lemma testDatabaseConnection_eq w :
  exists w',
    testDatabaseConnection w = (Return (store_answers w), w') /\
    sent w' = sent w ++ [probe] /\
    clock w' = clock w /\ ticks w' = ticks w /\
    supabase w' = supabase w /\ redis w' = redis w /\
    (store_answers w = true ->
     log w' = log (getSupabaseClient_post w) ++
              logged (env w) (mkLog "info" "Database connection successful" [])) /\
    (store_answers w = false ->
     exists m,
       log w' = log (getSupabaseClient_post w) ++
                [mkLog "error" "Database connection test failed" m]).
Proof.
  pose proof (testDatabaseConnection_result w) as H. unfold wp in H.
  destruct H as (Hret & Hrest).
  exists (testDatabaseConnection w).2. split; [| exact Hrest].
  apply injective_projections; [exact Hret | reflexivity].
Qed.

(** X18. The connection test never throws. It sends the store one query, for
    the id of at most one course, and returns true exactly when the store
    answers it without an error, which it does whenever it is up and has the
    courses table, be the table empty; it leaves the store, the cache and
    the clock as they were. A failure is logged as an error, which is
    always written; a success goes to the logger as an info line, which is
    written when LOG_LEVEL is info or debug. *)
Theorem connection_test_reports_the_store :
  forall w,
  exists w',
    testDatabaseConnection w = (Return (store_answers w), w') /\
    sent w' = sent w ++ [probe] /\
    (store_answers w = true <->
     outage (supabase w) = None /\
     exists rows, field_of "golf_courses" (tables (supabase w)) = Some rows) /\
    supabase w' = supabase w /\ redis w' = redis w /\ ticks w' = ticks w /\
    (store_answers w = true ->
     log w' = log (getSupabaseClient_post w) ++
              logged (env w) (mkLog "info" "Database connection successful" [])) /\
    (store_answers w = false ->
     exists m,
       log w' = log (getSupabaseClient_post w) ++
                [mkLog "error" "Database connection test failed" m]).
Proof.
  intros w.
  destruct (testDatabaseConnection_eq w)
    as (w' & Hrun & Hsent & _ & Hticks & Hstore & Hredis & Hlog).
  exists w'. split; [exact Hrun |]. split; [exact Hsent |].
  split; [apply store_answers_iff |]. auto.
Qed.

Example empty_table_counts_as_connected :
  (testDatabaseConnection
     (mkWorld demo_env false false (mkRedis true ∅)
              (mkSupabase [("golf_courses", [])] None) demo_clock 0 [] [])).1
  = Return true.
Proof. vm_compute. reflexivity. Qed.


(** X20. The server starts listening only when the connection test at the
    start succeeded; when it failed, the process exits with code 1 without
    listening. Either way one query has gone to the store. *)
Theorem server_starts_only_with_the_store :
  forall port w,
  exists w',
    start port w =
    (Return (if store_answers w then Listening port else Exited 1), w') /\
    sent w' = sent w ++ [probe].
Proof.
  intros port w. unfold start, try_catch.
  rewrite logger_bind. rewrite bind_unfold.
  destruct (testDatabaseConnection_eq
              (with_log (log w ++
                         logged (env w)
                           (mkLog "info" "🚀 Starting Fareway Database MCP Server"
                                  [("environment", VStr (NODE_ENV (env w)));
                                   ("port", VNum port)])) w))
    as (w1 & Hrun & Hsent & _).
  rewrite Hrun. cbv beta iota.
  change (store_answers (with_log _ w)) with (store_answers w).
  destruct (store_answers w); cbn [negb]; cbv beta iota;
    rewrite logger_bind; simpl; eexists; (split; [reflexivity | exact Hsent]).
Qed.

(** * The catalogue of the session protocol and the last error handler
      (server.ts) *)

(** X22. The catalogue of the session protocol lists the ten tools in the
    order of the registry, each with its name and description. For a tool
    registered with an object validator, the properties are the fields of
    its shape and every one of them is listed as required, also a field
    that the validator accepts as absent; a tool registered with a plain
    object is listed with no properties and nothing required. *)
Theorem catalogue_lists_every_field_as_required :
  exists entries,
    listToolsHandler = Return entries /\
    m_name <$> entries = registered_names /\
    (forall i t,
        tools !! i = Some t ->
        exists e,
          entries !! i = Some e /\
          m_name e = name t /\ m_description e = description t /\
          match declared_shape (inputSchema t) with
          | Some shape =>
              m_properties e = ZodShape shape /\ m_required e = shape.*1 /\
              forall k tk, In (k, tk) shape -> may_be_absent tk -> In k (m_required e)
          | None =>
              m_properties e = PlainValue (VObj []) /\ m_required e = []
          end).
Proof.
  eexists. split; [vm_compute; reflexivity |]. split; [reflexivity |].
  intros i t Hi.
  do 10 (destruct i as [| i];
         [ injection Hi as <-; eexists; split; [reflexivity |];
           split; [reflexivity |]; split; [reflexivity |];
           cbn [declared_shape inputSchema];
           first
             [ split; [reflexivity |]; split; [reflexivity |];
               intros k tk Hin _;
               apply (in_map fst) in Hin; exact Hin
             | split; reflexivity ]
         | ]).
  discriminate Hi.
Qed.

(** The body of this request names none of the five fields the catalogue
    lists as required for search_courses, and passes validation. *)
Example required_fields_may_be_absent :
  Zod.parse SearchCoursesSchema (VObj []) = Return (VObj [("limit", VNum 20)]).
Proof. reflexivity. Qed.

(** X23. The last error handler answers 500 and logs the error with the path
    and the method of the request. Unless NODE_ENV is development, what the
    client receives is the same text for every error, with no message in it;
    in development the answer carries the error's message. *)
Theorem error_details_stay_in_the_log :
  forall err path method w,
  exists resp w',
    errorHandler err path method w = (Return resp, w') /\
    status resp = 500 /\
    (NODE_ENV (env w) <> "development" ->
     JSON.stringify (json resp) = Some internal_error_text) /\
    (NODE_ENV (env w) = "development" ->
     prop (json resp) "message" = Return (VStr (emessage err))) /\
    log w' = log w ++
             [mkLog "error" "Error occurred"
                    [("error", error_json err); ("path", VStr path);
                     ("method", VStr method)]].
Proof.
  intros err path method w. unfold errorHandler.
  rewrite bind_unfold. unfold logError, logger. rewrite written_error. cbv beta iota.
  eexists _, _. split; [reflexivity |]. split; [reflexivity |].
  split; [| split; [| reflexivity]].
  - intros Hprod. cbn [json].
    destruct (String.eqb_spec (NODE_ENV (env w)) "development"); [contradiction |].
    reflexivity.
  - intros ->. reflexivity.
Qed.

(** * Cache keys (tools/courses.ts, tools/accommodations.ts, tools/rates.ts) *)

Lemma asked_getCached_cases key w :
  asked_of_cache (getCached_post key w) = asked_of_cache w \/
  asked_of_cache (getCached_post key w) = asked_of_cache w ++ [key].
Proof.
  unfold getCached_post, getCached. rewrite bind_unfold. unfold getRedisClient.
  destruct (negb (ENABLE_CACHE (env w)) || unset (REDIS_URL (env w))); [left; reflexivity |].
  assert (forall w0, asked_of_cache w0 = asked_of_cache w ->
            asked_of_cache (try_catch
              (value ← redis_get key;
               match value with
               | Some t => if is_empty_text t then mret VNull else lift (JSON_parse t)
               | None => mret VNull
               end)
              (fun error =>
                 logger "warn" "Cache get failed"
                        [("key", VStr key); ("error", error_json error)];;
                 mret VNull) w0).2 = asked_of_cache w ++ [key]) as Hbody.
  { intros w0 Hw0. unfold try_catch. rewrite bind_unfold. unfold redis_get.
    assert (asked_of_cache (with_io (io w0 ++ [RedisGet key]) w0) = asked_of_cache w ++ [key])
      as Hget.
    { unfold asked_of_cache in *. simpl. rewrite omap_app, Hw0. reflexivity. }
    destruct (reachable (redis w0));
      [| cbv beta iota zeta; rewrite bind_unfold, logger_eq; exact Hget].
    destruct (snd <$> entries (redis w0) !! key) as [t |]; [| exact Hget].
    destruct (is_empty_text t); [exact Hget |].
    destruct t as [v | s]; [exact Hget |].
    simpl. rewrite bind_unfold, logger_eq. exact Hget. }
  right. destruct (redisClient w); simpl negb; cbv iota; apply Hbody; reflexivity.
Qed.

Lemma asked_setCached_cases key v ttl w :
  asked_of_cache (setCached_post key v ttl w) = asked_of_cache w \/
  asked_of_cache (setCached_post key v ttl w) = asked_of_cache w ++ [key].
Proof.
  assert (forall t, asked_of_cache (with_io (io w ++ [RedisSetex key t (JSON_text v)]) w)
                    = asked_of_cache w ++ [key]) as Hset.
  { intros t. unfold asked_of_cache. simpl. rewrite omap_app. reflexivity. }
  unfold setCached_post, setCached. rewrite bind_unfold. unfold getRedisClient.
  destruct (negb (ENABLE_CACHE (env w)) || unset (REDIS_URL (env w))); [left; reflexivity |].
  right. destruct (redisClient w); simpl negb; cbv iota;
    unfold try_catch, redis_setex; simpl;
    (destruct (reachable (redis w)); [destruct (_ <=? 0) |]); simpl;
    rewrite ?logger_eq;
    apply (Hset (default (CACHE_TTL_SECONDS (env w)) ttl)).
Qed.

Ltac keeps_to_leaf :=
  unfold keeps_to;
  repeat first
    [ progress autorewrite with asked
    | match goal with
      | |- context [asked_of_cache (getCached_post ?k ?w0)] =>
          destruct (asked_getCached_cases k w0) as [-> | ->]
      | |- context [asked_of_cache (setCached_post ?k ?v ?t ?w0)] =>
          destruct (asked_setCached_cases k v t w0) as [-> | ->]
      end ];
  eexists; (split; [rewrite <- ?app_assoc; try (symmetry; apply app_nil_r); reflexivity |]);
  repeat constructor; apply prefix_append.

Lemma searchCourses_keys params w :
  wp (searchCourses params) w (keeps_to (Some "courses:search:") w).
Proof. unfold searchCourses. wp_run; keeps_to_leaf. Qed.
Lemma getCourseDetails_keys params w :
  wp (getCourseDetails params) w (keeps_to (Some "course:details:") w).
Proof. unfold getCourseDetails. wp_run; keeps_to_leaf. Qed.
Lemma getRecommendedCourses_keys params w :
  wp (getRecommendedCourses params) w (keeps_to (Some "courses:recommended:") w).
Proof. unfold getRecommendedCourses. wp_run; keeps_to_leaf. Qed.
Lemma findCourseByName_keys courseName w :
  wp (findCourseByName courseName) w (keeps_to None w).
Proof. unfold findCourseByName. wp_run; keeps_to_leaf. Qed.
Lemma searchAccommodations_keys params w :
  wp (searchAccommodations params) w (keeps_to (Some "accommodations:search:") w).
Proof. unfold searchAccommodations. wp_run; keeps_to_leaf. Qed.
Lemma getAccommodationDetails_keys params w :
  wp (getAccommodationDetails params) w (keeps_to (Some "accommodation:details:") w).
Proof. unfold getAccommodationDetails. wp_run; keeps_to_leaf. Qed.
Lemma getGolfResorts_keys region w :
  wp (getGolfResorts region) w (keeps_to (Some "resorts:") w).
Proof. unfold getGolfResorts. wp_run; keeps_to_leaf. Qed.
Lemma getSupplierRates_keys params w :
  wp (getSupplierRates params) w (keeps_to (Some "rates:") w).
Proof. unfold getSupplierRates. wp_run; keeps_to_leaf. Qed.
Lemma hasNegotiatedRate_keys params w :
  wp (hasNegotiatedRate params) w (keeps_to None w).
Proof. unfold hasNegotiatedRate. wp_run; keeps_to_leaf. Qed.
Lemma getOperatorSuppliers_keys operatorId w :
  wp (getOperatorSuppliers operatorId) w (keeps_to (Some "suppliers:") w).
Proof. unfold getOperatorSuppliers. wp_run; keeps_to_leaf. Qed.

Lemma find_course_by_name_keys params w :
  wp (courseName ← lift (prop params "courseName"); findCourseByName courseName) w
     (keeps_to None w).
Proof.
  wp_step. wp_step. wp_step.
  - apply findCourseByName_keys.
  - keeps_to_leaf.
Qed.

Lemma get_operator_suppliers_keys params w :
  wp (operatorId ← lift (prop params "operatorId"); getOperatorSuppliers operatorId) w
     (keeps_to (Some "suppliers:") w).
Proof.
  wp_step. wp_step. wp_step.
  - apply getOperatorSuppliers_keys.
  - keeps_to_leaf.
Qed.

Lemma registered_keys t args w o w' :
  In t tools -> execute t args w = (o, w') ->
  keeps_to (field_of (name t) key_prefixes) w o w'.
Proof.
  intros Hin Hexec.
  assert (wp (execute t args) w (keeps_to (field_of (name t) key_prefixes) w)) as Hwp.
  { simpl in Hin.
    repeat (destruct Hin as [<- | Hin]); simpl execute;
      [ apply searchCourses_keys
      | apply getCourseDetails_keys
      | apply getRecommendedCourses_keys
      | apply find_course_by_name_keys
      | apply searchAccommodations_keys
      | apply getAccommodationDetails_keys
      | apply getGolfResorts_keys
      | apply getSupplierRates_keys
      | apply hasNegotiatedRate_keys
      | apply get_operator_suppliers_keys
      | destruct Hin ]. }
  exact (wp_elim _ _ _ _ _ Hwp Hexec).
Qed.

(** Two prefixes of one string: one is a prefix of the other. *)
Lemma prefix_comparable p1 p2 k :
  String.prefix p1 k = true -> String.prefix p2 k = true ->
  String.prefix p1 p2 = true \/ String.prefix p2 p1 = true.
Proof.
  revert p2 k. induction p1 as [| c1 p1 IH]; intros p2 k H1 H2.
  - left. destruct p2; reflexivity.
  - destruct p2 as [| c2 p2]; [right; reflexivity |].
    destruct k as [| c k]; [discriminate H1 |].
    simpl in H1, H2 |- *.
    destruct (ascii_dec c1 c) as [-> |]; [| discriminate H1].
    destruct (ascii_dec c2 c) as [-> |]; [| discriminate H2].
    destruct (ascii_dec c c) as [_ | Hne]; [| contradiction].
    exact (IH p2 k H1 H2).
Qed.

(** No prefix of the table is a prefix of another. *)
Lemma key_prefixes_apart n1 n2 p1 p2 :
  field_of n1 key_prefixes = Some p1 ->
  field_of n2 key_prefixes = Some p2 ->
  String.prefix p1 p2 = true \/ String.prefix p2 p1 = true ->
  n1 = n2.
Proof.
  unfold key_prefixes. cbn [field_of]. intros H1 H2 Hcmp.
  repeat match type of H1 with
         | (if String.eqb ?a ?b then _ else _) = _ =>
             destruct (String.eqb_spec a b) as [-> |]
         end;
    try discriminate H1; injection H1 as <-;
    repeat match type of H2 with
           | (if String.eqb ?a ?b then _ else _) = _ =>
               destruct (String.eqb_spec a b) as [-> |]
           end;
    try discriminate H2; injection H2 as <-;
    try reflexivity;
    destruct Hcmp as [Hcmp | Hcmp]; vm_compute in Hcmp; discriminate Hcmp.
Qed.

(** X24. No two tools share a cache key: whatever their arguments and
    whatever the state, a key that a run of one tool reads or writes is
    never read or written by a run of another tool, since every key a tool
    uses starts with the tool's own prefix and no prefix is the beginning of
    another. *)
Theorem tools_keep_to_their_own_keys :
  forall t1 t2 args1 args2 w1 w2 o1 o2 w1' w2' k,
    In t1 tools -> In t2 tools ->
    execute t1 args1 w1 = (o1, w1') ->
    execute t2 args2 w2 = (o2, w2') ->
    newly_asked w1 w1' k ->
    newly_asked w2 w2' k ->
    name t1 = name t2.
Proof.
  intros t1 t2 args1 args2 w1 w2 o1 o2 w1' w2' k Hin1 Hin2 Hrun1 Hrun2
         (ks1 & Hks1 & Hk1) (ks2 & Hks2 & Hk2).
  destruct (registered_keys t1 args1 w1 o1 w1' Hin1 Hrun1) as (ks1' & Hks1' & Hall1).
  destruct (registered_keys t2 args2 w2 o2 w2' Hin2 Hrun2) as (ks2' & Hks2' & Hall2).
  rewrite Hks1 in Hks1'. apply app_inv_head in Hks1'. subst ks1'.
  rewrite Hks2 in Hks2'. apply app_inv_head in Hks2'. subst ks2'.
  pose proof (proj1 (List.Forall_forall _ _) Hall1 k Hk1) as Hp1.
  pose proof (proj1 (List.Forall_forall _ _) Hall2 k Hk2) as Hp2.
  destruct (field_of (name t1) key_prefixes) as [p1 |] eqn:Hf1; [| destruct Hp1].
  destruct (field_of (name t2) key_prefixes) as [p2 |] eqn:Hf2; [| destruct Hp2].
  simpl in Hp1, Hp2.
  exact (key_prefixes_apart _ _ p1 p2 Hf1 Hf2 (prefix_comparable p1 p2 k Hp1 Hp2)).
Qed.

(** ** On the small deployment *)

Lemma demo_world_asked :
  newly_asked demo_world demo_world_after
    ("courses:search:" +:+ JSON.stringify_text demo_search).
Proof.
  exists [("courses:search:" +:+ JSON.stringify_text demo_search);
          ("courses:search:" +:+ JSON.stringify_text demo_search)].
  split; [vm_compute; reflexivity | left; reflexivity].
Qed.

Lemma own_keys_witness : name search_courses_tool = name search_courses_tool.
Proof.
  exact (tools_keep_to_their_own_keys search_courses_tool search_courses_tool
           demo_search demo_search demo_world demo_world _ _ demo_world_after
           demo_world_after _ search_courses_registered search_courses_registered
           demo_world_run demo_world_run demo_world_asked demo_world_asked).
Defined.

(** * How long entries are kept (tools/rates.ts and the other handlers) *)

Lemma stored_with_ticks n w : stored (with_ticks n w) = stored w.
Proof. reflexivity. Qed.
Lemma stored_with_log l w : stored (with_log l w) = stored w.
Proof. reflexivity. Qed.
Lemma stored_request q w : stored (with_io (io w ++ [SupabaseRequest q]) w) = stored w.
Proof. unfold stored. simpl. rewrite omap_app. simpl. apply app_nil_r. Qed.
Lemma stored_getSupabaseClient w : stored (getSupabaseClient_post w) = stored w.
Proof.
  unfold getSupabaseClient_post, getSupabaseClient.
  destruct (supabaseClient w); rewrite ?logger_eq; reflexivity.
Qed.

Lemma stored_getCached key w : stored (getCached_post key w) = stored w.
Proof.
  unfold getCached_post, getCached. rewrite bind_unfold. unfold getRedisClient.
  destruct (negb (ENABLE_CACHE (env w)) || unset (REDIS_URL (env w))); [reflexivity |].
  assert (forall w0, stored w0 = stored w ->
            stored (try_catch
              (value ← redis_get key;
               match value with
               | Some t => if is_empty_text t then mret VNull else lift (JSON_parse t)
               | None => mret VNull
               end)
              (fun error =>
                 logger "warn" "Cache get failed"
                        [("key", VStr key); ("error", error_json error)];;
                 mret VNull) w0).2 = stored w) as Hbody.
  { intros w0 Hw0. unfold try_catch. rewrite bind_unfold. unfold redis_get.
    assert (stored (with_io (io w0 ++ [RedisGet key]) w0) = stored w) as Hget.
    { unfold stored in *. simpl. rewrite omap_app, Hw0. simpl. apply app_nil_r. }
    destruct (reachable (redis w0));
      [| cbv beta iota zeta; rewrite bind_unfold, logger_eq; exact Hget].
    destruct (snd <$> entries (redis w0) !! key) as [t |]; [| exact Hget].
    destruct (is_empty_text t); [exact Hget |].
    destruct t as [v | s]; [exact Hget |].
    simpl. rewrite bind_unfold, logger_eq. exact Hget. }
  destruct (redisClient w); simpl negb; cbv iota; apply Hbody; reflexivity.
Qed.

Lemma stored_setCached_cases key v ttl w :
  stored (setCached_post key v ttl w) = stored w \/
  stored (setCached_post key v ttl w) =
  stored w ++ [(key, default (CACHE_TTL_SECONDS (env w)) ttl)].
Proof.
  assert (forall t, stored (with_io (io w ++ [RedisSetex key t (JSON_text v)]) w)
                    = stored w ++ [(key, t)]) as Hset.
  { intros t. unfold stored. simpl. rewrite omap_app. reflexivity. }
  unfold setCached_post, setCached. rewrite bind_unfold. unfold getRedisClient.
  destruct (negb (ENABLE_CACHE (env w)) || unset (REDIS_URL (env w))); [left; reflexivity |].
  right. destruct (redisClient w); simpl negb; cbv iota;
    unfold try_catch, redis_setex; simpl;
    (destruct (reachable (redis w)); [destruct (_ <=? 0) |]); simpl;
    rewrite ?logger_eq;
    apply (Hset (default (CACHE_TTL_SECONDS (env w)) ttl)).
Qed.

Create Rewrite HintDb stored.
#[export] Hint Rewrite stored_with_ticks stored_with_log stored_request
  stored_getSupabaseClient stored_getCached : stored.

Ltac stores_for_leaf :=
  unfold stores_for;
  repeat first
    [ progress autorewrite with stored
    | match goal with
      | |- context [stored (setCached_post ?k ?v ?t ?w0)] =>
          destruct (stored_setCached_cases k v t w0) as [-> | ->]
      end ];
  eexists; (split; [try (symmetry; apply app_nil_r); reflexivity |]);
  repeat constructor; simpl; autorewrite with cache; reflexivity.

Lemma searchCourses_ttl params w :
  wp (searchCourses params) w (stores_for (CACHE_TTL_SECONDS (env w)) w).
Proof. unfold searchCourses. wp_run; stores_for_leaf. Qed.
Lemma getCourseDetails_ttl params w :
  wp (getCourseDetails params) w (stores_for (CACHE_TTL_SECONDS (env w)) w).
Proof. unfold getCourseDetails. wp_run; stores_for_leaf. Qed.
Lemma getRecommendedCourses_ttl params w :
  wp (getRecommendedCourses params) w (stores_for (CACHE_TTL_SECONDS (env w)) w).
Proof. unfold getRecommendedCourses. wp_run; stores_for_leaf. Qed.
Lemma findCourseByName_ttl courseName w :
  wp (findCourseByName courseName) w (stores_for (CACHE_TTL_SECONDS (env w)) w).
Proof. unfold findCourseByName. wp_run; stores_for_leaf. Qed.
Lemma searchAccommodations_ttl params w :
  wp (searchAccommodations params) w (stores_for (CACHE_TTL_SECONDS (env w)) w).
Proof. unfold searchAccommodations. wp_run; stores_for_leaf. Qed.
Lemma getAccommodationDetails_ttl params w :
  wp (getAccommodationDetails params) w (stores_for (CACHE_TTL_SECONDS (env w)) w).
Proof. unfold getAccommodationDetails. wp_run; stores_for_leaf. Qed.
Lemma getGolfResorts_ttl region w :
  wp (getGolfResorts region) w (stores_for (CACHE_TTL_SECONDS (env w)) w).
Proof. unfold getGolfResorts. wp_run; stores_for_leaf. Qed.
Lemma getSupplierRates_ttl params w :
  wp (getSupplierRates params) w (stores_for 600 w).
Proof. unfold getSupplierRates. wp_run; stores_for_leaf. Qed.
Lemma hasNegotiatedRate_ttl params w :
  wp (hasNegotiatedRate params) w (stores_for (CACHE_TTL_SECONDS (env w)) w).
Proof. unfold hasNegotiatedRate. wp_run; stores_for_leaf. Qed.
Lemma getOperatorSuppliers_ttl operatorId w :
  wp (getOperatorSuppliers operatorId) w (stores_for 600 w).
Proof. unfold getOperatorSuppliers. wp_run; stores_for_leaf. Qed.

Lemma find_course_by_name_ttl params w :
  wp (courseName ← lift (prop params "courseName"); findCourseByName courseName) w
     (stores_for (CACHE_TTL_SECONDS (env w)) w).
Proof.
  wp_step. wp_step. wp_step.
  - apply findCourseByName_ttl.
  - stores_for_leaf.
Qed.

Lemma get_operator_suppliers_ttl params w :
  wp (operatorId ← lift (prop params "operatorId"); getOperatorSuppliers operatorId) w
     (stores_for 600 w).
Proof.
  wp_step. wp_step. wp_step.
  - apply getOperatorSuppliers_ttl.
  - stores_for_leaf.
Qed.

(** X25. Whatever a tool writes to the cache it writes with one time to
    live: 600 seconds for get_supplier_rates and get_operator_suppliers, the
    configured CACHE_TTL_SECONDS for every other tool. *)
Theorem entries_are_kept_for_the_tools_time :
  forall t args w o w',
    In t tools ->
    execute t args w = (o, w') ->
    exists es, stored w' = stored w ++ es /\
               List.Forall (fun e => e.2 = kept_for (name t) w) es.
Proof.
  intros t args w o w' Hin Hexec.
  assert (wp (execute t args) w (stores_for (kept_for (name t) w) w)) as Hwp.
  { simpl in Hin.
    repeat (destruct Hin as [<- | Hin]); simpl execute;
      [ apply searchCourses_ttl
      | apply getCourseDetails_ttl
      | apply getRecommendedCourses_ttl
      | apply find_course_by_name_ttl
      | apply searchAccommodations_ttl
      | apply getAccommodationDetails_ttl
      | apply getGolfResorts_ttl
      | apply getSupplierRates_ttl
      | apply hasNegotiatedRate_ttl
      | apply get_operator_suppliers_ttl
      | destruct Hin ]. }
  exact (wp_elim _ _ _ _ _ Hwp Hexec).
Qed.

(** * The two transports side by side (server.ts) *)

Lemma transports_leave_the_same_backing t auth args w :
  getTool (name t) = Some t ->
  agree (invokeTool (mkRequest auth (name t) args) w).2 (callTool (name t) args w).2.
Proof.
  intros Hget. unfold invokeTool, callTool. cbn [toolName body].
  rewrite !bind_unfold.
  change (Date_now w) with (Return (clock w (ticks w)), with_ticks (S (ticks w)) w).
  cbv beta iota. unfold try_catch. rewrite Hget.
  rewrite !bind_unfold. unfold lift.
  destruct (inputSchema_parse (inputSchema t) args) as [validated | e];
    cbv beta iota; [| unfold agree; log_run; reflexivity].
  rewrite !bind_unfold.
  destruct (execute t validated (with_ticks (S (ticks w)) w)) as [[r | e] w0];
    unfold agree; log_run; reflexivity.
Qed.

(** X26. For a registered tool the two transports carry the same body: the
    JSON the REST handler answers is the payload of the session handler's
    reply to the same arguments, the REST status is 200 exactly when the
    session reply's error flag is clear, and both leave the same store and
    the same clock behind. *)
Theorem transports_carry_the_same_body :
  forall t auth args w,
    In t tools ->
    exists resp reply w1 w2,
      invokeTool (mkRequest auth (name t) args) w = (Return resp, w1) /\
      callTool (name t) args w = (Return reply, w2) /\
      json resp = payload reply /\
      (status resp = 200 <-> isError reply = false) /\
      agree w1 w2.
Proof.
  intros t auth args w Hin.
  pose proof (getTool_registered t Hin) as Hget.
  pose proof (transports_leave_the_same_backing t auth args w Hget) as Hagree.
  destruct (invokeTool_cases (mkRequest auth (name t) args) w) as (resp & w1 & Hrest & H1).
  destruct (callTool_cases (name t) args w) as (reply & w2 & Hsession & H2).
  rewrite Hrest, Hsession in Hagree. simpl fst in Hagree. simpl snd in Hagree.
  simpl toolName in H1. simpl body in H1. rewrite Hget in H1, H2.
  exists resp, reply, w1, w2. split; [exact Hrest |]. split; [exact Hsession |].
  destruct (inputSchema_parse (inputSchema t) args) as [validated | e].
  - destruct H1 as (r1 & wa & Ha & ->). destruct H2 as (r2 & wb & Hb & ->).
    rewrite Ha in Hb. injection Hb as <- _.
    split; [reflexivity |]. split; [| exact Hagree]. simpl. tauto.
  - subst resp reply. split; [reflexivity |]. split; [| exact Hagree].
    simpl. split; discriminate.
Qed.

(** ** On the small deployment *)

Lemma kept_for_witness :
  exists es, stored demo_world_after = stored demo_world ++ es /\
             List.Forall (fun e => e.2 = kept_for (name search_courses_tool) demo_world) es.
Proof.
  exact (entries_are_kept_for_the_tools_time search_courses_tool demo_search demo_world _
           demo_world_after search_courses_registered demo_world_run).
Defined.

Lemma same_body_witness :
  exists resp reply w1 w2,
    invokeTool (mkRequest None (name search_courses_tool) demo_search) demo_world =
      (Return resp, w1) /\
    callTool (name search_courses_tool) demo_search demo_world = (Return reply, w2) /\
    json resp = payload reply /\
    (status resp = 200 <-> isError reply = false) /\
    agree w1 w2.
Proof.
  exact (transports_carry_the_same_body search_courses_tool None demo_search demo_world
           search_courses_registered).
Defined.

(** * Time (tools/courses.ts, tools/accommodations.ts, tools/rates.ts) *)

Lemma getCached_val_source key w w0 :
  env w0 = env w -> redis w0 = redis w ->
  (getCached key w).1 = Return (getCached_val key w0).
Proof.
  intros He Hr. rewrite (getCached_fst_ext key w w0) by auto.
  rewrite getCached_eq. reflexivity.
Qed.

Ltac hit_source_leaf :=
  unfold hit_source;
  let Hr := fresh "Hr" in
  let Hv := fresh "Hv" in
  intros ? ? Hr Hv; try discriminate Hr; injection Hr as <-;
  unfold cache_hit, failure in Hv;
  first
    [ discriminate Hv
    | injection Hv as <-; eexists; apply getCached_val_source;
      autorewrite with cache; reflexivity ].

Lemma searchCourses_source params w : wp (searchCourses params) w (hit_source w).
Proof. unfold searchCourses. wp_run; hit_source_leaf. Qed.
Lemma getCourseDetails_source params w : wp (getCourseDetails params) w (hit_source w).
Proof. unfold getCourseDetails. wp_run; hit_source_leaf. Qed.
Lemma getRecommendedCourses_source params w :
  wp (getRecommendedCourses params) w (hit_source w).
Proof. unfold getRecommendedCourses. wp_run; hit_source_leaf. Qed.
Lemma findCourseByName_source courseName w :
  wp (findCourseByName courseName) w (hit_source w).
Proof. unfold findCourseByName. wp_run; hit_source_leaf. Qed.
Lemma searchAccommodations_source params w :
  wp (searchAccommodations params) w (hit_source w).
Proof. unfold searchAccommodations. wp_run; hit_source_leaf. Qed.
Lemma getAccommodationDetails_source params w :
  wp (getAccommodationDetails params) w (hit_source w).
Proof. unfold getAccommodationDetails. wp_run; hit_source_leaf. Qed.
Lemma getGolfResorts_source region w : wp (getGolfResorts region) w (hit_source w).
Proof. unfold getGolfResorts. wp_run; hit_source_leaf. Qed.
Lemma getSupplierRates_source params w : wp (getSupplierRates params) w (hit_source w).
Proof. unfold getSupplierRates. wp_run; hit_source_leaf. Qed.
Lemma hasNegotiatedRate_source params w : wp (hasNegotiatedRate params) w (hit_source w).
Proof. unfold hasNegotiatedRate. wp_run; hit_source_leaf. Qed.
Lemma getOperatorSuppliers_source operatorId w :
  wp (getOperatorSuppliers operatorId) w (hit_source w).
Proof. unfold getOperatorSuppliers. wp_run; hit_source_leaf. Qed.

Lemma find_course_by_name_source params w :
  wp (courseName ← lift (prop params "courseName"); findCourseByName courseName) w
     (hit_source w).
Proof.
  wp_step. wp_step. wp_step.
  - apply findCourseByName_source.
  - hit_source_leaf.
Qed.

Lemma get_operator_suppliers_source params w :
  wp (operatorId ← lift (prop params "operatorId"); getOperatorSuppliers operatorId) w
     (hit_source w).
Proof.
  wp_step. wp_step. wp_step.
  - apply getOperatorSuppliers_source.
  - hit_source_leaf.
Qed.

Lemma registered_source t args w r w' v :
  In t tools -> execute t args w = (Return r, w') -> r = cache_hit v ->
  exists key, (getCached key w).1 = Return v.
Proof.
  intros Hin Hexec Hr.
  assert (wp (execute t args) w (hit_source w)) as Hwp.
  { simpl in Hin.
    repeat (destruct Hin as [<- | Hin]); simpl execute;
      [ apply searchCourses_source
      | apply getCourseDetails_source
      | apply getRecommendedCourses_source
      | apply find_course_by_name_source
      | apply searchAccommodations_source
      | apply getAccommodationDetails_source
      | apply getGolfResorts_source
      | apply getSupplierRates_source
      | apply hasNegotiatedRate_source
      | apply get_operator_suppliers_source
      | destruct Hin ]. }
  exact (wp_elim _ _ _ _ _ Hwp Hexec r v eq_refl Hr).
Qed.

(** With arguments that passed the tool's validator, a failure follows a
    query. *)
Lemma validated_failure_asked t args w r w' :
  In t tools ->
  validated_for t args ->
  execute t args w = (Return r, w') ->
  success r = false ->
  exists q, sent w' = sent w ++ [q].
Proof.
  intros Hin (z & raw & Hz & Hparse) Hexec Hfail.
  assert (store_error_only w (Return r) w' -> exists q, sent w' = sent w ++ [q]) as Hq.
  { intros H. destruct (H r eq_refl Hfail) as (q & m & pfx & Hsent & _). eauto. }
  simpl in Hin.
  repeat (destruct Hin as [<- | Hin]); try destruct Hin;
    simpl in Hz; try discriminate Hz; injection Hz as <-; simpl in Hexec.
  - apply parse_object in Hparse as (fs & -> & _ & ->).
    exact (Hq (wp_elim _ _ _ _ _ (searchCourses_validated _ w) Hexec)).
  - apply parse_object in Hparse as (fs & -> & _ & ->).
    exact (Hq (wp_elim _ _ _ _ _ (getCourseDetails_validated _ w) Hexec)).
  - apply recommended_args in Hparse as (fs & tier & -> & Hfield & Htier).
    exact (Hq (wp_elim _ _ _ _ _ (getRecommendedCourses_validated fs tier w Htier Hfield)
                       Hexec)).
  - apply parse_object in Hparse as (fs & -> & _ & ->).
    exact (Hq (wp_elim _ _ _ _ _ (searchAccommodations_validated _ w) Hexec)).
  - apply parse_object in Hparse as (fs & -> & _ & ->).
    exact (Hq (wp_elim _ _ _ _ _ (getAccommodationDetails_validated _ w) Hexec)).
  - apply parse_object in Hparse as (fs & -> & _ & ->).
    exact (Hq (wp_elim _ _ _ _ _ (getSupplierRates_validated _ w) Hexec)).
  - apply parse_object in Hparse as (fs & -> & _ & ->).
    pose proof (wp_elim _ _ _ _ _ (hasNegotiatedRate_validated _ w) Hexec r eq_refl).
    congruence.
Qed.

Lemma snoc_not_self {A : Type} (l : list A) (x : A) : l <> l ++ [x].
Proof.
  intros H. apply (f_equal (@length A)) in H. rewrite length_app in H. simpl in H. lia.
Qed.


